(** * DesktopOrganizer: classification cascade and move/undo ledger

    A shallow embedding of [categories.py], [analyzer.py], [mover.py],
    the scanner of [scanner.py] and the drivers of [organizer.py], with
    the properties of the classification engine, of the scan and of the
    transactional move/undo subsystem proved over it.

    Layout.  Part I holds the model, one module per source file, preceded
    by a module [Py] for the Python values and library calls the code
    relies on (strings, exceptions, JSON values, [datetime], [pathlib],
    [os] and [shutil] over a finite directory tree).  Part II holds the
    lemmas and theorems about the classification cascade and the ledger.
    Part III adds the batch loops and the scanner to the model and holds
    further properties of the registry lookups, the tiers, the executor,
    the session log and the scan. *)

From Stdlib Require Import QArith Ascii.
From Stdlib Require String.
From stdpp Require Import gmap strings list fin_maps pretty.
Close Scope Q_scope.
Set Warnings "-register-all".

(* ===================================================================== *)
(** * Part I: the model                                                   *)
(* ===================================================================== *)

Module Py.

(** ** Exceptions and results *)

(** The exception classes the sources raise or catch.  [ShutilError] is
    [shutil.Error]; the first six are subclasses of [OSError], which
    itself stands for its remaining subclasses (directory not empty, ...);
    [OtherException] stands for any class not listed. *)
Inductive exn :=
  | FileNotFoundError | FileExistsError | NotADirectoryError
  | IsADirectoryError | PermissionError | ShutilError | OSError
  | JSONDecodeError | KeyError (key : string) | ValueError
  | TypeError | AttributeError
  | OtherException.

Definition is_OSError (e : exn) : bool :=
  match e with
  | FileNotFoundError | FileExistsError | NotADirectoryError
  | IsADirectoryError | PermissionError | ShutilError | OSError => true
  | _ => false
  end.

(** Outcome of a call: a value, a raised exception, or [OutOfFuel] for
    the two loops of the sources that are modelled with a step budget. *)
Inductive result (A : Type) :=
  | Ok (a : A)
  | Raise (e : exn)
  | OutOfFuel.
Arguments Ok {A} a.
Arguments Raise {A} e.
Arguments OutOfFuel {A}.

Global Instance result_ret : MRet result := fun _ a => Ok a.
Global Instance result_bind : MBind result := fun _ _ f m =>
  match m with
  | Ok a => f a
  | Raise e => Raise e
  | OutOfFuel => OutOfFuel
  end.

(** [try: body except E: handler], for the exception classes selected by
    [catches]. *)
Definition try_except {A} (body : result A) (catches : exn -> bool)
    (handler : exn -> result A) : result A :=
  match body with
  | Raise e => if catches e then handler e else Raise e
  | r => r
  end.

(** ** Strings

    Python [str] values are modelled as byte strings; [lower] and [strip]
    act on the ASCII range. *)

Definition lower_ascii (c : ascii) : ascii :=
  let n := nat_of_ascii c in
  if (65 <=? n) && (n <=? 90) then ascii_of_nat (n + 32) else c.

Fixpoint lower (s : string) : string :=
  match s with
  | EmptyString => EmptyString
  | String c s' => String (lower_ascii c) (lower s')
  end.

(** [needle in hay] on strings. *)
Fixpoint str_in (needle hay : string) : bool :=
  String.prefix needle hay ||
  match hay with
  | EmptyString => false
  | String _ hay' => str_in needle hay'
  end.

(** [s.split(sep)] for a non-empty separator: [skip] counts the characters
    of a matched separator still to be dropped, [cur] is the current piece
    in reverse. *)
Fixpoint split_go (sep : string) (skip : nat) (cur : string) (s : string)
    : list string :=
  match s with
  | EmptyString => [String.rev cur]
  | String c s' =>
      match skip with
      | S k => split_go sep k cur s'
      | O =>
          if String.prefix sep s
          then String.rev cur :: split_go sep (String.length sep - 1) "" s'
          else split_go sep 0 (String c cur) s'
      end
  end.

Definition split (sep s : string) : list string := split_go sep 0 "" s.

Definition is_whitespace (c : ascii) : bool :=
  let n := nat_of_ascii c in
  ((9 <=? n) && (n <=? 13)) || ((28 <=? n) && (n <=? 32)).

Fixpoint lstrip (s : string) : string :=
  match s with
  | String c s' => if is_whitespace c then lstrip s' else s
  | EmptyString => EmptyString
  end.

Definition strip (s : string) : string :=
  String.rev (lstrip (String.rev (lstrip s))).

(** [s.rfind('.')], counting positions from [i]. *)
Fixpoint rfind_dot (s : string) (i : nat) : option nat :=
  match s with
  | EmptyString => None
  | String c s' =>
      match rfind_dot s' (S i) with
      | Some j => Some j
      | None => if Ascii.eqb c "."%char then Some i else None
      end
  end.

(** [sep.join(parts)]. *)
Fixpoint join (sep : string) (parts : list string) : string :=
  match parts with
  | [] => ""
  | [p] => p
  | p :: rest => p +:+ sep +:+ join sep rest
  end.

(** [str(n)] for a non-negative [int]. *)
Definition str_of_nat (n : nat) : string := pretty n.

(** ** JSON values, as [json.loads] returns them

    Numbers are rationals: the sources only compare them with [0.0] and
    [1.0], which is exact on the decimal literals a document can carry. *)
Inductive json :=
  | JNull
  | JBool (b : bool)
  | JNum (q : Q)
  | JStr (s : string)
  | JArr (items : list json)
  | JObj (members : list (string * json)).

(** [d.get(key, default)] and [key in d] on the members of an object. *)
Fixpoint dict_get (members : list (string * json)) (key : string)
    : option json :=
  match members with
  | [] => None
  | (k, v) :: rest => if String.eqb k key then Some v else dict_get rest key
  end.

(** ** [datetime]

    A [datetime] value is its calendar fields, as in Python. *)
Record datetime := {
  year : nat; month : nat; day : nat;
  hour : nat; minute : nat; second : nat; microsecond : nat
}.

(** Zero-padded decimal of width [w], as [%02d] and friends. *)
Definition zpad (w n : nat) : string :=
  let s := str_of_nat n in
  String.concat "" (replicate (w - String.length s) "0") +:+ s.

(** [strftime('%Y%m%d_%H%M%S')]. *)
Definition strftime_id (t : datetime) : string :=
  zpad 4 (year t) +:+ zpad 2 (month t) +:+ zpad 2 (day t) +:+ "_" +:+
  zpad 2 (hour t) +:+ zpad 2 (minute t) +:+ zpad 2 (second t).

(** [isoformat()]: the microseconds are printed only when non-zero. *)
Definition isoformat (t : datetime) : string :=
  zpad 4 (year t) +:+ "-" +:+ zpad 2 (month t) +:+ "-" +:+ zpad 2 (day t)
  +:+ "T" +:+
  zpad 2 (hour t) +:+ ":" +:+ zpad 2 (minute t) +:+ ":" +:+ zpad 2 (second t)
  +:+ (if microsecond t =? 0 then "" else "." +:+ zpad 6 (microsecond t)).

(** ** State and exceptions together

    A computation over a state [S] returns an outcome and the state it
    leaves behind: a mutation made before an exception is raised stays. *)
Definition M (S A : Type) : Type := S -> result A * S.

Global Instance M_ret {S} : MRet (M S) := fun _ a s => (Ok a, s).
Global Instance M_bind {S} : MBind (M S) := fun _ _ f m s =>
  match m s with
  | (Ok a, s') => f a s'
  | (Raise e, s') => (Raise e, s')
  | (OutOfFuel, s') => (OutOfFuel, s')
  end.

Definition get {S} : M S S := fun s => (Ok s, s).
Definition modify {S} (f : S -> S) : M S unit := fun s => (Ok tt, f s).
Definition raise {S A} (e : exn) : M S A := fun s => (Raise e, s).

(** [try: body except E: handler] on stateful computations. *)
Definition try_catch {S A} (body : M S A) (catches : exn -> bool)
    (handler : exn -> M S A) : M S A := fun s =>
  match body s with
  | (Raise e, s') => if catches e then handler e s' else (Raise e, s')
  | r => r
  end.

(** ** Paths and the directory tree ([pathlib], [os], [shutil])

    A path is the list of its components from the leaf up to the root:
    [/src/a.txt] is [["a.txt"; "src"]] and the root is [[]].  So the parent
    is the tail, the name is the head, and [q] lies under [p] when [p] is a
    suffix of [q]. *)
Abbreviation Path := (list string).

Definition abs_path (components : list string) : Path := rev components.

Definition Path_parent (p : Path) : Path := tail p.
Definition Path_name (p : Path) : string := default "" (head p).

(** [p / name] for a single file name. *)
Definition joinname (p : Path) (n : string) : Path :=
  if String.eqb n "" then p else n :: p.

(** The components of a path string: empty parts and [.] are dropped. *)
Definition parse_parts (s : string) : list string :=
  List.filter (fun c => negb (String.eqb c "") && negb (String.eqb c "."))
              (split "/" s).

(** [Path(s)]; relative strings are taken from the root. *)
Definition Path_of_str (s : string) : Path := rev (parse_parts s).

(** [p / s] for a path string [s]: an absolute [s] replaces [p]. *)
Definition truediv (p : Path) (s : string) : Path :=
  if String.prefix "/" s then Path_of_str s else Path_of_str s ++ p.

(** [str(p)]. *)
Definition str_of_path (p : Path) : string := "/" +:+ join "/" (rev p).

(** [Path.suffix] and [Path.stem]: the last dot counts when it is neither
    the first nor the last character of the name. *)
Definition dot_index (n : string) : option nat :=
  match rfind_dot n 0 with
  | Some i => if (0 <? i) && (i <? String.length n - 1) then Some i else None
  | None => None
  end.

Definition Path_suffix (p : Path) : string :=
  let n := Path_name p in
  match dot_index n with
  | Some i => String.substring i (String.length n - i) n
  | None => ""
  end.

Definition Path_stem (p : Path) : string :=
  let n := Path_name p in
  match dot_index n with
  | Some i => String.substring 0 i n
  | None => n
  end.

(** File contents: either bytes that [json.load] rejects, or a document
    that it reads as the value [j]. *)
Inductive content :=
  | Bytes (b : string)
  | Document (j : json).

Inductive node :=
  | File (c : content)
  | Dir.

(** The tree: which paths exist, and as what. *)
Abbreviation FS := (gmap (list string) node).

Definition exists_ (fs : FS) (p : Path) : bool :=
  match fs !! p with Some _ => true | None => false end.
Definition is_dir (fs : FS) (p : Path) : bool :=
  match fs !! p with Some Dir => true | _ => false end.
Definition is_file (fs : FS) (p : Path) : bool :=
  match fs !! p with Some (File _) => true | _ => false end.

(** [p.mkdir(parents=True, exist_ok=True)], following [pathlib]:
    [os.mkdir] first, the parents on [FileNotFoundError], and an existing
    directory is accepted. *)
Fixpoint mkdir_parents (fs : FS) (p : Path) : result FS :=
  match fs !! p with
  | Some Dir => Ok fs
  | Some (File _) => Raise FileExistsError
  | None =>
      match p with
      | [] => Raise FileNotFoundError
      | _ :: up =>
          match fs !! up with
          | Some Dir => Ok (<[p := Dir]> fs)
          | Some (File _) => Raise NotADirectoryError
          | None => fs' ← mkdir_parents fs up; Ok (<[p := Dir]> fs')
          end
      end
  end.

(** The entries of a directory. *)
Definition children (fs : FS) (d : Path) : list Path :=
  List.filter (fun p => match p with
                        | _ :: up => bool_decide (up = d)
                        | [] => false
                        end)
              (elements (dom fs)).

(** [d.iterdir()]. *)
Definition iterdir (fs : FS) (d : Path) : result (list Path) :=
  match fs !! d with
  | Some Dir => Ok (children fs d)
  | Some (File _) => Raise NotADirectoryError
  | None => Raise FileNotFoundError
  end.

(** [d.rmdir()]; the root cannot be removed. *)
Definition rmdir (fs : FS) (d : Path) : result FS :=
  match fs !! d with
  | Some Dir =>
      match children fs d, d with
      | [], _ :: _ => Ok (delete d fs)
      | _, _ => Raise OSError       (* directory not empty, or the root *)
      end
  | Some (File _) => Raise NotADirectoryError
  | None => Raise FileNotFoundError
  end.

(** [open(p, 'w')] followed by writing [c]. *)
Definition write_file (fs : FS) (p : Path) (c : content) : result FS :=
  match fs !! p with
  | Some Dir => Raise IsADirectoryError
  | _ =>
      match fs !! Path_parent p with
      | Some Dir => Ok (<[p := File c]> fs)
      | Some (File _) => Raise NotADirectoryError
      | None => Raise FileNotFoundError
      end
  end.

(** [open(p)] followed by [json.load]. *)
Definition read_json (fs : FS) (p : Path) : result json :=
  match fs !! p with
  | Some (File (Document j)) => Ok j
  | Some (File (Bytes _)) => Raise JSONDecodeError
  | Some Dir => Raise IsADirectoryError
  | None => Raise FileNotFoundError
  end.

(** Relocation of the subtree at [src] to [dst]. *)
Definition move_tree (fs : FS) (src dst : Path) : FS :=
  list_to_map
    ((fun kv : Path * node =>
        (take (length kv.1 - length src) kv.1 ++ dst, kv.2)) <$>
     List.filter (fun kv : Path * node => bool_decide (src `suffix_of` kv.1))
                 (map_to_list fs))
  ∪ filter (fun kv : Path * node => ¬ src `suffix_of` kv.1) fs.

(** [os.rename(src, dst)] with the copy fallback of [shutil.move], once the
    real destination is known. *)
Definition rename_or_copy (fs : FS) (src dst : Path) : result FS :=
  match fs !! src with
  | None => Raise FileNotFoundError
  | Some (File c) =>
      match fs !! dst with
      | Some Dir => Raise IsADirectoryError
      | _ =>
          match fs !! Path_parent dst with
          | Some Dir => Ok (<[dst := File c]> (delete src fs))
          | Some (File _) => Raise NotADirectoryError
          | None => Raise FileNotFoundError
          end
      end
  | Some Dir =>
      if bool_decide (src `suffix_of` dst) then Raise ShutilError
      else
        match fs !! dst with
        | Some _ => Raise FileExistsError
        | None =>
            (* [copytree] creates the missing parents of [dst] *)
            fs' ← mkdir_parents fs (Path_parent dst);
            Ok (move_tree fs' src dst)
        end
  end.

(** [shutil.move(src, dst)]: a destination that is a directory receives
    the source under its own name. *)
Definition shutil_move (fs : FS) (src dst : Path) : result FS :=
  if is_dir fs dst then
    if bool_decide (src = dst) then Ok fs
    else
      let real_dst := Path_name src :: dst in
      if exists_ fs real_dst then Raise ShutilError
      else rename_or_copy fs src real_dst
  else rename_or_copy fs src dst.

(** A tree is well formed when the root is a directory, every entry sits
    in a directory, and every component is a proper file name. *)
Definition valid_name (n : string) : bool :=
  negb (String.eqb n "") && negb (String.eqb n ".") && negb (str_in "/" n).

Definition wf (fs : FS) : Prop :=
  fs !! [] = Some Dir ∧
  (∀ n p x, fs !! (n :: p) = Some x → fs !! p = Some Dir) ∧
  (∀ p x, fs !! p = Some x → Forall (fun n => valid_name n = true) p).

End Py.

(* --------------------------------------------------------------------- *)
(** ** categories.py                                                      *)
(* --------------------------------------------------------------------- *)

Module categories.
Import Py.

Record Category := {
  name : string;
  path : string;          (* relative path in the organized structure *)
  description : string;
  extensions : gset string;
  keywords : gset string
}.

(** The registry, in declaration order (a Python [dict] iterates in
    insertion order). *)
Definition CATEGORIES : list (string * Category) := [
  ("work", {| name := "Work Documents"; path := "Documents/Work";
     description := "Work-related documents, reports, presentations";
     extensions := list_to_set [".doc"; ".docx"; ".ppt"; ".pptx"; ".xls";
                                ".xlsx"; ".odt"; ".ods"; ".odp"];
     keywords := list_to_set ["report"; "meeting"; "project"; "proposal";
                              "invoice"; "contract"; "agenda"; "memo"] |});
  ("personal", {| name := "Personal Documents"; path := "Documents/Personal";
     description := "Personal documents, letters, notes";
     extensions := ∅;
     keywords := list_to_set ["personal"; "diary"; "journal"; "letter";
                              "note"; "todo"; "list"] |});
  ("financial", {| name := "Financial Documents";
     path := "Documents/Financial";
     description := "Financial records, receipts, tax documents";
     extensions := ∅;
     keywords := list_to_set ["tax"; "receipt"; "invoice"; "bank";
                              "statement"; "budget"; "expense"; "payment";
                              "salary"] |});
  ("legal", {| name := "Legal Documents"; path := "Documents/Legal";
     description := "Legal documents, contracts, agreements";
     extensions := ∅;
     keywords := list_to_set ["legal"; "contract"; "agreement"; "license";
                              "terms"; "policy"; "nda"; "court"; "law"] |});
  ("ebooks", {| name := "eBooks"; path := "Documents/eBooks";
     description := "Electronic books and publications";
     extensions := list_to_set [".epub"; ".mobi"; ".azw"; ".azw3"];
     keywords := list_to_set ["ebook"; "book"; "novel"; "guide";
                              "manual"] |});
  ("pdf", {| name := "PDFs"; path := "Documents/PDFs";
     description := "PDF documents";
     extensions := list_to_set [".pdf"];
     keywords := ∅ |});
  ("python", {| name := "Python Code"; path := "Code/Python";
     description := "Python source files";
     extensions := list_to_set [".py"; ".pyw"; ".pyx"; ".pxd"; ".pyi"];
     keywords := ∅ |});
  ("javascript", {| name := "JavaScript Code"; path := "Code/JavaScript";
     description := "JavaScript and TypeScript files";
     extensions := list_to_set [".js"; ".jsx"; ".ts"; ".tsx"; ".mjs";
                                ".cjs"];
     keywords := ∅ |});
  ("web", {| name := "Web Files"; path := "Code/Web";
     description := "HTML, CSS, and web assets";
     extensions := list_to_set [".html"; ".htm"; ".css"; ".scss"; ".sass";
                                ".less"; ".svg"];
     keywords := ∅ |});
  ("code_other", {| name := "Other Code"; path := "Code/Other";
     description := "Other programming languages";
     extensions := list_to_set [".java"; ".c"; ".cpp"; ".h"; ".hpp"; ".cs";
                                ".go"; ".rs"; ".rb"; ".php"; ".swift";
                                ".kt"; ".scala"; ".r"; ".m"; ".mm"; ".sql";
                                ".sh"; ".bash"; ".zsh"; ".ps1"; ".bat";
                                ".cmd"];
     keywords := ∅ |});
  ("config", {| name := "Config Files"; path := "Code/Config";
     description := "Configuration and settings files";
     extensions := list_to_set [".json"; ".yaml"; ".yml"; ".toml"; ".ini";
                                ".cfg"; ".conf"; ".env"; ".properties";
                                ".xml"];
     keywords := list_to_set ["config"; "settings"; "preferences"] |});
  ("photos", {| name := "Photos"; path := "Media/Photos";
     description := "Image files and photographs";
     extensions := list_to_set [".jpg"; ".jpeg"; ".png"; ".gif"; ".bmp";
                                ".webp"; ".heic"; ".heif"; ".raw"; ".cr2";
                                ".nef"; ".arw"];
     keywords := list_to_set ["photo"; "image"; "picture"; "screenshot";
                              "img"; "pic"] |});
  ("videos", {| name := "Videos"; path := "Media/Videos";
     description := "Video files";
     extensions := list_to_set [".mp4"; ".avi"; ".mkv"; ".mov"; ".wmv";
                                ".flv"; ".webm"; ".m4v"; ".mpeg"; ".mpg";
                                ".3gp"];
     keywords := list_to_set ["video"; "movie"; "clip"; "recording"] |});
  ("music", {| name := "Music"; path := "Media/Music";
     description := "Audio and music files";
     extensions := list_to_set [".mp3"; ".wav"; ".flac"; ".aac"; ".ogg";
                                ".wma"; ".m4a"; ".aiff"; ".alac"];
     keywords := list_to_set ["music"; "song"; "audio"; "track";
                              "podcast"] |});
  ("graphics", {| name := "Graphics"; path := "Media/Graphics";
     description := "Design and graphics files";
     extensions := list_to_set [".psd"; ".ai"; ".eps"; ".indd"; ".sketch";
                                ".fig"; ".xd"; ".afdesign"; ".afphoto"];
     keywords := list_to_set ["design"; "graphic"; "logo"; "icon";
                              "banner"] |});
  ("archives", {| name := "Archives"; path := "Archives";
     description := "Compressed files and archives";
     extensions := list_to_set [".zip"; ".rar"; ".7z"; ".tar"; ".gz";
                                ".bz2"; ".xz"; ".tgz"; ".tbz2"];
     keywords := list_to_set ["backup"; "archive"] |});
  ("data", {| name := "Data Files"; path := "Data";
     description := "Data files, spreadsheets, databases";
     extensions := list_to_set [".csv"; ".tsv"; ".parquet"; ".sqlite";
                                ".db"; ".mdb"; ".accdb"];
     keywords := list_to_set ["data"; "dataset"; "export"; "import"] |});
  ("installers", {| name := "Installers"; path := "Applications/Installers";
     description := "Application installers and packages";
     extensions := list_to_set [".dmg"; ".pkg"; ".msi"; ".exe"; ".deb";
                                ".rpm"; ".appimage"; ".snap"];
     keywords := list_to_set ["install"; "setup"; "installer"] |});
  ("misc", {| name := "Miscellaneous"; path := "Misc";
     description := "Uncategorized files";
     extensions := ∅;
     keywords := ∅ |})
].

Global Arguments CATEGORIES : simpl never.

(** [CATEGORIES.get(key)]. *)
Definition CATEGORIES_get (key : string) : option Category :=
  snd <$> List.find (fun kc => String.eqb kc.1 key) CATEGORIES.

(** [CATEGORIES.values()]. *)
Definition CATEGORIES_values : list Category := snd <$> CATEGORIES.
Global Arguments CATEGORIES_values : simpl never.

Definition get_category_by_extension (extension : string)
    : option Category :=
  let ext := lower extension in
  List.find (fun category => bool_decide (ext ∈ extensions category))
            CATEGORIES_values.

Definition get_category_by_keywords (filename : string) : option Category :=
  let name_lower := lower filename in
  List.find (fun category =>
               existsb (fun keyword => str_in keyword name_lower)
                       (elements (keywords category)))
            CATEGORIES_values.

(** [CATEGORIES["misc"]]. *)
Definition get_fallback_category : result Category :=
  match CATEGORIES_get "misc" with
  | Some c => Ok c
  | None => Raise (KeyError "misc")
  end.

Definition nl : string := String "010"%char "".

Definition CATEGORY_DESCRIPTIONS : string :=
  join nl ((fun kc : string * Category =>
              "- " +:+ kc.1 +:+ ": " +:+ description kc.2 +:+
              " (path: " +:+ path kc.2 +:+ ")") <$> CATEGORIES).

End categories.

(* --------------------------------------------------------------------- *)
(** ** scanner.py: the record the scanner hands to the analyzer           *)
(* --------------------------------------------------------------------- *)

Module scanner.

(** [FileInfo].  [path] is the list of path components from the leaf up
    (see [Py.Path] below); the two time stamps of the source record are
    read by no function modelled here and are left out. *)
Record FileInfo := {
  path : list string;
  name : string;
  extension : string;
  size_bytes : N;
  content : option string;
  mime_type : option string
}.

End scanner.

(* --------------------------------------------------------------------- *)
(** ** analyzer.py                                                        *)
(* --------------------------------------------------------------------- *)

Module analyzer.
Import Py.
Import categories (Category, CATEGORIES, CATEGORIES_get,
                   get_category_by_extension, get_category_by_keywords,
                   get_fallback_category, CATEGORY_DESCRIPTIONS, nl).
Import scanner (FileInfo).

(** [AnalysisResult].  [reasoning] is whatever value the backend put under
    that key, so it is a JSON value and not only a string. *)
Record AnalysisResult := {
  file_info : FileInfo;
  category : Category;
  confidence : Q;          (* 0.0 to 1.0 *)
  reasoning : json;
  method : string          (* 'ai', 'extension', 'keyword', 'fallback' *)
}.

(** The [_client] field: [None], the sentinel [False], or a client. *)
Inductive client_slot := ClientNone | ClientFalse | ClientHandle.

Record FileAnalyzer := {
  _client : client_slot;
  _ollama_available : option bool
}.

Definition __init__ : FileAnalyzer :=
  {| _client := ClientNone; _ollama_available := None |}.

Section backend.

(** The backend and the library calls, as the analyzer sees them. *)

(** Whether [import ollama], [ollama.Client(host)] and [client.list()]
    all succeed. *)
Variable probe : bool.
(** [client.chat(...)['message']['content']] for a prompt; [None] when
    the call or the indexing raises. *)
Variable chat : string -> option string.
(** [json.loads]; [None] is [JSONDecodeError]. *)
Variable json_loads : string -> option json.
(** [float(s)] on a string; [None] is [ValueError]. *)
Variable float_of_str : string -> option Q.
(** The [:.2f] rendering of [size_mb]. *)
Variable format_size_mb : N -> string.

(** Returns the updated analyzer and whether a client is returned
    (rather than [None]). *)
Definition _get_client (self : FileAnalyzer) : FileAnalyzer * bool :=
  let self :=
    match _client self with
    | ClientNone =>
        if probe
        then {| _client := ClientHandle; _ollama_available := Some true |}
        else {| _client := ClientFalse; _ollama_available := Some false |}
    | _ => self
    end in
  (self, match _client self with ClientHandle => true | _ => false end).

Definition ollama_available (self : FileAnalyzer)
    : FileAnalyzer * option bool :=
  let self :=
    match _ollama_available self with
    | None => (_get_client self).1
    | Some _ => self
    end in
  (self, _ollama_available self).

Definition _build_prompt (file_info : FileInfo) : string :=
  let content_preview :=
    match scanner.content file_info with
    | Some c => if String.eqb c "" then "No content available"
                else String.substring 0 2000 c
    | None => "No content available"
    end in
  "Categorize this file based on its information:" +:+ nl +:+ nl +:+
  "**File Name:** " +:+ scanner.name file_info +:+ nl +:+
  "**Extension:** " +:+ scanner.extension file_info +:+ nl +:+
  "**Size:** " +:+ format_size_mb (scanner.size_bytes file_info) +:+
  " MB" +:+ nl +:+
  "**MIME Type:** " +:+
  match scanner.mime_type file_info with
  | Some m => if String.eqb m "" then "Unknown" else m
  | None => "Unknown"
  end +:+ nl +:+ nl +:+
  "**Content Preview:**" +:+ nl +:+ "```" +:+ nl +:+
  content_preview +:+ nl +:+ "```" +:+ nl +:+ nl +:+
  "**Available Categories:**" +:+ nl +:+
  CATEGORY_DESCRIPTIONS +:+ nl +:+ nl +:+
  "Analyze the file name, extension, and content to determine the best category. Respond with JSON only.".

(** The text between the code fences, when the response has any. *)
Definition unfence (response : string) : string :=
  if str_in "```json" response
  then nth 0 (split "```" (nth 1 (split "```json" response) "")) ""
  else if str_in "```" response
  then nth 0 (split "```" (nth 1 (split "```" response) "")) ""
  else response.

(** [float(v)], on the finite numbers: the values [nan] and [inf], which
    [float] also reads from a string or passes on from a document, have
    no counterpart among the rationals, and neither has the
    [OverflowError] of an integer beyond the range of a float. *)
Definition float (v : json) : result Q :=
  match v with
  | JNum q => Ok q
  | JBool b => Ok (if b then 1%Q else 0%Q)
  | JStr s => match float_of_str s with
              | Some q => Ok q
              | None => Raise ValueError
              end
  | _ => Raise TypeError
  end.

(** [min(confidence, 1.0)]: the second argument is taken only when it is
    strictly smaller.  On the finite numbers modelled here the result is
    at most 1; the source returns a [nan] unchanged. *)
Definition min_1 (confidence : Q) : Q :=
  if Qle_bool confidence 1%Q then confidence else 1%Q.

Definition _parse_ai_response (file_info : FileInfo) (response : string)
    : result (option AnalysisResult) :=
  try_except
    (let response := unfence response in
     data ← match json_loads (strip response) with
            | Some d => Ok d
            | None => Raise JSONDecodeError
            end;
     (* [data.get] exists on a dict only *)
     members ← match data with
               | JObj m => Ok m
               | _ => Raise AttributeError
               end;
     category_name ←
       match default (JStr "") (dict_get members "category") with
       | JStr s => Ok (lower s)
       | _ => Raise AttributeError
       end;
     confidence ←
       float (default (JNum (8 # 10)) (dict_get members "confidence"));
     let reasoning :=
       default (JStr "AI classification") (dict_get members "reasoning") in
     (* Validate category *)
     let validated :=
       match CATEGORIES_get category_name with
       | Some _ => Some category_name
       | None =>
           (* Try to find a close match *)
           fst <$> List.find
                     (fun kc : string * Category =>
                        str_in kc.1 category_name || str_in category_name kc.1)
                     CATEGORIES
       end in
     match validated with
     | None => Ok None
     | Some category_name =>
         category ← match CATEGORIES_get category_name with
                    | Some c => Ok c
                    | None => Raise (KeyError category_name)
                    end;
         Ok (Some {| file_info := file_info;
                     category := category;
                     confidence := min_1 confidence;
                     reasoning := reasoning;
                     method := "ai" |})
     end)
    (fun e => match e with
              | JSONDecodeError | KeyError _ | ValueError => true
              | _ => false
              end)
    (fun _ => Ok None).

Definition _analyze_with_ai (self : FileAnalyzer) (file_info : FileInfo)
    : result (FileAnalyzer * option AnalysisResult) :=
  let '(self, client) := _get_client self in
  if negb client then Ok (self, None)
  else
    let prompt := _build_prompt file_info in
    r ← try_except
          (match chat prompt with
           | Some text => _parse_ai_response file_info (strip text)
           | None => Raise OtherException
           end)
          (fun _ => true)          (* except Exception *)
          (fun _ => Ok None);
    Ok (self, r).

(** Truth value of [file_info.content]. *)
Definition has_content (file_info : FileInfo) : bool :=
  match scanner.content file_info with
  | Some c => negb (String.eqb c "")
  | None => false
  end.

Definition analyze_file (self : FileAnalyzer) (file_info : FileInfo)
    : result (FileAnalyzer * AnalysisResult) :=
  (* Try AI analysis if we have content *)
  '(self, ai) ←
    (if has_content file_info
     then
       let '(self, available) := ollama_available self in
       if default false available
       then _analyze_with_ai self file_info
       else Ok (self, None)
     else Ok (self, None));
  match ai with
  | Some result => Ok (self, result)
  | None =>
      (* Fall back to extension-based classification *)
      match get_category_by_extension (scanner.extension file_info) with
      | Some category =>
          Ok (self, {| file_info := file_info;
                       category := category;
                       confidence := 9 # 10;
                       reasoning :=
                         JStr ("Matched by file extension: " +:+
                               scanner.extension file_info);
                       method := "extension" |})
      | None =>
          (* Fall back to keyword-based classification *)
          match get_category_by_keywords (scanner.name file_info) with
          | Some category =>
              Ok (self, {| file_info := file_info;
                           category := category;
                           confidence := 7 # 10;
                           reasoning := JStr "Matched by filename keywords";
                           method := "keyword" |})
          | None =>
              (* Final fallback *)
              category ← get_fallback_category;
              Ok (self, {| file_info := file_info;
                           category := category;
                           confidence := 3 # 10;
                           reasoning :=
                             JStr "No matching category found, using fallback";
                           method := "fallback" |})
          end
      end
  end.

End backend.

End analyzer.

(* --------------------------------------------------------------------- *)
(** ** config.py                                                          *)
(* --------------------------------------------------------------------- *)

Module config.

(** The settings read by the functions modelled here. *)
Record Config := {
  ollama_model : string;
  ollama_host : string;
  max_content_chars : nat;
  output_dir_name : string;
  undo_log_file : string
}.

Definition DEFAULT_CONFIG : Config :=
  {| ollama_model := "llama3.2";
     ollama_host := "http://localhost:11434";
     max_content_chars := 4000;
     output_dir_name := "Organized";
     undo_log_file := "undo_log.json" |}.

End config.

(* --------------------------------------------------------------------- *)
(** ** mover.py                                                           *)
(* --------------------------------------------------------------------- *)

Module mover.
Import Py.
Import config (Config, DEFAULT_CONFIG).
Import analyzer (AnalysisResult).

(** *** The records and their JSON form *)

Record MoveOperation := {
  source : string;
  destination : string;
  category : string;
  reasoning : json;
  timestamp : string
}.

Record OrganizationSession := {
  session_id : string;
  session_timestamp : string;        (* the field [timestamp] *)
  source_directory : string;
  output_directory : string;
  operations : list MoveOperation;
  completed : bool
}.

(** [d[key]]. *)
Definition subscript (members : list (string * json)) (key : string)
    : result json :=
  match dict_get members key with
  | Some v => Ok v
  | None => Raise (KeyError key)
  end.

(** The records are typed here as their annotations say; a document that
    puts another kind of value where a string is expected is rejected with
    [TypeError] when it is decoded. *)
Definition as_str (v : json) : result string :=
  match v with
  | JStr s => Ok s
  | _ => Raise TypeError
  end.

(** Truth value of a JSON value. *)
Definition truthy (v : json) : bool :=
  match v with
  | JNull => false
  | JBool b => b
  | JNum q => negb (Qeq_bool q 0%Q)
  | JStr s => negb (String.eqb s "")
  | JArr l => match l with [] => false | _ => true end
  | JObj m => match m with [] => false | _ => true end
  end.

Fixpoint chars (s : string) : list string :=
  match s with
  | EmptyString => []
  | String c s' => String c "" :: chars s'
  end.

(** [for x in v]: lists yield their items, strings their characters,
    dicts their keys; the other values are not iterable. *)
Definition iter_json (v : json) : result (list json) :=
  match v with
  | JArr l => Ok l
  | JStr s => Ok (JStr <$> chars s)
  | JObj m => Ok ((fun kv : string * json => JStr kv.1) <$> m)
  | _ => Raise TypeError
  end.

Definition MoveOperation_fields : list string :=
  ["source"; "destination"; "category"; "reasoning"; "timestamp"].

Definition MoveOperation_to_dict (op : MoveOperation) : json :=
  JObj [("source", JStr (source op));
        ("destination", JStr (destination op));
        ("category", JStr (category op));
        ("reasoning", reasoning op);
        ("timestamp", JStr (timestamp op))].

(** The keyword-argument call of [cls] on [data]: [data] must be a mapping
    with exactly the five field names as keys. *)
Definition MoveOperation_from_dict (data : json) : result MoveOperation :=
  match data with
  | JObj m =>
      if forallb (fun kv : string * json =>
                    bool_decide (kv.1 ∈ MoveOperation_fields)) m
         && forallb (fun f => bool_decide (is_Some (dict_get m f)))
                    MoveOperation_fields
      then
        src ← subscript m "source" ≫= as_str;
        dst ← subscript m "destination" ≫= as_str;
        cat ← subscript m "category" ≫= as_str;
        why ← subscript m "reasoning";
        ts ← subscript m "timestamp" ≫= as_str;
        Ok {| source := src; destination := dst; category := cat;
              reasoning := why; timestamp := ts |}
      else Raise TypeError
  | _ => Raise TypeError
  end.

Definition OrganizationSession_to_dict (s : OrganizationSession) : json :=
  JObj [("session_id", JStr (session_id s));
        ("timestamp", JStr (session_timestamp s));
        ("source_directory", JStr (source_directory s));
        ("output_directory", JStr (output_directory s));
        ("operations", JArr (MoveOperation_to_dict <$> operations s));
        ("completed", JBool (completed s))].

Definition OrganizationSession_from_dict (data : json)
    : result OrganizationSession :=
  m ← match data with
      | JObj m => Ok m
      | _ => Raise AttributeError       (* no [get] on other values *)
      end;
  ops ← iter_json (default (JArr []) (dict_get m "operations"))
        ≫= mapM MoveOperation_from_dict;
  sid ← subscript m "session_id";
  ts ← subscript m "timestamp";
  src ← subscript m "source_directory";
  out ← subscript m "output_directory";
  sid ← as_str sid; ts ← as_str ts; src ← as_str src; out ← as_str out;
  Ok {| session_id := sid; session_timestamp := ts;
        source_directory := src; output_directory := out;
        operations := ops;
        completed := truthy (default (JBool false) (dict_get m "completed"))
     |}.

(** *** UndoLog *)

(** The sessions of a log are Python objects: each carries the reference
    under which the mover holds it, so that two sessions with equal
    fields, or with the same [session_id], stay distinct objects. *)
Record UndoLog := {
  log_path : Path;
  _sessions : list (nat * OrganizationSession);
  next_ref : nat
}.

(** What [_load] makes of the value read by [json.load]. *)
Definition decode_sessions (data : json)
    : result (list OrganizationSession) :=
  m ← match data with
      | JObj m => Ok m
      | _ => Raise AttributeError
      end;
  iter_json (default (JArr []) (dict_get m "sessions"))
    ≫= mapM OrganizationSession_from_dict.

(** The body of [_load] once the file is known to exist, as a function of
    what [open] and [json.load] give. *)
Definition decode_log (read : result json)
    : result (list OrganizationSession) :=
  try_except
    (read ≫= decode_sessions)
    (fun e => match e with
              | JSONDecodeError | KeyError _ => true
              | _ => false
              end)
    (fun _ => Ok []).

Definition _load (path : Path) (fs : FS)
    : result (list OrganizationSession) :=
  if exists_ fs path then decode_log (read_json fs path) else Ok [].

Definition UndoLog__init__ (path : Path) (fs : FS) : result UndoLog :=
  sessions ← _load path fs;
  Ok {| log_path := path;
        _sessions := zip (seq 0 (length sessions)) sessions;
        next_ref := length sessions |}.

(** *** FileMover *)

Record FileMover := {
  output_dir : Path;
  config : Config;
  dry_run : bool;
  undo_log : UndoLog;
  _current_session : option nat
}.

(** What a method of a mover acts on: the directory tree, the number of
    clock readings taken so far, and the mover itself. *)
Record state := {
  fs : FS;
  ticks : nat;
  self : FileMover
}.

Definition set_fs (f : FS) (s : state) : state :=
  {| fs := f; ticks := ticks s; self := self s |}.
Definition set_sessions (l : list (nat * OrganizationSession)) (s : state)
    : state :=
  {| fs := fs s; ticks := ticks s;
     self := {| output_dir := output_dir (self s);
                config := config (self s);
                dry_run := dry_run (self s);
                undo_log := {| log_path := log_path (undo_log (self s));
                               _sessions := l;
                               next_ref := next_ref (undo_log (self s)) |};
                _current_session := _current_session (self s) |} |}.
Definition set_next_ref (n : nat) (s : state) : state :=
  {| fs := fs s; ticks := ticks s;
     self := {| output_dir := output_dir (self s);
                config := config (self s);
                dry_run := dry_run (self s);
                undo_log := {| log_path := log_path (undo_log (self s));
                               _sessions := _sessions (undo_log (self s));
                               next_ref := n |};
                _current_session := _current_session (self s) |} |}.
Definition set_current_session (r : option nat) (s : state) : state :=
  {| fs := fs s; ticks := ticks s;
     self := {| output_dir := output_dir (self s);
                config := config (self s);
                dry_run := dry_run (self s);
                undo_log := undo_log (self s);
                _current_session := r |} |}.

(** A call on the tree, run on the state of a mover. *)
Definition on_fs {A} (m : M FS A) : M state A := fun s =>
  let '(r, f) := m (fs s) in (r, set_fs f s).

(** An [os] call that either changes the tree or raises. *)
Definition os_call (f : FS -> result FS) : M FS unit := fun t =>
  match f t with
  | Ok t' => (Ok tt, t')
  | Raise e => (Raise e, t)
  | OutOfFuel => (OutOfFuel, t)
  end.

(** A query on the tree. *)
Definition os_query {A} (f : FS -> result A) : M FS A := fun t => (f t, t).

Fixpoint for_each {S A} (l : list A) (body : A -> M S unit) : M S unit :=
  match l with
  | [] => mret tt
  | x :: rest => body x;; for_each rest body
  end.

Section clock.

(** [datetime.now()]: the [n]-th reading of the wall clock. *)
Variable clock : nat -> datetime.

Definition now : M state datetime := fun s =>
  (Ok (clock (ticks s)),
   {| fs := fs s; ticks := S (ticks s); self := self s |}).

Definition _save : M state unit :=
  s ← get;
  let log := undo_log (self s) in
  (* Ensure parent directory exists *)
  on_fs (os_call (fun t => mkdir_parents t (Path_parent (log_path log))));;
  let data :=
    JObj [("sessions",
           JArr ((fun rs : nat * OrganizationSession =>
                    OrganizationSession_to_dict rs.2) <$> _sessions log))] in
  on_fs (os_call (fun t => write_file t (log_path log) (Document data))).

(** Returns the reference of the new session object. *)
Definition create_session (source_dir output_dir : string) : M state nat :=
  t1 ← now;
  t2 ← now;
  let session :=
    {| session_id := strftime_id t1;
       session_timestamp := isoformat t2;
       source_directory := source_dir;
       output_directory := output_dir;
       operations := [];
       completed := false |} in
  s ← get;
  let r := next_ref (undo_log (self s)) in
  modify (set_next_ref (S r));;
  modify (fun s => set_sessions (_sessions (undo_log (self s)) ++ [(r, session)]) s);;
  _save;;
  mret r.

(** In-place update of the session object [r], wherever the log lists
    it. *)
Definition update_session (r : nat)
    (f : OrganizationSession -> OrganizationSession) : M state unit :=
  modify (fun s =>
    set_sessions
      ((fun rs : nat * OrganizationSession =>
          if bool_decide (rs.1 = r) then (rs.1, f rs.2) else rs)
       <$> _sessions (undo_log (self s))) s).

Definition add_operation (session : nat) (operation : MoveOperation)
    : M state unit :=
  update_session session (fun s =>
    {| session_id := session_id s;
       session_timestamp := session_timestamp s;
       source_directory := source_directory s;
       output_directory := output_directory s;
       operations := operations s ++ [operation];
       completed := completed s |});;
  _save.

Definition complete_session (session : nat) : M state unit :=
  update_session session (fun s =>
    {| session_id := session_id s;
       session_timestamp := session_timestamp s;
       source_directory := source_directory s;
       output_directory := output_directory s;
       operations := operations s;
       completed := true |});;
  _save.

(** The most recent completed session. *)
Definition get_last_session : M state (option (nat * OrganizationSession)) :=
  s ← get;
  mret (List.find (fun rs : nat * OrganizationSession => completed rs.2)
                  (reverse (_sessions (undo_log (self s))))).

Definition remove_session (session : OrganizationSession) : M state unit :=
  modify (fun s =>
    set_sessions
      (List.filter
         (fun rs : nat * OrganizationSession =>
            negb (String.eqb (session_id rs.2) (session_id session)))
         (_sessions (undo_log (self s)))) s);;
  _save.

Definition FileMover__init__ (output_dir : Path) (config : option Config)
    (dry_run : bool) (t : FS) : result FileMover :=
  let config := default DEFAULT_CONFIG config in
  log ← UndoLog__init__ (truediv output_dir (config.undo_log_file config)) t;
  Ok {| output_dir := output_dir;
        config := config;
        dry_run := dry_run;
        undo_log := log;
        _current_session := None |}.

Definition start_session (source_dir : Path) : M state unit :=
  s ← get;
  if negb (dry_run (self s)) then
    r ← create_session (str_of_path source_dir)
                       (str_of_path (output_dir (self s)));
    modify (set_current_session (Some r))
  else mret tt.

Definition end_session : M state unit :=
  s ← get;
  match _current_session (self s) with
  | Some r => if negb (dry_run (self s)) then complete_session r
              else mret tt
  | None => mret tt
  end.

(** The [while True] loop of [_get_unique_path], with a step budget. *)
Fixpoint unique_loop (fuel : nat) (t : FS) (stem suffix : string)
    (parent : Path) (counter : nat) : result Path :=
  match fuel with
  | O => OutOfFuel
  | S fuel' =>
      let new_name := stem +:+ "_" +:+ str_of_nat counter +:+ suffix in
      let new_path := new_name :: parent in
      if negb (exists_ t new_path) then Ok new_path
      else unique_loop fuel' t stem suffix parent (S counter)
  end.

(** The budget is one more than the number of entries of the tree,
    which the loop never exhausts. *)
Definition _get_unique_path (t : FS) (path : Path) : result Path :=
  if negb (exists_ t path) then Ok path
  else unique_loop (S (size t)) t (Path_stem path) (Path_suffix path)
                   (Path_parent path) 1.

Definition move_file (result : AnalysisResult)
    : M state (option MoveOperation) :=
  s ← get;
  let source := scanner.path (analyzer.file_info result) in
  let category_path := categories.path (analyzer.category result) in
  let dest_dir := truediv (output_dir (self s)) category_path in
  let dest_file := joinname dest_dir (Path_name source) in
  (* Handle filename collisions *)
  dest_file ← on_fs (os_query (fun t => _get_unique_path t dest_file));
  t ← now;
  let operation :=
    {| source := str_of_path source;
       destination := str_of_path dest_file;
       category := categories.name (analyzer.category result);
       reasoning := analyzer.reasoning result;
       timestamp := isoformat t |} in
  if negb (dry_run (self s)) then
    try_catch
      ((* Create destination directory *)
       on_fs (os_call (fun t => mkdir_parents t dest_dir));;
       (* Move the file *)
       on_fs (os_call (fun t => shutil_move t source dest_file));;
       (* Log the operation *)
       match _current_session (self s) with
       | Some r => add_operation r operation
       | None => mret tt
       end;;
       mret (Some operation))
      is_OSError
      (fun _ => mret None)
  else mret (Some operation).

(** Remove empty directories recursively; [fuel] bounds the depth. *)
Fixpoint _cleanup_empty_dirs (fuel : nat) (self_output_dir : Path)
    (directory : Path) : M FS unit :=
  match fuel with
  | O => fun t => (OutOfFuel, t)
  | S fuel' =>
      t ← get;
      if negb (exists_ t directory) then mret tt
      else
        kids ← os_query (fun t => iterdir t directory);
        for_each kids (fun child =>
          t ← get;
          if is_dir t child
          then _cleanup_empty_dirs fuel' self_output_dir child
          else mret tt);;
        (* Check if directory is empty now *)
        try_catch
          (t ← get;
           if exists_ t directory then
             kids ← os_query (fun t => iterdir t directory);
             match kids with
             | [] =>
                 (* Don't delete the root output directory *)
                 if bool_decide (directory ≠ self_output_dir)
                 then os_call (fun t => rmdir t directory)
                 else mret tt
             | _ => mret tt
             end
           else mret tt)
          is_OSError
          (fun _ => mret tt)
  end.

(** Text of an exception in an error message; only the number of
    messages is ever observed. *)
Definition exn_text (e : exn) : string :=
  match e with
  | FileNotFoundError => "FileNotFoundError"
  | FileExistsError => "FileExistsError"
  | NotADirectoryError => "NotADirectoryError"
  | IsADirectoryError => "IsADirectoryError"
  | PermissionError => "PermissionError"
  | ShutilError => "Error"
  | OSError => "OSError"
  | JSONDecodeError => "JSONDecodeError"
  | KeyError k => k
  | ValueError => "ValueError"
  | TypeError => "TypeError"
  | AttributeError => "AttributeError"
  | OtherException => "Exception"
  end.

(** One round of the loop of [undo_last_session]: the outcome is the
    move that was made, or the error that was recorded. *)
Definition undo_operation (operation : MoveOperation)
    : M state (string * string + string) :=
  let source := Path_of_str (source operation) in
  let dest := Path_of_str (destination operation) in
  s ← get;
  if exists_ (fs s) dest then
    try_catch
      ((* Ensure source parent directory exists *)
       on_fs (os_call (fun t => mkdir_parents t (Path_parent source)));;
       (* Move file back *)
       on_fs (os_call (fun t => shutil_move t dest source));;
       mret (inl (str_of_path dest, str_of_path source)))
      (fun _ => true)            (* except Exception *)
      (fun e => mret (inr ("Failed to restore " +:+ Path_name dest +:+
                           ": " +:+ exn_text e)))
  else mret (inr ("File not found: " +:+ str_of_path dest)).

(** The loop itself, with the two lists it appends to. *)
Fixpoint undo_operations (ops : list MoveOperation)
    (moves : list (string * string)) (errors : list string)
    : M state (list (string * string) * list string) :=
  match ops with
  | [] => mret (moves, errors)
  | operation :: rest =>
      r ← undo_operation operation;
      match r with
      | inl mv => undo_operations rest (moves ++ [mv]) errors
      | inr err => undo_operations rest moves (errors ++ [err])
      end
  end.

(** The depth budget of a cleanup: one more than the number of entries
    of the tree. *)
Definition cleanup_fuel (t : FS) : nat := S (size t).

Definition undo_last_session
    : M state (bool * string * list (string * string)) :=
  session ← get_last_session;
  match session with
  | None => mret (false, "No sessions to undo", [])
  | Some (_, session) =>
      '(moves, errors) ←
        undo_operations (reverse (operations session)) [] [];
      (* Clean up empty directories in output *)
      s ← get;
      on_fs (_cleanup_empty_dirs (cleanup_fuel (fs s))
               (output_dir (self s))
               (Path_of_str (output_directory session)));;
      (* Remove the session from the log *)
      remove_session session;;
      match errors with
      | _ :: _ =>
          mret (false,
                "Undo completed with " +:+ str_of_nat (length errors) +:+
                " errors", moves)
      | [] =>
          mret (true,
                "Successfully undid " +:+ str_of_nat (length moves) +:+
                " file moves", moves)
      end
  end.

(** [FileMover.organize_files], without the progress callback. *)
Fixpoint organize_files (results : list AnalysisResult)
    : M state (list (option MoveOperation)) :=
  match results with
  | [] => mret []
  | result :: rest =>
      operation ← move_file result;
      operations ← organize_files rest;
      mret (operation :: operations)
  end.

End clock.

End mover.

(* --------------------------------------------------------------------- *)
(** ** organizer.py: the two drivers of the mover                         *)
(* --------------------------------------------------------------------- *)

Module organizer.
Import Py.
Import config (Config, DEFAULT_CONFIG).
Import analyzer (AnalysisResult).
Import mover.

Section clock.

Variable clock : nat -> datetime.

(** The loop of [organize_files]: the operations performed and the
    number of files skipped. *)
Fixpoint move_all (results : list AnalysisResult)
    : M state (list MoveOperation * nat) :=
  match results with
  | [] => mret ([], 0)
  | result :: rest =>
      operation ← move_file clock result;
      '(operations, skipped) ← move_all rest;
      match operation with
      | Some op => mret (op :: operations, skipped)
      | None => mret (operations, S skipped)
      end
  end.

(** The session of one run, on a mover already constructed. *)
Definition run_session (results : list AnalysisResult)
    : M state (list MoveOperation * nat) :=
  let source_dir :=
    match results with
    | r :: _ => Path_parent (scanner.path (analyzer.file_info r))
    | [] => []                   (* [Path(".")] *)
    end in
  start_session clock source_dir;;
  r ← move_all results;
  end_session;;
  mret r.

(** A driver builds its own mover on the tree it finds and drops it at
    the end: what remains is the tree and the clock. *)
Definition with_mover {A} (output_dir : Path) (config : Config)
    (dry_run : bool) (body : M state A) : M (FS * nat) A := fun w =>
  match FileMover__init__ output_dir (Some config) dry_run w.1 with
  | Ok mover =>
      let '(r, s) := body {| fs := w.1; ticks := w.2; self := mover |} in
      (r, (fs s, ticks s))
  | Raise e => (Raise e, w)
  | OutOfFuel => (OutOfFuel, w)
  end.

Definition organize_files (results : list AnalysisResult)
    (output_dir : Path) (config : Config) (dry_run : bool)
    : M (FS * nat) (list MoveOperation * nat) :=
  with_mover output_dir config dry_run (run_session results).

(** [undo_organization] returns the success flag; the message and the
    moves it prints are kept here. *)
Definition undo_organization (output_dir : Path) (config : Config)
    : M (FS * nat) (bool * string * list (string * string)) :=
  with_mover output_dir config false undo_last_session.

End clock.

End organizer.

(* ===================================================================== *)
(** * Part II: properties                                                 *)
(* ===================================================================== *)

(** ** The classification engine *)

Module analyzer_props.
Import Py.
Import categories (Category, CATEGORIES, CATEGORIES_get, CATEGORIES_values,
                   get_category_by_extension, get_category_by_keywords,
                   get_fallback_category).
Import scanner (FileInfo).
Import analyzer.

(** Case analysis on the outcome of a bind. *)
Lemma bind_Ok {A B} (m : result A) (f : A -> result B) (b : B) :
  m ≫= f = Ok b -> exists a, m = Ok a /\ f a = Ok b.
Proof. destruct m as [a| |]; simpl; intros H; try discriminate. eauto. Qed.

Lemma bind_not_OutOfFuel {A B} (m : result A) (f : A -> result B) :
  m <> OutOfFuel -> (forall a, f a <> OutOfFuel) -> m ≫= f <> OutOfFuel.
Proof. destruct m; simpl; auto; congruence. Qed.

Lemma try_except_all {A} (body : result A) (h : exn -> result A) :
  body <> OutOfFuel -> (forall e, exists a, h e = Ok a) ->
  exists a, try_except body (fun _ => true) h = Ok a.
Proof.
  intros Hb Hh. destruct body as [a|e|]; simpl; eauto. congruence.
Qed.

Lemma CATEGORIES_get_In key c :
  CATEGORIES_get key = Some c -> In c CATEGORIES_values.
Proof.
  unfold CATEGORIES_get, CATEGORIES_values. intros H.
  destruct (List.find _ CATEGORIES) as [[k c']|] eqn:E; [|discriminate].
  injection H as <-. apply find_some in E as [E _].
  apply in_map_iff. exists (k, c'). auto.
Qed.

Section backend.

Variable probe : bool.
Variable chat : string -> option string.
Variable json_loads : string -> option json.
Variable float_of_str : string -> option Q.
Variable format_size_mb : N -> string.

Lemma float_not_OutOfFuel v : float float_of_str v <> OutOfFuel.
Proof.
  destruct v; simpl; try discriminate. destruct (float_of_str s); discriminate.
Qed.

(** What an accepted response turns into. *)
Lemma _parse_ai_response_Some file_info response r :
  _parse_ai_response json_loads float_of_str file_info response = Ok (Some r) ->
  exists q, file_info = analyzer.file_info r /\
            method r = "ai" /\
            confidence r = min_1 q /\
            In (category r) CATEGORIES_values.
Proof.
  unfold _parse_ai_response.
  destruct (json_loads _) as [data|]; simpl; [|discriminate].
  destruct data as [| | | | |m]; simpl; try discriminate.
  destruct (default _ (dict_get m "category")) as [| | |s| |]; simpl;
    try discriminate.
  destruct (float float_of_str _) as [q|e|] eqn:Eq; simpl;
    [| destruct e; discriminate | discriminate].
  match goal with
  | |- context [match ?v with Some _ => _ | None => Ok None end] =>
      destruct v as [key|]
  end; simpl; [|discriminate].
  destruct (CATEGORIES_get key) as [c|] eqn:Ec; simpl; [|discriminate].
  intros [= <-]. exists q.
  repeat split; try reflexivity. by eapply CATEGORIES_get_In.
Qed.

Lemma _parse_ai_response_not_OutOfFuel file_info response :
  _parse_ai_response json_loads float_of_str file_info response <> OutOfFuel.
Proof.
  unfold _parse_ai_response.
  destruct (json_loads _) as [data|]; simpl; [|discriminate].
  destruct data as [| | | | |m]; simpl; try discriminate.
  destruct (default _ (dict_get m "category")) as [| | |s| |]; simpl;
    try discriminate.
  destruct (float float_of_str _) as [q|e|] eqn:Eq; simpl;
    [| destruct e; discriminate | by apply float_not_OutOfFuel in Eq].
  match goal with
  | |- context [match ?v with Some _ => _ | None => Ok None end] =>
      destruct v as [key|]
  end; simpl; [|discriminate].
  destruct (CATEGORIES_get key) as [c|] eqn:Ec; simpl; discriminate.
Qed.

(** The catch-all of [_analyze_with_ai] leaves no exception. *)
Lemma _analyze_with_ai_Ok self file_info :
  exists self' r,
    _analyze_with_ai probe chat json_loads float_of_str format_size_mb
      self file_info = Ok (self', r) /\
    forall x, r = Some x ->
      analyzer.file_info x = file_info /\ method x = "ai".
Proof.
  unfold _analyze_with_ai.
  destruct (_get_client probe self) as [self' client].
  assert (forall s : FileAnalyzer, exists self'0 r,
            Ok (s, @None AnalysisResult) = Ok (self'0, r) /\
            forall x, r = Some x ->
              analyzer.file_info x = file_info /\ method x = "ai") as Hnone
    by (intros s; exists s, None; split; [done|discriminate]).
  destruct client; simpl; [|by apply Hnone].
  destruct (chat _) as [text|]; simpl; [|by apply Hnone].
  destruct (_parse_ai_response _ _ _ _) as [[x|]|e|] eqn:E; simpl;
    [| by apply Hnone | by apply Hnone
     | by apply _parse_ai_response_not_OutOfFuel in E].
  apply _parse_ai_response_Some in E as (q & -> & ? & _).
  eexists _, _. split; [done|]. by intros ? [= <-].
Qed.

Lemma get_fallback_category_Ok : exists c, get_fallback_category = Ok c.
Proof. vm_compute. eauto. Qed.

Lemma min_1_le_1 q : (min_1 q <= 1)%Q.
Proof.
  unfold min_1. destruct (Qle_bool q 1) eqn:E.
  - by apply Qle_bool_iff.
  - apply Qle_refl.
Qed.

(** The upper half of the clamp is there, for a confidence that is a
    finite number. *)
Lemma _parse_ai_response_confidence_le_1 file_info response r :
  _parse_ai_response json_loads float_of_str file_info response = Ok (Some r) ->
  (confidence r <= 1)%Q.
Proof.
  intros H. apply _parse_ai_response_Some in H as (q & _ & _ & -> & _).
  apply min_1_le_1.
Qed.

(** The extension tier finds a category exactly when one is registered
    for the lower-cased extension, and the one it finds carries it. *)
Lemma get_category_by_extension_registered extension :
  (exists c, In c CATEGORIES_values /\ lower extension ∈ categories.extensions c) ->
  exists c, get_category_by_extension extension = Some c /\
            In c CATEGORIES_values /\
            lower extension ∈ categories.extensions c.
Proof.
  intros (c & Hin & Hext). unfold get_category_by_extension.
  destruct (List.find _ CATEGORIES_values) as [c'|] eqn:E.
  - apply find_some in E as [? ?%bool_decide_eq_true]. eauto.
  - eapply find_none in E; [|exact Hin]. by apply bool_decide_eq_false in E.
Qed.

(** The model tier gave no answer for this file: it was not tried (no
    content, or backend not available), or its answer was discarded. *)
Definition model_tier_silent (self : FileAnalyzer) (file_info : FileInfo)
    : Prop :=
  has_content file_info = false \/
  default false (ollama_available probe self).2 = false \/
  exists self',
    _analyze_with_ai probe chat json_loads float_of_str format_size_mb
      (ollama_available probe self).1 file_info = Ok (self', None).

(** [C7] classify is total: [analyze_file] returns, for every analyzer
    state, backend behaviour and file record, exactly one result for that
    record and raises nothing; the method tag of the result is one of
    ai (the tag of the model tier), extension, keyword, fallback. *)
Theorem analyze_file_total self file_info :
  exists self' r,
    analyze_file probe chat json_loads float_of_str format_size_mb
      self file_info = Ok (self', r) /\
    analyzer.file_info r = file_info /\
    In (method r) ["ai"; "extension"; "keyword"; "fallback"].
Proof.
  unfold analyze_file.
  assert (forall self0 : FileAnalyzer, exists self' r,
    match get_category_by_extension (scanner.extension file_info) with
    | Some category =>
        Ok (self0, {| analyzer.file_info := file_info;
                      category := category; confidence := 9 # 10;
                      reasoning := JStr ("Matched by file extension: " +:+
                                         scanner.extension file_info);
                      method := "extension" |})
    | None =>
        match get_category_by_keywords (scanner.name file_info) with
        | Some category =>
            Ok (self0, {| analyzer.file_info := file_info;
                          category := category; confidence := 7 # 10;
                          reasoning := JStr "Matched by filename keywords";
                          method := "keyword" |})
        | None =>
            category ← get_fallback_category;
            Ok (self0, {| analyzer.file_info := file_info;
                          category := category; confidence := 3 # 10;
                          reasoning :=
                            JStr "No matching category found, using fallback";
                          method := "fallback" |})
        end
    end = Ok (self', r) /\
    analyzer.file_info r = file_info /\
    In (method r) ["ai"; "extension"; "keyword"; "fallback"]) as Hrules.
  { intros self0.
    destruct (get_category_by_extension _) as [c|].
    { eexists _, _. split; [done|]. simpl. auto. }
    destruct (get_category_by_keywords _) as [c|].
    { eexists _, _. split; [done|]. simpl. auto. }
    destruct get_fallback_category_Ok as [c ->]. simpl.
    eexists _, _. split; [done|]. simpl. auto 6. }
  destruct (has_content file_info); [|apply Hrules].
  destruct (ollama_available probe self) as [self1 available].
  destruct (default false available); [|apply Hrules].
  destruct (_analyze_with_ai_Ok self1 file_info) as (self2 & r & -> & Hr).
  simpl. destruct r as [x|]; [|apply Hrules].
  destruct (Hr x eq_refl) as [? Hm]. eexists _, _. split; [done|].
  rewrite Hm. simpl. auto.
Qed.

(** [C6], amended.  For every file record whose lower-cased extension
    belongs to the extension set of some registry category and for which
    the model tier gives no answer, [analyze_file] returns a result with
    method extension, confidence 0.9, and a category whose extension set
    contains the lower-cased extension. *)
Theorem analyze_file_extension_tier self file_info :
  (exists c, In c CATEGORIES_values /\
             lower (scanner.extension file_info) ∈ categories.extensions c) ->
  model_tier_silent self file_info ->
  exists self' r,
    analyze_file probe chat json_loads float_of_str format_size_mb
      self file_info = Ok (self', r) /\
    method r = "extension" /\
    confidence r = (9 # 10)%Q /\
    In (category r) CATEGORIES_values /\
    lower (scanner.extension file_info) ∈ categories.extensions (category r).
Proof.
  intros (c & Hc & Hin & Hext)%get_category_by_extension_registered Hsilent.
  unfold analyze_file.
  assert (forall self0 : FileAnalyzer, exists self' r,
    (ai ← Ok (self0, @None AnalysisResult);
     let '(self, ai) := ai in
     match ai with
     | Some result => Ok (self, result)
     | None =>
         match get_category_by_extension (scanner.extension file_info) with
         | Some category =>
             Ok (self, {| analyzer.file_info := file_info;
                          category := category; confidence := 9 # 10;
                          reasoning := JStr ("Matched by file extension: " +:+
                                             scanner.extension file_info);
                          method := "extension" |})
         | None =>
             match get_category_by_keywords (scanner.name file_info) with
             | Some category =>
                 Ok (self, {| analyzer.file_info := file_info;
                              category := category; confidence := 7 # 10;
                              reasoning := JStr "Matched by filename keywords";
                              method := "keyword" |})
             | None =>
                 category ← get_fallback_category;
                 Ok (self, {| analyzer.file_info := file_info;
                              category := category; confidence := 3 # 10;
                              reasoning :=
                                JStr "No matching category found, using fallback";
                              method := "fallback" |})
             end
         end
     end) = Ok (self', r) /\
    method r = "extension" /\ confidence r = (9 # 10)%Q /\
    In (category r) CATEGORIES_values /\
    lower (scanner.extension file_info) ∈ categories.extensions (category r))
    as Hrules.
  { intros self0. simpl. rewrite Hc. eexists _, _. split; [done|]. by simpl. }
  destruct Hsilent as [-> | [Hoff | [self' Hnone]]]; [apply Hrules | |].
  - destruct (has_content file_info); [|apply Hrules].
    destruct (ollama_available probe self) as [self1 available].
    simpl in Hoff. rewrite Hoff. apply Hrules.
  - destruct (has_content file_info); [|apply Hrules].
    destruct (ollama_available probe self) as [self1 available].
    simpl in Hnone.
    destruct (default false available); [|apply Hrules].
    rewrite Hnone. apply Hrules.
Qed.

(** [C4] The model tier passes a negative confidence through: on a
    response that [json.loads] reads as the object with category "work"
    and confidence -0.5, [_parse_ai_response] accepts the response and
    the confidence of its result is -0.5, outside [0.0, 1.0]. *)
Theorem parse_ai_response_negative_confidence file_info response :
  json_loads (strip (unfence response)) =
    Some (JObj [("category", JStr "work");
                ("confidence", JNum (-5 # 10));
                ("reasoning", JStr "x")]) ->
  exists r,
    _parse_ai_response json_loads float_of_str file_info response = Ok (Some r) /\
    confidence r = (-5 # 10)%Q /\
    ~ (0 <= confidence r)%Q.
Proof.
  intros H. unfold _parse_ai_response. rewrite H.
  eexists. split; [vm_compute; reflexivity|]. split; [reflexivity|].
  simpl. intros Hle. vm_compute in Hle. by apply Hle.
Qed.

End backend.

(** A file with content and a registered extension, and a backend that is
    up and answers with a valid category. *)
Definition script_py : FileInfo :=
  {| scanner.path := abs_path ["src"; "script.py"];
     scanner.name := "script.py";
     scanner.extension := ".py";
     scanner.size_bytes := 9;
     scanner.content := Some "print(1)";
     scanner.mime_type := None |}.

Definition answer_work (_ : string) : option json :=
  Some (JObj [("category", JStr "work"); ("confidence", JNum (95 # 100))]).

(** [C6], as stated, fails: the extension [.py] of [script_py] is
    registered, yet with the backend available and answering, the result
    comes from the model tier and its method is ai, not extension. *)
Lemma analyze_file_extension_ignored_after_model :
  (exists c, In c CATEGORIES_values /\
             lower (scanner.extension script_py) ∈ categories.extensions c) /\
  exists self' r,
    analyze_file true (fun _ => Some "{}") answer_work (fun _ => None)
      (fun _ => "0.00") __init__ script_py = Ok (self', r) /\
    method r = "ai" /\ method r <> "extension" /\
    categories.name (category r) = "Work Documents".
Proof.
  split.
  - eexists. split.
    + unfold CATEGORIES_values, CATEGORIES. simpl. do 6 right. left.
      reflexivity.
    + vm_compute. reflexivity.
  - eexists _, _. split; [vm_compute; reflexivity|]. simpl. done.
Qed.

(** The amended [C6] applies to the same file once the backend is down. *)
Lemma analyze_file_extension_tier_witness :
  exists self' r,
    analyze_file false (fun _ => None) (fun _ => None) (fun _ => None)
      (fun _ => "0.00") __init__ script_py = Ok (self', r) /\
    method r = "extension" /\
    confidence r = (9 # 10)%Q /\
    In (category r) CATEGORIES_values /\
    lower (scanner.extension script_py) ∈ categories.extensions (category r).
Proof.
  apply (analyze_file_extension_tier false (fun _ => None) (fun _ => None)
           (fun _ => None) (fun _ => "0.00") __init__ script_py).
  - eexists. split.
    + unfold CATEGORIES_values, CATEGORIES. simpl. do 6 right. left.
      reflexivity.
    + vm_compute. reflexivity.
  - right. left. vm_compute. reflexivity.
Defined.

Lemma parse_ai_response_negative_confidence_witness :
  exists r,
    _parse_ai_response
      (fun _ => Some (JObj [("category", JStr "work");
                            ("confidence", JNum (-5 # 10));
                            ("reasoning", JStr "x")]))
      (fun _ => None) script_py "{}" = Ok (Some r) /\
    confidence r = (-5 # 10)%Q /\
    ~ (0 <= confidence r)%Q.
Proof.
  apply (parse_ai_response_negative_confidence
           (fun _ => Some (JObj [("category", JStr "work");
                                 ("confidence", JNum (-5 # 10));
                                 ("reasoning", JStr "x")]))
           (fun _ => None) script_py "{}").
  reflexivity.
Defined.

End analyzer_props.

(** ** The session log *)

Module log_props.
Import Py.
Import config (Config, DEFAULT_CONFIG).
Import mover.







End log_props.

(** ** Running stateful computations *)

Module run_props.
Import Py.

Lemma run_bind {S A B} (m : M S A) (f : A -> M S B) (s : S) :
  (m ≫= f) s =
  match m s with
  | (Ok a, s') => f a s'
  | (Raise e, s') => (Raise e, s')
  | (OutOfFuel, s') => (OutOfFuel, s')
  end.
Proof. reflexivity. Qed.

Lemma run_bind_Ok {S A B} (m : M S A) (f : A -> M S B) (s s' : S) (a : A) :
  m s = (Ok a, s') -> (m ≫= f) s = f a s'.
Proof. intros H. by rewrite run_bind, H. Qed.

Lemma run_ret {S A} (a : A) (s : S) : (mret a : M S A) s = (Ok a, s).
Proof. reflexivity. Qed.

(** A run is known once its outcome is. *)
Lemma run_fst {A B} (p : A * B) (a : A) : p.1 = a -> p = (a, p.2).
Proof. intros <-. by destruct p. Qed.

Lemma run_get {S} (s : S) : (get : M S S) s = (Ok s, s).
Proof. reflexivity. Qed.

Lemma run_modify {S} (f : S -> S) (s : S) : modify f s = (Ok tt, f s).
Proof. reflexivity. Qed.

(** One step of a run: expose the first call of a sequence, and pass
    over reads of the state. *)
Ltac run_step :=
  rewrite run_bind;
  try rewrite run_get; try rewrite run_ret; try rewrite run_modify;
  cbv beta iota zeta.

End run_props.

(** ** The undo ledger: sessions in memory *)

Module ledger_props.
Import Py run_props.
Import config (Config, DEFAULT_CONFIG).
Import mover.

(** The sessions a mover holds. *)
Definition sessions_of (s : state) : list (nat * OrganizationSession) :=
  _sessions (undo_log (self s)).

Lemma set_fs_same (s : state) : set_fs (fs s) s = s.
Proof. by destruct s. Qed.

(** The document [_save] writes for a list of sessions. *)
Definition log_document (l : list (nat * OrganizationSession)) : json :=
  JObj [("sessions",
         JArr ((fun rs : nat * OrganizationSession =>
                  OrganizationSession_to_dict rs.2) <$> l))].

(** Computations that leave the mover and the clock as they are. *)
Definition keeps_self {A} (m : M state A) : Prop :=
  forall s, self (m s).2 = self s /\ ticks (m s).2 = ticks s.

Lemma keeps_self_ret {A} (a : A) : keeps_self (mret a).
Proof. by intros s. Qed.

Lemma keeps_self_bind {A B} (m : M state A) (f : A -> M state B) :
  keeps_self m -> (forall a, keeps_self (f a)) -> keeps_self (m ≫= f).
Proof.
  intros Hm Hf s. rewrite run_bind. specialize (Hm s).
  destruct (m s) as [[a|e|] s1]; simpl in *; try done.
  destruct (Hf a s1) as [-> ->]. done.
Qed.

Lemma keeps_self_on_fs {A} (m : M FS A) : keeps_self (on_fs m).
Proof. intros s. unfold on_fs. by destruct (m (fs s)). Qed.

Lemma keeps_self_try_catch {A} (m : M state A) c (h : exn -> M state A) :
  keeps_self m -> (forall e, keeps_self (h e)) -> keeps_self (try_catch m c h).
Proof.
  intros Hm Hh s. unfold try_catch. specialize (Hm s).
  destruct (m s) as [[a|e|] s1]; simpl in *; try done.
  destruct (c e); [|done]. destruct (Hh e s1) as [-> ->]. done.
Qed.

Lemma keeps_self_get : keeps_self (get : M state state).
Proof. by intros s. Qed.

Lemma keeps_self_save : keeps_self _save.
Proof.
  unfold _save. apply keeps_self_bind; [apply keeps_self_get|]. intros s.
  apply keeps_self_bind; [apply keeps_self_on_fs|]. intros _.
  apply keeps_self_on_fs.
Qed.

Lemma keeps_self_undo_operation op : keeps_self (undo_operation op).
Proof.
  unfold undo_operation. apply keeps_self_bind; [apply keeps_self_get|].
  intros s. destruct (exists_ _ _); [|apply keeps_self_ret].
  apply keeps_self_try_catch; [|intros; apply keeps_self_ret].
  apply keeps_self_bind; [apply keeps_self_on_fs|]. intros _.
  apply keeps_self_bind; [apply keeps_self_on_fs|]. intros _.
  apply keeps_self_ret.
Qed.

Lemma keeps_self_undo_operations ops moves errors :
  keeps_self (undo_operations ops moves errors).
Proof.
  revert moves errors. induction ops as [|op ops IH]; intros moves errors.
  - apply keeps_self_ret.
  - simpl. apply keeps_self_bind; [apply keeps_self_undo_operation|].
    intros [mv|err]; apply IH.
Qed.

(** The session [get_last_session] selects; the call itself only reads. *)
Definition last_completed (s : state) : option (nat * OrganizationSession) :=
  List.find (fun rs : nat * OrganizationSession => completed rs.2)
            (reverse (sessions_of s)).

Lemma get_last_session_run s :
  get_last_session s = (Ok (last_completed s), s).
Proof. reflexivity. Qed.

(** [remove_session] filters the in-memory list before it saves. *)
Lemma remove_session_sessions session s :
  sessions_of (remove_session session s).2 =
  List.filter (fun rs : nat * OrganizationSession =>
                 negb (String.eqb (session_id rs.2) (session_id session)))
              (sessions_of s).
Proof.
  unfold remove_session. rewrite run_bind, run_modify.
  match goal with |- context [_save ?x] => set (s1 := x) end.
  destruct (keeps_self_save s1) as [Hs _].
  unfold sessions_of. destruct (_save s1) as [[[]|e|] s2]; simpl in *;
    by rewrite Hs.
Qed.

Lemma no_completed_find (l : list (nat * OrganizationSession)) :
  Forall (fun rs => completed rs.2 = false) l ->
  List.find (fun rs : nat * OrganizationSession => completed rs.2) (reverse l)
    = None.
Proof.
  intros Hall. destruct (List.find _ _) as [rs|] eqn:E; [|done].
  apply find_some in E as [Hin Hc].
  apply list_elem_of_In in Hin. rewrite elem_of_reverse in Hin.
  rewrite Forall_forall in Hall. apply Hall in Hin. congruence.
Qed.

(** [C9] With no completed session in the log, undo returns the flag
    false, an explanatory message and no restored file, and leaves the
    tree, the clock and the mover as they were.  This is the case of every
    mover built on a tree where the log document is absent or holds an
    empty session list. *)
Theorem undo_without_completed_session :
  (forall s : state,
     Forall (fun rs => completed rs.2 = false) (sessions_of s) ->
     undo_last_session s = (Ok (false, "No sessions to undo", []), s)) /\
  (forall (output_dir : Path) (cfg : Config) (w : FS * nat),
     let log := truediv output_dir (config.undo_log_file cfg) in
     w.1 !! log = None \/
     w.1 !! log = Some (File (Document (JObj [("sessions", JArr [])]))) ->
     organizer.undo_organization output_dir cfg w =
       (Ok (false, "No sessions to undo", []), w)).
Proof.
  assert (forall s : state,
     Forall (fun rs => completed rs.2 = false) (sessions_of s) ->
     undo_last_session s = (Ok (false, "No sessions to undo", []), s)) as Hmain.
  { intros s Hall. unfold undo_last_session.
    rewrite run_bind, get_last_session_run. unfold last_completed.
    rewrite no_completed_find by done. reflexivity. }
  split; [exact Hmain|].
  intros output_dir cfg [t n] log Hlog.
  unfold organizer.undo_organization, organizer.with_mover.
  unfold FileMover__init__, UndoLog__init__, _load, exists_, decode_log, read_json.
  simpl default. simpl fst. simpl snd. fold log.
  simpl in Hlog.
  destruct Hlog as [-> | ->]; cbn -[undo_last_session]; by rewrite Hmain.
Qed.

(** A tree with nothing but the root, and a mover built on it. *)
Definition empty_tree : FS := <[[] := Dir]> ∅.

Lemma undo_without_completed_session_witness :
  organizer.undo_organization (abs_path ["out"]) DEFAULT_CONFIG (empty_tree, 0)
    = (Ok (false, "No sessions to undo", []), (empty_tree, 0)).
Proof.
  apply (proj2 undo_without_completed_session (abs_path ["out"])
           DEFAULT_CONFIG (empty_tree, 0)).
  left. vm_compute. reflexivity.
Defined.

Section clock.

Variable clock : nat -> datetime.

(** [create_session] appends the new object before it saves; its id is the
    first clock reading printed to the second. *)
Lemma create_session_sessions source_dir output_dir s :
  sessions_of (create_session clock source_dir output_dir s).2 =
  sessions_of s ++
  [(next_ref (undo_log (self s)),
    {| session_id := strftime_id (clock (ticks s));
       session_timestamp := isoformat (clock (S (ticks s)));
       source_directory := source_dir;
       output_directory := output_dir;
       operations := [];
       completed := false |})].
Proof.
  unfold create_session, now.
  repeat (rewrite run_bind; cbn -[_save]).
  match goal with |- context [_save ?x] => set (s1 := x) end.
  destruct (keeps_self_save s1) as [Hs _].
  unfold sessions_of. destruct (_save s1) as [[[]|e|] s2]; simpl in *;
    by rewrite Hs.
Qed.

(** Two readings of the clock within one second print the same id. *)
Lemma strftime_id_same_second t1 t2 :
  year t1 = year t2 -> month t1 = month t2 -> day t1 = day t2 ->
  hour t1 = hour t2 -> minute t1 = minute t2 -> second t1 = second t2 ->
  strftime_id t1 = strftime_id t2.
Proof. unfold strftime_id. by intros -> -> -> -> -> ->. Qed.

(** The sessions left in memory by an undo that returns. *)
Lemma undo_last_session_sessions s ref session res s' :
  last_completed s = Some (ref, session) ->
  undo_last_session s = (Ok res, s') ->
  sessions_of s' =
  List.filter (fun rs : nat * OrganizationSession =>
                 negb (String.eqb (session_id rs.2) (session_id session)))
              (sessions_of s).
Proof.
  intros Hlast. unfold undo_last_session.
  rewrite run_bind, get_last_session_run, Hlast, run_bind.
  destruct (keeps_self_undo_operations (reverse (operations session)) [] [] s)
    as [Hs1 _].
  destruct (undo_operations _ _ _ s) as [[[moves errors]|e|] s1];
    [|discriminate..].
  rewrite run_bind, run_get, run_bind.
  match goal with |- context [on_fs ?m s1] =>
    destruct (keeps_self_on_fs m s1) as [Hs2 _];
    destruct (on_fs m s1) as [[[]|e|] s2]; [|discriminate..]
  end.
  rewrite run_bind.
  pose proof (remove_session_sessions session s2) as Hrm.
  destruct (remove_session session s2) as [[[]|e|] s3]; [|discriminate..].
  simpl in *. unfold sessions_of in *. rewrite Hs2, Hs1 in Hrm.
  destruct errors; intros [= _ <-]; exact Hrm.
Qed.

(** [C10] [remove_session] drops from the log every session whose
    [session_id] equals that of the session it is given, whichever object
    it is; [create_session] takes the id from the clock printed to the
    second, so sessions created within one second share it; and an undo
    that returns leaves none of the sessions with the id of the session it
    undid. *)
Theorem remove_session_drops_every_session_with_the_id :
  (forall session s,
     sessions_of (remove_session session s).2 =
     List.filter (fun rs : nat * OrganizationSession =>
                    negb (String.eqb (session_id rs.2) (session_id session)))
                 (sessions_of s)) /\
  (forall source_dir output_dir s,
     exists created,
       sessions_of (create_session clock source_dir output_dir s).2 =
         sessions_of s ++ [(next_ref (undo_log (self s)), created)] /\
       session_id created = strftime_id (clock (ticks s))) /\
  (forall t1 t2,
     year t1 = year t2 -> month t1 = month t2 -> day t1 = day t2 ->
     hour t1 = hour t2 -> minute t1 = minute t2 -> second t1 = second t2 ->
     strftime_id t1 = strftime_id t2) /\
  (forall s ref session res s',
     last_completed s = Some (ref, session) ->
     undo_last_session s = (Ok res, s') ->
     forall rs, rs ∈ sessions_of s' ->
       rs ∈ sessions_of s /\ session_id rs.2 <> session_id session).
Proof.
  split; [apply remove_session_sessions|].
  split; [|split; [apply strftime_id_same_second|]].
  - intros source_dir output_dir s. eexists. split.
    + apply create_session_sessions.
    + reflexivity.
  - intros s ref session res s' Hlast Hundo rs Hrs.
    rewrite (undo_last_session_sessions _ _ _ _ _ Hlast Hundo) in Hrs.
    apply list_elem_of_In, filter_In in Hrs as [Hin Hid].
    split; [by apply list_elem_of_In|].
    apply negb_true_iff, String.eqb_neq in Hid. done.
Qed.

End clock.

(** Two sessions created and completed within one second on an empty
    output directory, by a clock that only advances its microseconds. *)
Definition clock_within_a_second (n : nat) : datetime :=
  {| year := 2024; month := 3; day := 9;
     hour := 1; minute := 2; second := 3; microsecond := n |}.

Definition fresh_mover_state : state :=
  {| fs := <[abs_path ["out"] := Dir]> empty_tree;
     ticks := 0;
     self := {| output_dir := abs_path ["out"];
                config := DEFAULT_CONFIG;
                dry_run := false;
                undo_log := {| log_path := abs_path ["out"; "undo_log.json"];
                               _sessions := [];
                               next_ref := 0 |};
                _current_session := None |} |}.

Definition two_sessions_state : state :=
  ((r1 ← create_session clock_within_a_second "/src" "/out";
    complete_session r1;;
    r2 ← create_session clock_within_a_second "/src" "/out";
    complete_session r2) fresh_mover_state).2.

Lemma remove_session_drops_every_session_with_the_id_witness :
  (session_id <$> (snd <$> sessions_of two_sessions_state)) =
    ["20240309_010203"; "20240309_010203"] /\
  (fst <$> sessions_of two_sessions_state) = [0; 1] /\
  forall rs, rs ∈ sessions_of (undo_last_session two_sessions_state).2 ->
    rs ∈ sessions_of two_sessions_state /\
    session_id rs.2 <> "20240309_010203".
Proof.
  split; [vm_compute; reflexivity|]. split; [vm_compute; reflexivity|].
  refine (proj2 (proj2 (proj2
            (remove_session_drops_every_session_with_the_id
               clock_within_a_second)))
          two_sessions_state 1
          {| session_id := "20240309_010203";
             session_timestamp := "2024-03-09T01:02:03.000003";
             source_directory := "/src"; output_directory := "/out";
             operations := []; completed := true |}
          (true, "Successfully undid 0 file moves", [])
          (undo_last_session two_sessions_state).2 _ _).
  - vm_compute. reflexivity.
  - apply run_fst. vm_compute. reflexivity.
Defined.

End ledger_props.

(** ** Strings and path names *)

Module str_props.
Import Py.

Lemma str_app_cons (c : ascii) (a b : string) :
  String c a +:+ b = String c (a +:+ b).
Proof. reflexivity. Qed.

Lemma str_app_nil_l (b : string) : "" +:+ b = b.
Proof. reflexivity. Qed.

Lemma str_length_app (a b : string) :
  String.length (a +:+ b) = String.length a + String.length b.
Proof.
  induction a as [|c a IH]; [done|]. rewrite str_app_cons. simpl. by rewrite IH.
Qed.

Lemma str_app_nil_r (a : string) : a +:+ "" = a.
Proof. induction a as [|c a IH]; [done|]. by rewrite str_app_cons, IH. Qed.

Lemma str_app_assoc (a b c : string) : (a +:+ b) +:+ c = a +:+ (b +:+ c).
Proof. induction a as [|x a IH]; [done|]. by rewrite !str_app_cons, IH. Qed.

(** A string is not a proper tail of itself. *)
Lemma str_app_not_longer (a t : string) : a +:+ t = t -> a = "".
Proof.
  intros H. apply (f_equal String.length) in H. rewrite str_length_app in H.
  destruct a; [done|]. simpl in H. lia.
Qed.

Lemma str_app_inj_tail (a b t : string) : a +:+ t = b +:+ t -> a = b.
Proof.
  revert b. induction a as [|c a IH]; intros [|d b] H.
  - done.
  - symmetry in H. by apply (str_app_not_longer (String d b)) in H.
  - by apply (str_app_not_longer (String c a)) in H.
  - rewrite !str_app_cons in H. injection H as -> H. f_equal. by apply IH.
Qed.

Lemma substring_all (s : string) : String.substring 0 (String.length s) s = s.
Proof. induction s as [|d s IH]; simpl; [done|]. by rewrite IH. Qed.

Lemma substring_split (s : string) (i : nat) :
  i <= String.length s ->
  String.substring 0 i s +:+ String.substring i (String.length s - i) s = s.
Proof.
  revert i. induction s as [|c s IH]; intros [|i] Hi; simpl in *; try lia.
  - done.
  - rewrite str_app_nil_l. f_equal. apply substring_all.
  - rewrite str_app_cons. f_equal. apply IH. lia.
Qed.

(** The stem and the suffix of a path make up its name. *)
Lemma stem_suffix (p : Path) : Path_stem p +:+ Path_suffix p = Path_name p.
Proof.
  unfold Path_stem, Path_suffix, dot_index.
  destruct (rfind_dot (Path_name p) 0) as [i|]; [|apply str_app_nil_r].
  destruct (0 <? i) eqn:E1; [|apply str_app_nil_r].
  destruct (i <? String.length (Path_name p) - 1) eqn:E2; [|apply str_app_nil_r].
  simpl. apply substring_split. apply Nat.ltb_lt in E2. lia.
Qed.

(** *** Path strings *)

Definition no_slash (s : string) : Prop := str_in "/" s = false.

Lemma prefix_slash_cons c s :
  String.prefix "/" (String c s) = Ascii.eqb c "/".
Proof.
  change (String.prefix "/" (String c s))
    with (if ascii_dec "/" c then String.prefix "" s else false).
  destruct (ascii_dec "/" c) as [<-|Hne].
  - by destruct s.
  - symmetry. apply Ascii.eqb_neq. congruence.
Qed.

Lemma no_slash_cons c s :
  no_slash (String c s) <-> c <> "/"%char /\ no_slash s.
Proof.
  unfold no_slash. cbn [str_in]. rewrite prefix_slash_cons.
  rewrite orb_false_iff, Ascii.eqb_neq. done.
Qed.

Lemma no_slash_app a b : no_slash (a +:+ b) <-> no_slash a /\ no_slash b.
Proof.
  induction a as [|c a IH].
  - rewrite str_app_nil_l. unfold no_slash at 2. simpl. tauto.
  - rewrite str_app_cons, !no_slash_cons, IH. tauto.
Qed.

Lemma valid_name_spec n :
  valid_name n = true <-> n <> "" /\ n <> "." /\ no_slash n.
Proof.
  unfold valid_name, no_slash.
  rewrite !andb_true_iff, !negb_true_iff, !String.eqb_neq. tauto.
Qed.

Lemma rev_app_rev_app (a b c : string) :
  String.rev_app (String.rev_app a b) c = String.rev_app b (a +:+ c).
Proof.
  revert b. induction a as [|x a IH]; intros b; [done|].
  simpl. by rewrite IH.
Qed.

Lemma rev_rev_app (a : string) : String.rev (String.rev_app a "") = a.
Proof. unfold String.rev. by rewrite rev_app_rev_app, str_app_nil_r. Qed.

(** Splitting at [/]: a component without a slash is read as it is. *)
Lemma split_go_last comp cur :
  no_slash comp ->
  split_go "/" 0 cur comp = [String.rev (String.rev_app comp cur)].
Proof.
  revert cur. induction comp as [|c comp IH]; intros cur Hns; [done|].
  apply no_slash_cons in Hns as [Hc Hns].
  cbn [split_go]. rewrite prefix_slash_cons.
  apply Ascii.eqb_neq in Hc. rewrite Hc. by rewrite IH.
Qed.

Lemma split_go_component comp cur rest :
  no_slash comp ->
  split_go "/" 0 cur (comp +:+ String "/" rest) =
  String.rev (String.rev_app comp cur) :: split_go "/" 0 "" rest.
Proof.
  revert cur. induction comp as [|c comp IH]; intros cur Hns.
  - rewrite str_app_nil_l. cbn [split_go]. rewrite prefix_slash_cons. done.
  - apply no_slash_cons in Hns as [Hc Hns].
    rewrite str_app_cons. cbn [split_go]. rewrite prefix_slash_cons.
    apply Ascii.eqb_neq in Hc. rewrite Hc. by rewrite IH.
Qed.

Lemma split_join (comps : list string) :
  Forall no_slash comps -> comps <> [] ->
  split_go "/" 0 "" (join "/" comps) = comps.
Proof.
  induction 1 as [|c comps Hc Hall IH]; intros Hne; [done|].
  destruct comps as [|c' comps'].
  - simpl. by rewrite split_go_last, rev_rev_app.
  - change (join "/" (c :: c' :: comps'))
      with (c +:+ String "/" (join "/" (c' :: comps'))).
    rewrite split_go_component, rev_rev_app by done. f_equal. by apply IH.
Qed.

Lemma filter_valid (comps : list string) :
  Forall (fun n => valid_name n = true) comps ->
  List.filter (fun c => negb (String.eqb c "") && negb (String.eqb c "."))
              comps = comps.
Proof.
  induction 1 as [|c comps Hc Hall IH]; [done|]. simpl.
  apply valid_name_spec in Hc as (H1 & H2 & _).
  apply String.eqb_neq in H1, H2. by rewrite H1, H2, IH.
Qed.

Lemma Forall_valid_no_slash (comps : list string) :
  Forall (fun n => valid_name n = true) comps -> Forall no_slash comps.
Proof.
  intros H. eapply Forall_impl; [exact H|].
  intros n. rewrite valid_name_spec. tauto.
Qed.

(** [Path(str(p))] is [p] when the components of [p] are proper names. *)
Lemma Path_of_str_of_path (p : Path) :
  Forall (fun n => valid_name n = true) p ->
  Path_of_str (str_of_path p) = p.
Proof.
  intros Hp. unfold Path_of_str, str_of_path, parse_parts, split.
  apply Forall_rev in Hp. rewrite <- (rev_involutive p) at 2.
  f_equal. destruct (rev p) as [|c comps] eqn:E.
  - reflexivity.
  - change ("/" +:+ join "/" (c :: comps))
      with (String "/" (join "/" (c :: comps))).
    cbn [split_go]. rewrite prefix_slash_cons. cbn [Ascii.eqb Bool.eqb].
    cbv iota. change (String.length "/" - 1) with 0.
    rewrite split_join; [|exact (Forall_valid_no_slash _ Hp)|discriminate].
    change (List.filter ?f (String.rev "" :: ?l)) with (List.filter f l).
    by apply filter_valid.
Qed.

(** [p / name] for a proper file name. *)
Lemma truediv_name (p : Path) (n : string) :
  valid_name n = true -> truediv p n = n :: p.
Proof.
  intros Hn. pose proof Hn as (Hne & Hdot & Hns)%valid_name_spec.
  unfold truediv, Path_of_str, parse_parts, split.
  destruct n as [|c n]; [done|].
  rewrite prefix_slash_cons. apply no_slash_cons in Hns as Hns'.
  destruct Hns' as [Hc _]. apply Ascii.eqb_neq in Hc. rewrite Hc.
  rewrite split_go_last, rev_rev_app by done.
  rewrite filter_valid by (by constructor). done.
Qed.

Lemma joinname_valid (p : Path) (n : string) :
  valid_name n = true -> joinname p n = n :: p.
Proof.
  intros (Hne & _)%valid_name_spec. unfold joinname.
  apply String.eqb_neq in Hne. by rewrite Hne.
Qed.

(** *** Decimal numerals have no slash *)

Lemma pretty_N_char_no_slash x : pretty_N_char x <> "/"%char.
Proof. unfold pretty_N_char. by repeat case_match. Qed.

Lemma pretty_N_go_no_slash x s : no_slash s -> no_slash (pretty_N_go x s).
Proof.
  revert s. induction (N.lt_wf_0 x) as [x _ IH]; intros s Hs.
  destruct (decide (x = 0)%N) as [->|Hx]; [by rewrite pretty_N_go_0|].
  rewrite pretty_N_go_step by lia. apply IH.
  - apply N.div_lt; lia.
  - apply no_slash_cons. split; [apply pretty_N_char_no_slash|done].
Qed.

Lemma str_of_nat_no_slash k : no_slash (str_of_nat k).
Proof.
  unfold str_of_nat, pretty, pretty_nat, pretty, pretty_N.
  destruct (decide _); [done|]. by apply pretty_N_go_no_slash.
Qed.

End str_props.

(** ** Collision resolution *)

Module unique_props.
Import Py str_props.
Import mover.

(** The [counter]-th candidate for a path: the counter goes between the
    stem and the extension. *)
Definition candidate (path : Path) (counter : nat) : Path :=
  (Path_stem path +:+ "_" +:+ str_of_nat counter +:+ Path_suffix path)
    :: Path_parent path.

Lemma candidate_inj path j k : candidate path j = candidate path k -> j = k.
Proof.
  unfold candidate. intros [= H].
  apply (inj (String.app _)) in H. apply (inj (String.app _)) in H.
  apply str_app_inj_tail in H. by apply (inj pretty) in H.
Qed.

Lemma candidate_ne_path path k : candidate path k <> path.
Proof.
  unfold candidate. destruct path as [|n up]; [done|]. intros [= H].
  change n with (Path_name (n :: up)) in H at 3.
  rewrite <- (stem_suffix (n :: up)) in H.
  apply (inj (String.app _)) in H.
  change ("_" +:+ str_of_nat k +:+ Path_suffix (n :: up))
    with (("_" +:+ str_of_nat k) +:+ Path_suffix (n :: up)) in H.
  by apply str_app_not_longer in H.
Qed.

(** The loop returns the first free candidate from [counter] on, within
    any budget that reaches it. *)
Lemma unique_loop_first_free fuel t path counter k :
  counter <= k -> k < counter + fuel ->
  t !! candidate path k = None ->
  (forall j, counter <= j < k -> t !! candidate path j <> None) ->
  unique_loop fuel t (Path_stem path) (Path_suffix path) (Path_parent path)
    counter = Ok (candidate path k).
Proof.
  revert counter. induction fuel as [|fuel IH]; intros counter Hle Hlt Hk Hj;
    [lia|].
  simpl. fold (candidate path counter). unfold exists_.
  destruct (decide (counter = k)) as [->|Hne].
  - by rewrite Hk.
  - destruct (t !! candidate path counter) eqn:E; simpl.
    + apply IH; [lia|lia|done|]. intros j ?. apply Hj. lia.
    + exfalso. apply (Hj counter); [lia|done].
Qed.

(** Among more candidates than the tree has entries, one is free. *)
Lemma some_candidate_free (t : FS) path :
  exists k, 1 <= k <= S (size t) /\ t !! candidate path k = None.
Proof.
  destruct (decide (Forall (fun k => t !! candidate path k <> None)
                           (seq 1 (S (size t))))) as [Hall|Hex].
  - exfalso.
    assert (NoDup (candidate path <$> seq 1 (S (size t)))) as Hnd.
    { apply NoDup_fmap_2_strong; [|apply NoDup_seq].
      intros ?? _ _. apply candidate_inj. }
    assert (candidate path <$> seq 1 (S (size t)) ⊆ elements (dom t)) as Hsub.
    { intros p (k & -> & Hk)%list_elem_of_fmap.
      rewrite Forall_forall in Hall. specialize (Hall k Hk).
      apply elem_of_elements, elem_of_dom.
      by destruct (t !! candidate path k); [eexists|]. }
    apply (NoDup_submseteq _ _ Hnd), submseteq_length in Hsub.
    rewrite length_fmap, length_seq in Hsub.
    change (length (elements (dom t))) with (size (dom t)) in Hsub.
    rewrite size_dom in Hsub. lia.
  - apply not_Forall_Exists in Hex; [|apply _].
    apply Exists_exists in Hex as (k & Hk & Hfree).
    apply elem_of_seq in Hk. exists k. split; [lia|].
    destruct (t !! candidate path k) eqn:E; [|done].
    exfalso. apply Hfree. by rewrite E.
Qed.

(** A decidable property of numbers that holds somewhere holds at a least
    number. *)
Lemma least_witness (P : nat -> Prop) `{!forall n, Decision (P n)} (k : nat) :
  P k -> exists m, m <= k /\ P m /\ forall j, j < m -> ~ P j.
Proof.
  induction (lt_wf k) as [k _ IH]. intros Hk.
  destruct (decide (Exists P (seq 0 k))) as [Hex|Hno].
  - apply Exists_exists in Hex as (j & Hj & HPj). apply elem_of_seq in Hj.
    destruct (IH j ltac:(lia) HPj) as (m & ? & ? & ?).
    exists m. split; [lia|done].
  - exists k. split; [lia|]. split; [done|]. intros j Hj HPj.
    apply Hno, Exists_exists. exists j. split; [|done].
    apply elem_of_seq. lia.
Qed.

Lemma first_free_candidate (t : FS) path :
  exists k, 1 <= k <= S (size t) /\ t !! candidate path k = None /\
            forall j, 1 <= j < k -> t !! candidate path j <> None.
Proof.
  destruct (some_candidate_free t path) as (k0 & Hk0 & Hfree).
  destruct (least_witness
              (fun k => 1 <= k /\ t !! candidate path k = None) k0
              ltac:(split; [lia|done]))
    as (k & Hle & [Hk1 Hk] & Hleast).
  exists k. split; [lia|]. split; [done|].
  intros j Hj Hnone. apply (Hleast j); [lia|]. split; [lia|done].
Qed.

(** The result of [_get_unique_path], in both cases. *)
Lemma _get_unique_path_free t path :
  t !! path = None -> _get_unique_path t path = Ok path.
Proof. intros H. unfold _get_unique_path, exists_. by rewrite H. Qed.

Lemma _get_unique_path_taken t path k :
  t !! path <> None -> 1 <= k ->
  t !! candidate path k = None ->
  (forall j, 1 <= j < k -> t !! candidate path j <> None) ->
  _get_unique_path t path = Ok (candidate path k).
Proof.
  intros Hpath Hk Hfree Hleast. unfold _get_unique_path, exists_.
  destruct (t !! path); [|done]. simpl negb. cbv iota.
  destruct (first_free_candidate t path) as (k' & Hk' & Hfree' & Hleast').
  assert (k = k') as <-.
  { destruct (Nat.lt_trichotomy k k') as [?|[?|?]]; [|done|].
    - by destruct (Hleast' k).
    - by destruct (Hleast k'); [lia|]. }
  apply unique_loop_first_free; [lia|lia|done|done].
Qed.

(** [C5] [_get_unique_path] returns a path that is not in the tree.  It
    is the computed destination when that is free; otherwise it is the
    destination with [_k] put before the extension, for the least
    [k >= 1] whose name is free, every smaller one being taken.  So the
    path handed to the move never names an existing entry, and when a
    name is used a second and a third time, with the names [_1] and [_2]
    free beforehand, the second file receives [_1] and the third [_2]. *)
Theorem get_unique_path_first_free_name (t : FS) (path : Path) :
  (exists q,
     _get_unique_path t path = Ok q /\ t !! q = None /\
     (t !! path = None -> q = path) /\
     (t !! path <> None ->
      exists k, 1 <= k /\ q = candidate path k /\
                forall j, 1 <= j < k -> t !! candidate path j <> None)) /\
  (forall x y : node,
     t !! path = None ->
     t !! candidate path 1 = None ->
     t !! candidate path 2 = None ->
     _get_unique_path (<[path := x]> t) path = Ok (candidate path 1) /\
     _get_unique_path (<[candidate path 1 := y]> (<[path := x]> t)) path
       = Ok (candidate path 2)).
Proof.
  split.
  - destruct (t !! path) as [x|] eqn:Hpath.
    + destruct (first_free_candidate t path) as (k & Hk & Hfree & Hleast).
      exists (candidate path k). split; [|split; [done|split; [done|]]].
      * apply _get_unique_path_taken; [by rewrite Hpath|lia|done|done].
      * intros _. exists k. split; [lia|done].
    + exists path. split; [by apply _get_unique_path_free|].
      split; [done|]. split; [done|]. by intros [].
  - intros x y Hpath H1 H2. split.
    + apply _get_unique_path_taken; [by rewrite lookup_insert_eq|lia| |].
      * rewrite lookup_insert_ne; [done|]. apply not_eq_sym, candidate_ne_path.
      * intros j ?. lia.
    + apply _get_unique_path_taken; [|lia| |].
      * rewrite lookup_insert_ne by apply candidate_ne_path.
        by rewrite lookup_insert_eq.
      * rewrite lookup_insert_ne by (intros ?%candidate_inj; lia).
        rewrite lookup_insert_ne; [done|]. apply not_eq_sym, candidate_ne_path.
      * intros j ?. assert (j = 1) as -> by lia. by rewrite lookup_insert_eq.
Qed.

(** Three files named [notes.txt] for the same directory. *)
Definition notes : Path := abs_path ["out"; "Misc"; "notes.txt"].

Lemma get_unique_path_first_free_name_witness :
  _get_unique_path (<[notes := File (Bytes "first")]> ∅) notes
    = Ok (abs_path ["out"; "Misc"; "notes_1.txt"]) /\
  _get_unique_path
    (<[candidate notes 1 := File (Bytes "second")]>
       (<[notes := File (Bytes "first")]> ∅)) notes
    = Ok (abs_path ["out"; "Misc"; "notes_2.txt"]).
Proof.
  exact (proj2 (get_unique_path_first_free_name ∅ notes)
           (File (Bytes "first")) (File (Bytes "second"))
           eq_refl eq_refl eq_refl).
Defined.

End unique_props.

(** ** Dry runs *)

Module dry_run_props.
Import Py run_props ledger_props unique_props.
Import config (Config, DEFAULT_CONFIG).
Import analyzer (AnalysisResult).
Import mover.

Lemma _get_unique_path_Ok (t : FS) (path : Path) :
  exists q, _get_unique_path t path = Ok q /\ t !! q = None.
Proof.
  destruct (t !! path) as [x|] eqn:Hpath.
  - destruct (first_free_candidate t path) as (k & Hk & Hfree & Hleast).
    exists (candidate path k). split; [|done].
    apply _get_unique_path_taken; [by rewrite Hpath|lia|done|done].
  - exists path. split; [by apply _get_unique_path_free|done].
Qed.

(** The destination [move_file] computes for a result, before collision
    resolution. *)
Definition planned (output_dir : Path) (result : AnalysisResult) : Path :=
  joinname (truediv output_dir
              (categories.path (analyzer.category result)))
           (Path_name (scanner.path (analyzer.file_info result))).

Section clock.

Variable clock : nat -> datetime.

(** The operation [move_file] builds in state [s] once the free
    destination [q] is known. *)
Definition operation_of (s : state) (result : AnalysisResult) (q : Path)
    : MoveOperation :=
  {| source := str_of_path (scanner.path (analyzer.file_info result));
     destination := str_of_path q;
     category := categories.name (analyzer.category result);
     reasoning := analyzer.reasoning result;
     timestamp := isoformat (clock (ticks s)) |}.

Definition tick (s : state) : state :=
  {| fs := fs s; ticks := S (ticks s); self := self s |}.

(** In a dry run [move_file] returns the operation and only reads the
    clock. *)
Lemma move_file_dry s result q :
  dry_run (self s) = true ->
  _get_unique_path (fs s) (planned (output_dir (self s)) result) = Ok q ->
  move_file clock result s = (Ok (Some (operation_of s result q)), tick s).
Proof.
  intros Hdry Hq. unfold move_file.
  run_step. run_step. unfold on_fs at 1, os_query.
  fold (planned (output_dir (self s)) result). rewrite Hq, set_fs_same.
  cbv beta iota. run_step. unfold now at 1. cbv beta iota.
  rewrite Hdry. reflexivity.
Qed.

(** A real [move_file] that returns an operation returns the same one. *)
Lemma move_file_real_operation s result q op s' :
  _get_unique_path (fs s) (planned (output_dir (self s)) result) = Ok q ->
  move_file clock result s = (Ok (Some op), s') ->
  op = operation_of s result q.
Proof.
  intros Hq. unfold move_file.
  run_step. run_step. unfold on_fs at 1, os_query.
  fold (planned (output_dir (self s)) result). rewrite Hq, set_fs_same.
  cbv beta iota. run_step. unfold now at 1. cbv beta iota.
  destruct (dry_run (self s)); unfold negb; cbv beta iota.
  - by intros [= <- _].
  - unfold try_catch. run_step.
    match goal with |- context [on_fs ?m ?x] =>
      destruct (on_fs m x) as [[[]|e|] s1] end;
      [|destruct (is_OSError e); intros [=]|intros [=]].
    run_step.
    match goal with |- context [on_fs ?m ?x] =>
      destruct (on_fs m x) as [[[]|e|] s2] end;
      [|destruct (is_OSError e); intros [=]|intros [=]].
    run_step.
    match goal with |- context [match ?m s2 with _ => _ end] =>
      destruct (m s2) as [[[]|e|] s3] end;
      [|destruct (is_OSError e); intros [=]|intros [=]].
    by intros [= <- _].
Qed.

Lemma move_all_dry results s :
  dry_run (self s) = true ->
  exists ops,
    organizer.move_all clock results s =
      (Ok (ops, 0),
       {| fs := fs s; ticks := ticks s + length results; self := self s |}) /\
    length ops = length results.
Proof.
  revert s. induction results as [|result results IH]; intros s Hdry.
  - exists []. simpl. rewrite Nat.add_0_r. by destruct s.
  - destruct (_get_unique_path_Ok (fs s)
                (planned (output_dir (self s)) result)) as (q & Hq & _).
    destruct (IH (tick s) Hdry) as (ops & Hrun & Hlen).
    exists (operation_of s result q :: ops). simpl.
    rewrite run_bind, (move_file_dry _ _ _ Hdry Hq). cbv beta iota.
    rewrite run_bind, Hrun. cbv beta iota. rewrite run_ret.
    simpl. split; [|by rewrite Hlen]. do 2 f_equal. lia.
Qed.

(** [C3], amended.  In dry-run mode [move_file] returns an operation
    whose destination is the one a real [move_file] computes from the same
    tree, leaves the tree and the mover untouched and only reads the
    clock; a whole dry-run session returns one operation per result,
    skips nothing, changes no entry of the tree, and creates no session
    and appends no operation. *)
Theorem dry_run_plans_without_effects :
  (forall s result,
     dry_run (self s) = true ->
     exists op,
       move_file clock result s = (Ok (Some op), tick s) /\
       forall s_real op' s',
         fs s_real = fs s ->
         output_dir (self s_real) = output_dir (self s) ->
         move_file clock result s_real = (Ok (Some op'), s') ->
         destination op' = destination op) /\
  (forall s results,
     dry_run (self s) = true ->
     exists ops,
       organizer.run_session clock results s =
         (Ok (ops, 0),
          {| fs := fs s; ticks := ticks s + length results;
             self := self s |}) /\
       length ops = length results) /\
  (forall results output_dir cfg w,
     (organizer.organize_files clock results output_dir cfg true w).2.1 = w.1).
Proof.
  assert (forall s results,
     dry_run (self s) = true ->
     exists ops,
       organizer.run_session clock results s =
         (Ok (ops, 0),
          {| fs := fs s; ticks := ticks s + length results;
             self := self s |}) /\
       length ops = length results) as Hsession.
  { intros s results Hdry. destruct (move_all_dry results s Hdry)
      as (ops & Hrun & Hlen).
    exists ops. split; [|done]. unfold organizer.run_session.
    rewrite run_bind. unfold start_session at 1.
    run_step. rewrite Hdry. unfold negb. cbv beta iota.
    try rewrite run_ret. cbv beta iota. rewrite run_bind, Hrun. cbv beta iota.
    rewrite run_bind. unfold end_session at 1.
    run_step. cbn [self]. rewrite Hdry.
    by destruct (_current_session (self s)). }
  split; [|split; [exact Hsession|]].
  - intros s result Hdry.
    destruct (_get_unique_path_Ok (fs s)
                (planned (output_dir (self s)) result)) as (q & Hq & _).
    exists (operation_of s result q). split; [by apply move_file_dry|].
    intros s_real op' s' Hfs Hout Hreal.
    rewrite <- Hfs, <- Hout in Hq.
    by rewrite (move_file_real_operation _ _ _ _ _ Hq Hreal).
  - intros results output_dir cfg [t n].
    unfold organizer.organize_files, organizer.with_mover. cbn [fst snd].
    destruct (FileMover__init__ _ _ _ _) as [mover|e|] eqn:Hinit; [|done..].
    assert (dry_run mover = true) as Hdry.
    { unfold FileMover__init__ in Hinit.
      destruct (UndoLog__init__ _ _); by simplify_eq/=. }
    destruct (Hsession {| fs := t; ticks := n; self := mover |} results Hdry)
      as (ops & -> & _). reflexivity.
Qed.

End clock.

(** Two files with the same name in two source directories, neither of
    them known to the registry, and an empty output directory. *)
Definition unknown_file (dir : string) : scanner.FileInfo :=
  {| scanner.path := abs_path [dir; "x.xyz"];
     scanner.name := "x.xyz";
     scanner.extension := ".xyz";
     scanner.size_bytes := 1;
     scanner.content := None;
     scanner.mime_type := None |}.

(** Classification with the backend down. *)
Definition classify_offline (file_info : scanner.FileInfo)
    : list AnalysisResult :=
  match analyzer.analyze_file false (fun _ => None) (fun _ => None)
          (fun _ => None) (fun _ => "0.00") analyzer.__init__ file_info with
  | Ok (_, r) => [r]
  | _ => []
  end.

Definition two_namesakes : list AnalysisResult :=
  classify_offline (unknown_file "a") ++ classify_offline (unknown_file "b").

Definition namesakes_tree : FS :=
  list_to_map [([], Dir);
               (abs_path ["a"], Dir); (abs_path ["b"], Dir);
               (abs_path ["a"; "x.xyz"], File (Bytes "from a"));
               (abs_path ["b"; "x.xyz"], File (Bytes "from b"))].

Definition destinations {S} (r : result (list MoveOperation * nat) * S)
    : option (list string) :=
  match r.1 with
  | Ok (ops, _) => Some (destination <$> ops)
  | _ => None
  end.

(** [C3], as stated, fails: on two files with the same name and category
    the dry run plans the same destination twice, while the real run from
    the same tree gives the second file the suffix [_1]. *)
Lemma dry_run_plan_differs_from_real_run :
  destinations
    (organizer.organize_files clock_within_a_second two_namesakes
       (abs_path ["out"]) DEFAULT_CONFIG true (namesakes_tree, 0))
    = Some ["/out/Misc/x.xyz"; "/out/Misc/x.xyz"] /\
  destinations
    (organizer.organize_files clock_within_a_second two_namesakes
       (abs_path ["out"]) DEFAULT_CONFIG false (namesakes_tree, 0))
    = Some ["/out/Misc/x.xyz"; "/out/Misc/x_1.xyz"].
Proof. split; vm_compute; reflexivity. Qed.

Definition dry_mover_state : state :=
  {| fs := namesakes_tree;
     ticks := 0;
     self := {| output_dir := abs_path ["out"];
                config := DEFAULT_CONFIG;
                dry_run := true;
                undo_log := {| log_path := abs_path ["out"; "undo_log.json"];
                               _sessions := [];
                               next_ref := 0 |};
                _current_session := None |} |}.

Lemma dry_run_plans_without_effects_witness :
  exists ops,
    organizer.run_session clock_within_a_second two_namesakes dry_mover_state =
      (Ok (ops, 0),
       {| fs := fs dry_mover_state;
          ticks := ticks dry_mover_state + length two_namesakes;
          self := self dry_mover_state |}) /\
    length ops = length two_namesakes.
Proof.
  apply (proj1 (proj2 (dry_run_plans_without_effects clock_within_a_second))
           dry_mover_state two_namesakes).
  reflexivity.
Defined.

End dry_run_props.

(** ** The directory tree *)

Module tree_props.
Import Py run_props.

(** Every entry of the tree sits in a directory. *)
Definition closed (t : FS) : Prop :=
  forall n p x, t !! (n :: p) = Some x -> t !! p = Some Dir.

Lemma wf_closed t : wf t -> closed t.
Proof. by intros (_ & ? & _). Qed.

(** In a closed tree everything above an entry is a directory. *)
Lemma closed_above t p q x :
  closed t -> t !! p = Some x -> q `suffix_of` p -> q <> p ->
  t !! q = Some Dir.
Proof.
  intros Hc Hp [k ->]. revert x Hp. induction k as [|n k IH]; intros x Hp Hne.
  - done.
  - simpl in Hp. apply Hc in Hp. destruct k as [|m k]; [done|].
    apply (IH Dir Hp). intros E. apply (f_equal length) in E.
    simpl in E. rewrite length_app in E. lia.
Qed.

Lemma elem_of_children t d p :
  p ∈ children t d <-> exists n, p = n :: d /\ is_Some (t !! p).
Proof.
  unfold children. rewrite list_elem_of_In, filter_In, <- list_elem_of_In.
  rewrite elem_of_elements, elem_of_dom. split.
  - intros [Hp Hd]. destruct p as [|n up]; [done|].
    apply bool_decide_eq_true in Hd as ->. eauto.
  - intros (n & -> & Hp). split; [done|]. by apply bool_decide_eq_true.
Qed.

Lemma NoDup_children t d : NoDup (children t d).
Proof.
  unfold children. apply NoDup_ListNoDup, List.NoDup_filter, NoDup_ListNoDup.
  apply NoDup_elements.
Qed.

Lemma children_nil t d :
  children t d = [] <-> forall n, t !! (n :: d) = None.
Proof.
  split.
  - intros H n. destruct (t !! (n :: d)) eqn:E; [|done].
    assert (n :: d ∈ children t d) as Hin by (apply elem_of_children; eauto).
    rewrite H in Hin. by apply elem_of_nil in Hin.
  - intros H. destruct (children t d) as [|p l] eqn:E; [done|].
    assert (p ∈ children t d) as Hin by (rewrite E; left).
    apply elem_of_children in Hin as (n & -> & [x Hx]). by rewrite H in Hx.
Qed.

(** The entries strictly below a directory. *)
Definition below (d : Path) (t : FS) : FS :=
  filter (fun kv : Path * node => d `suffix_of` kv.1 /\ kv.1 <> d) t.

Lemma below_mono d t t' : t' ⊆ t -> size (below d t') <= size (below d t).
Proof. intros H. by apply map_subseteq_size, map_filter_subseteq_mono. Qed.

Lemma suffix_cons_length (d p : Path) n : n :: d `suffix_of` p -> p <> d.
Proof.
  intros [k ->] E. apply (f_equal length) in E.
  rewrite length_app in E. simpl in E. lia.
Qed.

Lemma below_child n d t :
  is_Some (t !! (n :: d)) -> size (below (n :: d) t) < size (below d t).
Proof.
  intros [x Hx]. apply map_subset_size. apply map_subset_alt.
  unfold below. split.
  - apply map_subseteq_spec. intros p y.
    rewrite !map_lookup_filter_Some. simpl. intros (Hp & Hs & Hne).
    split; [done|]. split; [by eapply suffix_cons_l|].
    by eapply suffix_cons_length.
  - exists (n :: d). split.
    + apply map_lookup_filter_None. right. intros y _ [_ Hne]. done.
    + exists x. apply map_lookup_filter_Some. split; [done|]. simpl.
      split; [by apply suffix_cons_r|]. intros E.
      apply (f_equal length) in E. simpl in E. lia.
Qed.

(** *** [mkdir_parents] *)

Lemma mkdir_parents_dir t p : t !! p = Some Dir -> mkdir_parents t p = Ok t.
Proof. intros H. destruct p; simpl; by rewrite H. Qed.

Lemma mkdir_parents_outcome t p :
  (exists t', mkdir_parents t p = Ok t') \/
  (exists e, mkdir_parents t p = Raise e /\ is_OSError e = true).
Proof.
  revert t. induction p as [|n p IH]; intros t; simpl.
  - destruct (t !! []) as [[]|]; eauto.
  - destruct (t !! (n :: p)) as [[]|]; eauto.
    destruct (t !! p) as [[]|]; eauto.
    destruct (IH t) as [[t' ->]|(e & -> & ?)]; simpl; eauto.
Qed.

(** A successful [mkdir_parents] only adds directories, on the way from
    the root to the path. *)
Lemma mkdir_parents_Ok t p t' :
  mkdir_parents t p = Ok t' ->
  t' !! p = Some Dir /\
  forall q, t' !! q = t !! q \/
            (t !! q = None /\ t' !! q = Some Dir /\ q `suffix_of` p).
Proof.
  revert t'. induction p as [|n p IH]; intros t'; simpl.
  - destruct (t !! []) as [[]|] eqn:E; intros [= <-]. eauto.
  - destruct (t !! (n :: p)) as [[]|] eqn:E; [done| |].
    { intros [= <-]. eauto. }
    assert (forall t0 : FS,
      t0 !! (n :: p) = None ->
      (forall q, t0 !! q = t !! q \/
                 (t !! q = None /\ t0 !! q = Some Dir /\ q `suffix_of` p)) ->
      <[n :: p := Dir]> t0 !! (n :: p) = Some Dir /\
      forall q, <[n :: p := Dir]> t0 !! q = t !! q \/
                (t !! q = None /\ <[n :: p := Dir]> t0 !! q = Some Dir /\
                 q `suffix_of` n :: p)) as Hins.
    { intros t0 Hnew H0. split; [apply lookup_insert_eq|]. intros q.
      destruct (decide (q = n :: p)) as [->|Hne].
      - right. rewrite lookup_insert_eq. done.
      - rewrite lookup_insert_ne by done.
        destruct (H0 q) as [?|(? & ? & ?)]; [by left|right].
        split; [done|]. split; [done|]. by apply suffix_cons_r. }
    destruct (t !! p) as [[]|] eqn:Ep; [done| |].
    + intros [= <-]. apply Hins; [done|]. by left.
    + destruct (mkdir_parents t p) as [t0| |] eqn:E0; [|done..].
      simpl. intros [= <-]. destruct (IH t0 eq_refl) as [_ H0].
      apply Hins; [|done].
      destruct (H0 (n :: p)) as [->|(_ & _ & Hs)]; [done|].
      apply suffix_cons_length in Hs. done.
Qed.

Lemma mkdir_parents_closed t p t' :
  closed t -> mkdir_parents t p = Ok t' -> closed t'.
Proof.
  revert t'. induction p as [|n p IH]; intros t' Hc; simpl.
  - destruct (t !! []) as [[]|]; by intros [= <-].
  - destruct (t !! (n :: p)) as [[]|] eqn:E; [done|by intros [= <-]|].
    assert (forall t0 : FS, closed t0 -> t0 !! p = Some Dir ->
                            closed (<[n :: p := Dir]> t0)) as Hins.
    { intros t0 Hc0 Hp m q x.
      destruct (decide (m :: q = n :: p)) as [[= -> ->]|Hne].
      - intros _. rewrite lookup_insert_ne; [done|].
        intros E'. apply (f_equal length) in E'. simpl in E'. lia.
      - rewrite lookup_insert_ne by done. intros Hx.
        destruct (decide (q = n :: p)) as [->|Hne'].
        + by rewrite lookup_insert_eq.
        + rewrite lookup_insert_ne by done. by eapply Hc0. }
    destruct (t !! p) as [[]|] eqn:Ep; [done| |].
    + intros [= <-]. by apply Hins.
    + destruct (mkdir_parents t p) as [t0| |] eqn:E0; [|done..].
      simpl. intros [= <-]. apply Hins; [by apply IH|].
      by apply (mkdir_parents_Ok _ _ _ E0).
Qed.

End tree_props.

(** ** Pruning of empty directories *)

Module cleanup_props.
Import Py run_props tree_props.
Import mover.

(** The two parts of the body of [_cleanup_empty_dirs]. *)
Definition visit (fuel : nat) (out child : Path) : M FS unit :=
  t ← get;
  if is_dir t child then _cleanup_empty_dirs fuel out child else mret tt.

Definition prune (out d : Path) (t : FS) : FS :=
  match t !! d, children t d, d with
  | Some Dir, [], _ :: _ => if bool_decide (d ≠ out) then delete d t else t
  | _, _, _ => t
  end.

Lemma cleanup_run fuel out d t :
  _cleanup_empty_dirs (S fuel) out d t =
  match t !! d with
  | None => (Ok tt, t)
  | Some (File _) => (Raise NotADirectoryError, t)
  | Some Dir =>
      match for_each (children t d) (visit fuel out) t with
      | (Ok _, t1) => (Ok tt, prune out d t1)
      | (Raise e, t1) => (Raise e, t1)
      | (OutOfFuel, t1) => (OutOfFuel, t1)
      end
  end.
Proof.
  cbn [_cleanup_empty_dirs]. run_step. unfold exists_.
  destruct (t !! d) as [[c|]|] eqn:Ed; unfold negb; cbv beta iota; [| |done].
  - run_step. unfold os_query, iterdir. by rewrite Ed.
  - run_step. unfold os_query, iterdir. rewrite Ed. cbv beta iota.
    rewrite run_bind. fold (visit fuel out).
    destruct (for_each _ _ t) as [[[]|e|] t1]; [|done..].
    unfold try_catch. run_step. unfold prune, exists_.
    destruct (t1 !! d) as [[c|]|] eqn:Ed1; unfold negb; cbv beta iota;
      [| |done].
    + run_step. unfold os_query, iterdir. by rewrite Ed1.
    + run_step. unfold os_query, iterdir. rewrite Ed1. cbv beta iota.
      destruct (children t1 d) as [|k ks] eqn:Ek; [|done].
      destruct (bool_decide (d ≠ out)); [|by destruct d].
      unfold os_call, rmdir. rewrite Ed1, Ek. by destruct d.
Qed.

(** What a cleanup below [d] may do to a closed tree: remove directories
    under [d] other than the output root and the root, so that none of
    those that remain is empty. *)
Definition cleaned (out d : Path) (t t' : FS) : Prop :=
  closed t' /\
  (forall p, t' !! p = t !! p \/
             (d `suffix_of` p /\ t !! p = Some Dir /\ t' !! p = None /\
              p <> out /\ p <> [])) /\
  (forall p, d `suffix_of` p -> t' !! p = Some Dir ->
             p = out \/ p = [] \/ children t' p <> []).

Lemma cleaned_subseteq out d t t' : cleaned out d t t' -> t' ⊆ t.
Proof.
  intros (_ & Hch & _). apply map_subseteq_spec. intros p x Hp.
  destruct (Hch p) as [<-|(_ & _ & Hn & _)]; [done|congruence].
Qed.

Lemma suffix_same_length (l1 l2 l : Path) :
  l1 `suffix_of` l -> l2 `suffix_of` l -> length l1 = length l2 -> l1 = l2.
Proof.
  intros [k1 ->] [k2 E] Hlen.
  assert (length k1 = length k2) as Hk.
  { apply (f_equal length) in E. rewrite !length_app in E. lia. }
  by apply app_inj_1 in E as [_ ->].
Qed.

(** A path strictly below [d] lies under one entry of [d]. *)
Lemma below_some_child (d p : Path) :
  d `suffix_of` p -> p <> d -> exists n, n :: d `suffix_of` p.
Proof.
  intros [k ->] Hne. destruct (decide (k = [])) as [->|Hk]; [done|].
  destruct (exists_last Hk) as (k' & n & ->).
  exists n, k'. by rewrite <- app_assoc.
Qed.

(** Nothing under a path that is not a directory is a directory. *)
Lemma cleaned_not_dir out c t :
  closed t -> t !! c <> Some Dir -> cleaned out c t t.
Proof.
  intros Hc Hnd. split; [done|]. split; [by left|].
  intros p Hs Hp. destruct (decide (p = c)) as [->|Hne]; [done|].
  exfalso. apply Hnd. by eapply closed_above.
Qed.

Section budget.

Variable fuel : nat.
Variable out : Path.

Hypothesis cleanup_below :
  forall d t, closed t -> size (below d t) < fuel -> t !! d = Some Dir ->
    exists t', _cleanup_empty_dirs fuel out d t = (Ok tt, t') /\
               cleaned out d t t'.

Lemma visit_spec c t :
  closed t -> size (below c t) < fuel ->
  exists t', visit fuel out c t = (Ok tt, t') /\ cleaned out c t t'.
Proof.
  intros Hc Hsz. unfold visit. run_step. unfold is_dir.
  destruct (t !! c) as [[x|]|] eqn:Ec.
  - exists t. split; [done|]. apply cleaned_not_dir; [done|]. by rewrite Ec.
  - by apply cleanup_below.
  - exists t. split; [done|]. apply cleaned_not_dir; [done|]. by rewrite Ec.
Qed.

(** The loop over the entries of [d]. *)
Lemma for_each_visit_spec (d : Path) (kids : list Path) (t : FS) :
  closed t -> NoDup kids ->
  (forall c, c ∈ kids -> exists n, c = n :: d) ->
  (forall c, c ∈ kids -> size (below c t) < fuel) ->
  exists t',
    for_each kids (visit fuel out) t = (Ok tt, t') /\
    closed t' /\
    (forall p, t' !! p = t !! p \/
               (exists c, c ∈ kids /\ c `suffix_of` p /\ t !! p = Some Dir /\
                          t' !! p = None /\ p <> out /\ p <> [])) /\
    (forall c p, c ∈ kids -> c `suffix_of` p -> t' !! p = Some Dir ->
                 p = out \/ p = [] \/ children t' p <> []).
Proof.
  revert t. induction kids as [|c kids IH]; intros t Hc Hnd Hkid Hsz.
  { exists t. split; [done|]. split; [done|]. split; [by left|].
    intros c p Hin. by apply elem_of_nil in Hin. }
  apply NoDup_cons in Hnd as [Hc_notin Hnd].
  destruct (visit_spec c t Hc) as (t1 & Hrun1 & Hcl1 & Hch1 & Hfull1).
  { apply Hsz. left. }
  assert (t1 ⊆ t) as Hsub1 by (by eapply cleaned_subseteq).
  destruct (IH t1 Hcl1 Hnd) as (t2 & Hrun2 & Hcl2 & Hch2 & Hfull2).
  { intros c' Hin. apply Hkid. by right. }
  { intros c' Hin. eapply Nat.le_lt_trans; [by apply below_mono|].
    apply Hsz. by right. }
  (* entries under [c] are not touched by the rest of the loop *)
  assert (forall p, c `suffix_of` p -> t2 !! p = t1 !! p) as Hkeep.
  { intros p Hs. destruct (Hch2 p) as [?|(c' & Hin & Hs' & _)]; [done|].
    exfalso. apply Hc_notin.
    destruct (Hkid c ltac:(left)) as [n ->].
    destruct (Hkid c' ltac:(by right)) as [n' ->].
    by rewrite (suffix_same_length (n :: d) (n' :: d) p). }
  exists t2. split.
  { cbn [for_each]. rewrite run_bind, Hrun1. exact Hrun2. }
  split; [done|]. split.
  - intros p. destruct (Hch2 p) as [E2|(c' & Hin & Hs & Hd & Hn & ? & ?)].
    + destruct (Hch1 p) as [E1|(Hs & Hd & Hn & ? & ?)].
      * left. congruence.
      * right. exists c. rewrite E2. split; [left|done].
    + right. exists c'. split; [by right|].
      destruct (Hch1 p) as [E1|(_ & _ & Hn1 & _)]; [|congruence].
      rewrite <- E1. done.
  - intros c0 p Hin Hs Hp. apply elem_of_cons in Hin as [->|Hin];
      [|by eapply Hfull2].
    rewrite Hkeep in Hp by done.
    destruct (Hfull1 p Hs Hp) as [?|[?|Hkids]]; [by left|by right; left|].
    right; right. destruct (children t1 p) as [|q qs] eqn:Eq; [done|].
    assert (q ∈ children t1 p) as Hq by (rewrite Eq; left).
    apply elem_of_children in Hq as (m & -> & Hex).
    intros Hnil. rewrite children_nil in Hnil. specialize (Hnil m).
    rewrite Hkeep in Hnil by (by apply suffix_cons_r).
    rewrite Hnil in Hex. by destruct Hex.
Qed.

End budget.

(** The entries of a path at or below [d] are the same once [d] is
    deleted. *)
Lemma children_delete_above t d p :
  d `suffix_of` p -> children t p <> [] -> children (delete d t) p <> [].
Proof.
  intros Hs Hp Hnil. apply Hp. rewrite children_nil in *. intros n.
  specialize (Hnil n). rewrite lookup_delete_ne in Hnil; [done|].
  intros ->. by apply suffix_cons_length in Hs.
Qed.

(** A cleanup on a directory of a closed tree returns within any budget
    larger than the number of entries below the directory. *)
Lemma cleanup_spec fuel out d t :
  closed t -> size (below d t) < fuel -> t !! d = Some Dir ->
  exists t', _cleanup_empty_dirs fuel out d t = (Ok tt, t') /\
             cleaned out d t t'.
Proof.
  revert d t. induction fuel as [|fuel IH]; intros d t Hc Hsz Hd; [lia|].
  rewrite cleanup_run, Hd.
  destruct (for_each_visit_spec fuel out IH d (children t d) t Hc)
    as (t1 & -> & Hcl1 & Hch1 & Hfull1).
  { apply NoDup_children. }
  { intros c (n & -> & _)%elem_of_children. eauto. }
  { intros c (n & -> & Hex)%elem_of_children.
    pose proof (below_child n d t Hex). lia. }
  exists (prune out d t1). split; [done|].
  (* the directory itself is still there after the loop *)
  assert (t1 !! d = Some Dir) as Hd1.
  { destruct (Hch1 d) as [->|(c & (n & -> & _)%elem_of_children & Hs & _)];
      [done|].
    by apply suffix_cons_length in Hs. }
  (* what the loop left strictly below [d] *)
  assert (forall p, d `suffix_of` p -> p <> d -> t1 !! p = Some Dir ->
                    p = out \/ p = [] \/ children t1 p <> []) as Hstrict.
  { intros p Hs Hne Hp. destruct (below_some_child d p Hs Hne) as [n Hn].
    apply (Hfull1 (n :: d)); [|done|done].
    apply elem_of_children. exists n. split; [done|].
    assert (t !! p = Some Dir) as Hpt.
    { destruct (Hch1 p) as [<-|(_ & _ & _ & ? & _)]; [done|congruence]. }
    destruct (decide (n :: d = p)) as [->|Hnp]; [by eexists|].
    exists Dir. by eapply closed_above. }
  assert (forall p, t1 !! p = t !! p \/
            (d `suffix_of` p /\ t !! p = Some Dir /\ t1 !! p = None /\
             p <> out /\ p <> [])) as Hch1'.
  { intros p. destruct (Hch1 p)
      as [?|(c & (n & -> & _)%elem_of_children & Hs & ?)]; [by left|right].
    split; [|done]. by eapply suffix_cons_l. }
  unfold prune. rewrite Hd1.
  destruct (children t1 d) as [|k ks] eqn:Ek.
  - destruct d as [|n d'].
    { split; [done|]. split; [done|]. intros p Hs Hp.
      destruct (decide (p = [])) as [->|Hne]; [by right; left|].
      by apply Hstrict. }
    destruct (bool_decide (n :: d' ≠ out)) eqn:Eout.
    + apply bool_decide_eq_true in Eout. split; [|split].
      * intros m q x. destruct (decide (m :: q = n :: d')) as [->|Hne].
        { by rewrite lookup_delete_eq. }
        rewrite lookup_delete_ne by done. intros Hx.
        rewrite lookup_delete_ne; [by eapply Hcl1|].
        intros <-. rewrite children_nil in Ek. by rewrite Ek in Hx.
      * intros p. destruct (decide (p = n :: d')) as [->|Hne].
        { right. rewrite lookup_delete_eq.
          destruct (Hch1' (n :: d')) as [E|(_ & ? & ? & _)]; [|congruence].
          rewrite <- E. done. }
        rewrite lookup_delete_ne by done. apply Hch1'.
      * intros p Hs. destruct (decide (p = n :: d')) as [->|Hne].
        { by rewrite lookup_delete_eq. }
        rewrite lookup_delete_ne by done. intros Hp.
        destruct (Hstrict p Hs Hne Hp) as [?|[?|?]];
          [by left|by right; left|].
        right; right. by apply children_delete_above.
    + apply bool_decide_eq_false in Eout.
      split; [done|]. split; [done|]. intros p Hs Hp.
      destruct (decide (p = n :: d')) as [->|Hne];
        [left; by destruct (decide (n :: d' = out))|].
      by apply Hstrict.
  - split; [done|]. split; [done|]. intros p Hs Hp.
    destruct (decide (p = d)) as [->|Hne]; [|by apply Hstrict].
    right; right. by rewrite Ek.
Qed.

(** With the budget [undo_last_session] gives it, the cleanup returns on
    every closed tree, and raises only when it is started on a regular
    file. *)
Lemma cleanup_total out d t :
  closed t ->
  match t !! d with
  | Some (File _) =>
      _cleanup_empty_dirs (cleanup_fuel t) out d t =
        (Raise NotADirectoryError, t)
  | Some Dir =>
      exists t', _cleanup_empty_dirs (cleanup_fuel t) out d t = (Ok tt, t') /\
                 cleaned out d t t'
  | None => _cleanup_empty_dirs (cleanup_fuel t) out d t = (Ok tt, t)
  end.
Proof.
  intros Hc. unfold cleanup_fuel.
  destruct (t !! d) as [[c|]|] eqn:Ed.
  - by rewrite cleanup_run, Ed.
  - apply cleanup_spec; [done| |done].
    pose proof (map_subseteq_size _ _ (map_filter_subseteq
      (fun kv : Path * node => d `suffix_of` kv.1 /\ kv.1 <> d) t)).
    unfold below. lia.
  - by rewrite cleanup_run, Ed.
Qed.

(** On any tree at all the cleanup returns, takes entries away only, and
    raises only when it is started on a regular file, before it has done
    anything. *)
Lemma cleanup_returns fuel out d t :
  size (below d t) < fuel ->
  exists r t',
    _cleanup_empty_dirs fuel out d t = (r, t') /\ t' ⊆ t /\
    match t !! d with
    | Some (File _) => r = Raise NotADirectoryError /\ t' = t
    | _ => r = Ok tt
    end.
Proof.
  revert d t. induction fuel as [|fuel IH]; intros d t Hsz; [lia|].
  rewrite cleanup_run.
  destruct (t !! d) as [[c|]|] eqn:Ed;
    [by eexists _, _; split; [done|split; [done|split]]|
    |by eexists _, _; split; [done|split]].
  assert (forall kids t0,
            t0 ⊆ t -> (forall c, c ∈ kids -> size (below c t) < fuel) ->
            exists t1, for_each kids (visit fuel out) t0 = (Ok tt, t1) /\
                       t1 ⊆ t) as Hloop.
  { induction kids as [|c kids IHk]; intros t0 Hsub Hkids; [by eauto|].
    assert (exists t1, visit fuel out c t0 = (Ok tt, t1) /\ t1 ⊆ t)
      as (t1 & Hrun1 & Hsub1).
    { unfold visit. run_step. unfold is_dir.
      destruct (t0 !! c) as [[x|]|] eqn:Ec; [by eauto| |by eauto].
      destruct (IH c t0) as (r & t1 & -> & Hsub1 & Hr).
      { eapply Nat.le_lt_trans; [by apply below_mono|]. apply Hkids. left. }
      rewrite Ec in Hr. subst r. exists t1. split; [done|]. by etrans. }
    destruct (IHk t1 Hsub1) as (t2 & Hrun2 & Hsub2).
    { intros c' Hin. apply Hkids. by right. }
    exists t2. split; [|done].
    cbn [for_each]. by rewrite run_bind, Hrun1. }
  destruct (Hloop (children t d) t) as (t1 & -> & Hsub1); [done| |].
  { intros c (n & -> & Hex)%elem_of_children.
    pose proof (below_child n d t Hex). lia. }
  exists (Ok tt), (prune out d t1). split; [done|]. split; [|done].
  unfold prune. destruct (t1 !! d) as [[]|]; try done.
  destruct (children t1 d); [|done]. destruct d; [done|].
  destruct (bool_decide _); [|done]. etrans; [apply delete_subseteq|done].
Qed.

Lemma cleanup_fuel_enough d t : size (below d t) < cleanup_fuel t.
Proof.
  pose proof (map_subseteq_size _ _ (map_filter_subseteq
    (fun kv : Path * node => d `suffix_of` kv.1 /\ kv.1 <> d) t)).
  unfold below, cleanup_fuel. lia.
Qed.

(** A cleanup removes directories only, whatever the tree and however
    it ends: the regular files are the same before and after. *)
Definition same_files (t t' : FS) : Prop :=
  forall p c, t' !! p = Some (File c) <-> t !! p = Some (File c).

Lemma same_files_refl t : same_files t t.
Proof. by intros p c. Qed.

Lemma same_files_trans t1 t2 t3 :
  same_files t1 t2 -> same_files t2 t3 -> same_files t1 t3.
Proof. intros H12 H23 p c. etrans; [apply H23|apply H12]. Qed.

Lemma same_files_prune out d t : same_files t (prune out d t).
Proof.
  unfold prune. destruct (t !! d) as [[]|] eqn:Ed; try apply same_files_refl.
  destruct (children t d); [|apply same_files_refl].
  destruct d as [|n d]; [apply same_files_refl|].
  destruct (bool_decide _); [|apply same_files_refl].
  intros p c. destruct (decide (p = n :: d)) as [->|Hne].
  - rewrite lookup_delete_eq, Ed. split; discriminate.
  - by rewrite lookup_delete_ne.
Qed.

Lemma cleanup_keeps_files fuel out d t r t' :
  _cleanup_empty_dirs fuel out d t = (r, t') -> same_files t t'.
Proof.
  revert d t r t'. induction fuel as [|fuel IH]; intros d t r t'.
  { intros [= _ <-]. apply same_files_refl. }
  rewrite cleanup_run.
  destruct (t !! d) as [[c|]|];
    [intros [= _ <-]; apply same_files_refl|
    |intros [= _ <-]; apply same_files_refl].
  assert (forall kids t0 r1 t1,
            for_each kids (visit fuel out) t0 = (r1, t1) -> same_files t0 t1)
    as Hloop.
  { induction kids as [|k kids IHk]; intros t0 r1 t1.
    { intros [= _ <-]. apply same_files_refl. }
    cbn [for_each]. rewrite run_bind.
    destruct (visit fuel out k t0) as [r2 t2] eqn:Ev.
    assert (same_files t0 t2) as H02.
    { revert Ev. unfold visit. run_step.
      destruct (is_dir t0 k); [apply IH|].
      intros [= _ <-]. apply same_files_refl. }
    destruct r2 as [[]|e|].
    - intros Hrest. eapply same_files_trans; [exact H02|by eapply IHk].
    - by intros [= _ <-].
    - by intros [= _ <-]. }
  destruct (for_each _ _ t) as [[[]|e|] t1] eqn:Efor;
    pose proof (Hloop _ _ _ _ Efor) as H1; intros [= _ <-]; [|done..].
  eapply same_files_trans; [exact H1|apply same_files_prune].
Qed.

End cleanup_props.

(** ** The undo engine *)

Module undo_props.
Import Py run_props tree_props cleanup_props ledger_props.
Import mover.

Lemma write_file_outcome t p c :
  (exists t', write_file t p c = Ok t') \/
  (exists e, write_file t p c = Raise e /\ is_OSError e = true).
Proof.
  unfold write_file.
  destruct (t !! p) as [[]|]; destruct (t !! Path_parent p) as [[]|]; eauto.
Qed.

Lemma write_file_Ok t p c t' :
  write_file t p c = Ok t' ->
  t' = <[p := File c]> t /\ t !! p <> Some Dir /\
  t !! Path_parent p = Some Dir.
Proof.
  unfold write_file.
  destruct (t !! p) as [[]|]; destruct (t !! Path_parent p) as [[]|];
    intros [= <-]; done.
Qed.

Lemma rename_or_copy_outcome t src dst :
  (exists t', rename_or_copy t src dst = Ok t') \/
  (exists e, rename_or_copy t src dst = Raise e).
Proof.
  unfold rename_or_copy. destruct (t !! src) as [[c|]|]; [| |by eauto].
  - destruct (t !! dst) as [[]|]; destruct (t !! Path_parent dst) as [[]|];
      eauto.
  - destruct (bool_decide _); [by eauto|].
    destruct (t !! dst); [by eauto|].
    destruct (mkdir_parents_outcome t (Path_parent dst))
      as [[t' ->]|(e & -> & _)]; simpl; eauto.
Qed.

Lemma shutil_move_outcome t src dst :
  (exists t', shutil_move t src dst = Ok t') \/
  (exists e, shutil_move t src dst = Raise e).
Proof.
  unfold shutil_move. destruct (is_dir t dst); [|apply rename_or_copy_outcome].
  destruct (bool_decide _); [by eauto|].
  destruct (exists_ t _); [by eauto|apply rename_or_copy_outcome].
Qed.

(** [_save] creates the directory of the log and rewrites the whole
    document; the mover is not touched. *)
Lemma _save_run s :
  let log := log_path (undo_log (self s)) in
  _save s =
  match mkdir_parents (fs s) (Path_parent log) with
  | Ok t1 =>
      match write_file t1 log (Document (log_document (sessions_of s))) with
      | Ok t2 => (Ok tt, set_fs t2 s)
      | Raise e => (Raise e, set_fs t1 s)
      | OutOfFuel => (OutOfFuel, set_fs t1 s)
      end
  | Raise e => (Raise e, s)
  | OutOfFuel => (OutOfFuel, s)
  end.
Proof.
  intros log. unfold _save. run_step. run_step. unfold on_fs at 1, os_call.
  fold log. destruct (mkdir_parents (fs s) (Path_parent log)) as [t1|e|];
    cbv beta iota; rewrite ?set_fs_same; [|done..].
  unfold on_fs, os_call. cbn [fs set_fs]. fold log.
  fold (log_document (sessions_of s)).
  by destruct (write_file t1 log _).
Qed.

Lemma _save_outcome s :
  (exists t2, _save s = (Ok tt, set_fs t2 s) /\
              t2 !! log_path (undo_log (self s)) =
                Some (File (Document (log_document (sessions_of s))))) \/
  (exists e s', _save s = (Raise e, s') /\ is_OSError e = true /\
                self s' = self s).
Proof.
  rewrite _save_run. cbv zeta.
  destruct (mkdir_parents_outcome (fs s)
              (Path_parent (log_path (undo_log (self s)))))
    as [[t1 ->]|(e & -> & ?)]; [|right; by eauto].
  destruct (write_file_outcome t1 (log_path (undo_log (self s)))
              (Document (log_document (sessions_of s))))
    as [[t2 E]|(e & -> & ?)]; [|right; by eauto].
  rewrite E. left. exists t2. split; [done|].
  apply write_file_Ok in E as (-> & _). apply lookup_insert_eq.
Qed.

(** *** One operation *)

Definition not_found (dest : Path) : string :=
  "File not found: " +:+ str_of_path dest.
Definition not_restored (dest : Path) (e : exn) : string :=
  "Failed to restore " +:+ Path_name dest +:+ ": " +:+ exn_text e.

(** The reversal of a session as the design words it: the operations are
    taken one after the other; a missing destination records an error; an
    existing one has the parent directories of the source created and the
    file moved back, and a failure of either step records an error; in
    every case the next operation is taken up, on the tree as it then is.
    [undo_trace ops t outcomes t'] lists one outcome per operation. *)
Inductive undo_trace
    : list MoveOperation -> FS -> list (string * string + string) -> FS -> Prop :=
  | undo_done t :
      undo_trace [] t [] t
  | undo_missing op ops t outcomes t' :
      let dest := Path_of_str (destination op) in
      t !! dest = None ->
      undo_trace ops t outcomes t' ->
      undo_trace (op :: ops) t (inr (not_found dest) :: outcomes) t'
  | undo_restored op ops t t1 t2 outcomes t' :
      let source := Path_of_str (source op) in
      let dest := Path_of_str (destination op) in
      t !! dest <> None ->
      mkdir_parents t (Path_parent source) = Ok t1 ->
      shutil_move t1 dest source = Ok t2 ->
      undo_trace ops t2 outcomes t' ->
      undo_trace (op :: ops) t
        (inl (str_of_path dest, str_of_path source) :: outcomes) t'
  | undo_no_parent op ops t e outcomes t' :
      let source := Path_of_str (source op) in
      let dest := Path_of_str (destination op) in
      t !! dest <> None ->
      mkdir_parents t (Path_parent source) = Raise e ->
      undo_trace ops t outcomes t' ->
      undo_trace (op :: ops) t (inr (not_restored dest e) :: outcomes) t'
  | undo_not_moved op ops t t1 e outcomes t' :
      let source := Path_of_str (source op) in
      let dest := Path_of_str (destination op) in
      t !! dest <> None ->
      mkdir_parents t (Path_parent source) = Ok t1 ->
      shutil_move t1 dest source = Raise e ->
      undo_trace ops t1 outcomes t' ->
      undo_trace (op :: ops) t (inr (not_restored dest e) :: outcomes) t'.

Definition restored (outcomes : list (string * string + string))
    : list (string * string) :=
  omap (fun o => match o with inl mv => Some mv | inr _ => None end) outcomes.

Definition failures (outcomes : list (string * string + string))
    : list string :=
  omap (fun o => match o with inl _ => None | inr err => Some err end) outcomes.

Lemma undo_trace_length ops t outcomes t' :
  undo_trace ops t outcomes t' -> length outcomes = length ops.
Proof. induction 1; simpl; congruence. Qed.

(** One round of the loop never raises: it returns the move or the
    error, as one step of [undo_trace] says. *)
Lemma undo_operation_step op s :
  exists o t1,
    undo_operation op s = (Ok o, set_fs t1 s) /\
    forall ops outcomes t',
      undo_trace ops t1 outcomes t' ->
      undo_trace (op :: ops) (fs s) (o :: outcomes) t'.
Proof.
  unfold undo_operation. run_step. unfold exists_.
  destruct (fs s !! Path_of_str (destination op)) as [x|] eqn:Edest;
    cbv beta iota.
  2:{ eexists _, (fs s). rewrite set_fs_same. split; [done|].
      intros ops outcomes t' Htr. by apply undo_missing. }
  assert (fs s !! Path_of_str (destination op) <> None) as Hdest
    by (by rewrite Edest).
  unfold try_catch. run_step. unfold on_fs at 1, os_call.
  destruct (mkdir_parents_outcome (fs s)
              (Path_parent (Path_of_str (source op))))
    as [[t1 Emk]|(e & Emk & _)]; rewrite Emk; cbv beta iota.
  2:{ eexists _, (fs s). rewrite set_fs_same. split; [done|].
      intros ops outcomes t' Htr. by eapply undo_no_parent. }
  run_step. unfold on_fs, os_call. cbn [fs set_fs].
  destruct (shutil_move_outcome t1 (Path_of_str (destination op))
              (Path_of_str (source op)))
    as [[t2 Emv]|[e Emv]]; rewrite Emv; cbv beta iota.
  - eexists _, t2. split; [done|].
    intros ops outcomes t' Htr. by eapply undo_restored.
  - eexists _, t1. split; [done|].
    intros ops outcomes t' Htr. by eapply undo_not_moved.
Qed.

(** The loop takes up every operation, in the order of the list it is
    given, and appends each outcome to one of its two lists. *)
Lemma undo_operations_trace ops moves errors s :
  exists outcomes t1,
    undo_trace ops (fs s) outcomes t1 /\
    undo_operations ops moves errors s =
      (Ok (moves ++ restored outcomes, errors ++ failures outcomes),
       set_fs t1 s).
Proof.
  revert moves errors s. induction ops as [|op ops IH]; intros moves errors s.
  - exists [], (fs s). split; [constructor|].
    simpl. by rewrite !app_nil_r, set_fs_same.
  - destruct (undo_operation_step op s) as (o & t1 & Hrun & Hstep).
    cbn [undo_operations]. rewrite run_bind, Hrun. cbv beta iota.
    destruct o as [mv|err].
    + destruct (IH (moves ++ [mv]) errors (set_fs t1 s))
        as (outcomes & t2 & Htr & ->).
      exists (inl mv :: outcomes), t2. split; [by apply Hstep|].
      simpl. by rewrite <- app_assoc.
    + destruct (IH moves (errors ++ [err]) (set_fs t1 s))
        as (outcomes & t2 & Htr & ->).
      exists (inr err :: outcomes), t2. split; [by apply Hstep|].
      simpl. by rewrite <- app_assoc.
Qed.

(** [_save] touches no regular file but the log document. *)
Lemma _save_keeps_files s r s' :
  _save s = (r, s') ->
  forall p c, p <> log_path (undo_log (self s)) ->
    fs s' !! p = Some (File c) <-> fs s !! p = Some (File c).
Proof.
  rewrite _save_run. cbv zeta.
  destruct (mkdir_parents _ _) as [t1|e|] eqn:Emk; [|by intros [= _ <-]..].
  assert (forall p c, t1 !! p = Some (File c) <-> fs s !! p = Some (File c))
    as Hmk.
  { intros p c. destruct (mkdir_parents_Ok _ _ _ Emk) as [_ Hch].
    destruct (Hch p) as [->|(E1 & E2 & _)]; [done|].
    rewrite E1, E2. split; discriminate. }
  destruct (write_file _ _ _) as [t2|e|] eqn:Ew;
    [|intros [= _ <-]; intros p c _; apply Hmk..].
  apply write_file_Ok in Ew as (-> & _ & _). intros [= _ <-] p c Hp.
  cbn [fs set_fs]. rewrite lookup_insert_ne by done. apply Hmk.
Qed.

(** [C2], amended.  For every completed session selected for undo, the
    loop takes up every operation of the session, in reverse append
    order, whatever happened to the earlier ones: there is one outcome
    per operation, a missing destination recording an error and an
    existing one having the source's parent directories recreated and the
    file moved back.  Then, provided the recorded output directory has not
    become a regular file, the sessions with the id of that session are
    removed from the log whether or not errors were recorded, and every
    regular file other than the log document is where the loop has put
    it; and unless rewriting the log document raises an [OSError], the
    call returns the moves made and a success flag that is true exactly
    when no operation recorded an error, with the document on disk
    holding the remaining sessions. *)
Theorem undo_last_session_continues_on_error (s : state) ref session :
  last_completed s = Some (ref, session) ->
  exists outcomes t1,
    undo_trace (reverse (operations session)) (fs s) outcomes t1 /\
    length outcomes = length (operations session) /\
    (is_file t1 (Path_of_str (output_directory session)) = false ->
     exists r s2,
       undo_last_session s = (r, s2) /\
       sessions_of s2 =
         List.filter (fun rs : nat * OrganizationSession =>
                        negb (String.eqb (session_id rs.2) (session_id session)))
                     (sessions_of s) /\
       (forall p c, p <> log_path (undo_log (self s)) ->
          fs s2 !! p = Some (File c) <-> t1 !! p = Some (File c)) /\
       ((exists flag msg,
           r = Ok (flag, msg, restored outcomes) /\
           (flag = true <-> failures outcomes = []) /\
           fs s2 !! log_path (undo_log (self s2)) =
             Some (File (Document (log_document (sessions_of s2))))) \/
        (exists e, r = Raise e /\ is_OSError e = true))).
Proof.
  intros Hlast.
  destruct (undo_operations_trace (reverse (operations session)) [] [] s)
    as (outcomes & t1 & Htrace & Hloop).
  exists outcomes, t1. split; [done|]. split.
  { by rewrite (undo_trace_length _ _ _ _ Htrace), length_reverse. }
  intros Hroot. unfold undo_last_session.
  rewrite run_bind, get_last_session_run, Hlast. cbv beta iota.
  rewrite run_bind, Hloop. cbv beta iota. rewrite !app_nil_l.
  run_step. run_step. cbn [fs set_fs self].
  destruct (cleanup_returns (cleanup_fuel t1) (output_dir (self s))
              (Path_of_str (output_directory session)) t1
              (cleanup_fuel_enough _ _)) as (rc & t1' & Hclean & _ & Hrc).
  pose proof (cleanup_keeps_files _ _ _ _ _ _ Hclean) as Hfiles1.
  unfold on_fs at 1. cbn [fs set_fs]. rewrite Hclean.
  assert (rc = Ok tt) as ->.
  { unfold is_file in Hroot.
    by destruct (t1 !! Path_of_str (output_directory session)) as [[]|]. }
  cbv beta iota. run_step. unfold remove_session. run_step.
  match goal with |- context [_save ?x] => set (s1 := x) end.
  assert (sessions_of s1 =
          List.filter (fun rs : nat * OrganizationSession =>
                         negb (String.eqb (session_id rs.2) (session_id session)))
                      (sessions_of s)) as Hs1 by done.
  assert (forall r2 s2, _save s1 = (r2, s2) ->
            forall p c, p <> log_path (undo_log (self s)) ->
              fs s2 !! p = Some (File c) <-> t1 !! p = Some (File c))
    as Hfiles.
  { intros r2 s2 Hsave p c Hp.
    rewrite (_save_keeps_files _ _ _ Hsave p c Hp). apply Hfiles1. }
  destruct (_save s1) as [r2 s2] eqn:Esave.
  specialize (Hfiles _ _ eq_refl).
  destruct (_save_outcome s1) as [(t2 & E & Hdoc)|(e & s' & E & He & Hself)];
    rewrite Esave in E; injection E as -> ->; cbv beta iota.
  - destruct (failures outcomes) as [|err errs] eqn:Eerr; rewrite run_ret;
      (eexists _, _; split; [reflexivity|]; split; [exact Hs1|];
       split; [exact Hfiles|]; left).
    + eexists true, _. split; [done|]. split; [done|]. exact Hdoc.
    + eexists false, _. split; [done|]. split; [done|]. exact Hdoc.
  - eexists _, _. split; [reflexivity|]. split.
    + unfold sessions_of in *. by rewrite Hself.
    + split; [exact Hfiles|]. right. eauto.
Qed.

(** A session on the two namesakes of [dry_run_props], run for real; one
    of the two moved files is then taken away before the undo. *)
Definition real_mover_state : state :=
  {| fs := dry_run_props.namesakes_tree;
     ticks := 0;
     self := {| output_dir := abs_path ["out"];
                config := config.DEFAULT_CONFIG;
                dry_run := false;
                undo_log := {| log_path := abs_path ["out"; "undo_log.json"];
                               _sessions := [];
                               next_ref := 0 |};
                _current_session := None |} |}.

Definition after_organize : state :=
  (organizer.run_session clock_within_a_second dry_run_props.two_namesakes
     real_mover_state).2.

Definition tampered : state :=
  set_fs (delete (abs_path ["out"; "Misc"; "x.xyz"]) (fs after_organize))
         after_organize.

Definition no_session : OrganizationSession :=
  {| session_id := "-"; session_timestamp := "-";
     source_directory := "-"; output_directory := "-";
     operations := []; completed := false |}.

Definition tampered_session : nat * OrganizationSession :=
  default (0, no_session) (last_completed tampered).

Lemma undo_last_session_continues_on_error_witness :
  exists outcomes t1,
    undo_trace (reverse (operations tampered_session.2)) (fs tampered)
               outcomes t1 /\
    length outcomes = length (operations tampered_session.2) /\
    (is_file t1 (Path_of_str (output_directory tampered_session.2)) = false ->
     exists r s2,
       undo_last_session tampered = (r, s2) /\
       sessions_of s2 =
         List.filter (fun rs : nat * OrganizationSession =>
                        negb (String.eqb (session_id rs.2)
                                (session_id tampered_session.2)))
                     (sessions_of tampered) /\
       (forall p c, p <> log_path (undo_log (self tampered)) ->
          fs s2 !! p = Some (File c) <-> t1 !! p = Some (File c)) /\
       ((exists flag msg,
           r = Ok (flag, msg, restored outcomes) /\
           (flag = true <-> failures outcomes = []) /\
           fs s2 !! log_path (undo_log (self s2)) =
             Some (File (Document (log_document (sessions_of s2))))) \/
        (exists e, r = Raise e /\ is_OSError e = true))).
Proof.
  apply (undo_last_session_continues_on_error tampered
           tampered_session.1 tampered_session.2).
  vm_compute. reflexivity.
Defined.

(** On that state the undo records one error and one move, and the
    session is gone from the log all the same. *)
Example undo_after_tampering :
  (undo_last_session tampered).1 =
    Ok (false, "Undo completed with 1 errors",
        [("/out/Misc/x_1.xyz", "/b/x.xyz")]) /\
  length (operations tampered_session.2) = 2 /\
  length (sessions_of tampered) = 1 /\
  sessions_of (undo_last_session tampered).2 = [] /\
  fs (undo_last_session tampered).2 !! abs_path ["b"; "x.xyz"] =
    Some (File (Bytes "from b")) /\
  fs (undo_last_session tampered).2 !! abs_path ["out"; "Misc"; "x_1.xyz"] =
    None /\
  fs (undo_last_session tampered).2 !! abs_path ["a"; "x.xyz"] = None.
Proof. repeat split; vm_compute; reflexivity. Qed.

End undo_props.

(** ** Destinations and the persisted document *)

Module plan_props.
Import Py str_props unique_props.
Import mover.

(** Every registry category has a relative path of proper names. *)
Definition relative_path_ok (c : categories.Category) : bool :=
  negb (String.prefix "/" (categories.path c)) &&
  forallb valid_name (Path_of_str (categories.path c)) &&
  negb (bool_decide (Path_of_str (categories.path c) = [])).

Lemma registry_paths_ok :
  forallb relative_path_ok categories.CATEGORIES_values = true.
Proof. vm_compute. reflexivity. Qed.

Lemma registry_dest_dir (c : categories.Category) (out : Path) :
  In c categories.CATEGORIES_values ->
  exists parts,
    truediv out (categories.path c) = parts ++ out /\
    Forall (fun n => valid_name n = true) parts /\ parts <> [].
Proof.
  intros Hin. pose proof registry_paths_ok as Hok.
  rewrite forallb_forall in Hok. apply Hok in Hin.
  unfold relative_path_ok in Hin.
  apply andb_true_iff in Hin as [[Hrel Hvalid]%andb_true_iff Hne].
  exists (Path_of_str (categories.path c)). split; [|split].
  - unfold truediv. apply negb_true_iff in Hrel. by rewrite Hrel.
  - apply Forall_forall. intros n Hn. rewrite forallb_forall in Hvalid.
    apply Hvalid. by apply list_elem_of_In.
  - apply negb_true_iff, bool_decide_eq_false in Hne. done.
Qed.

(** The names [_get_unique_path] makes up are proper names. *)
Lemma candidate_name_valid n up k :
  valid_name n = true ->
  valid_name (Path_stem (n :: up) +:+ "_" +:+ str_of_nat k +:+
              Path_suffix (n :: up)) = true.
Proof.
  intros (_ & _ & Hns)%valid_name_spec. apply valid_name_spec.
  change n with (Path_name (n :: up)) in Hns.
  rewrite <- stem_suffix in Hns. apply no_slash_app in Hns as [Hstem Hsuf].
  split; [|split].
  - intros E. apply (f_equal String.length) in E.
    rewrite !str_length_app in E. simpl in E. lia.
  - intros E. pose proof (f_equal String.length E) as Hlen.
    rewrite !str_length_app in Hlen. simpl in Hlen.
    destruct (Path_stem (n :: up)); [|simpl in Hlen; lia].
    rewrite str_app_nil_l in E. discriminate.
  - apply no_slash_app. split; [done|].
    apply no_slash_app. split; [done|].
    apply no_slash_app. split; [apply str_of_nat_no_slash|done].
Qed.

(** *** Reading back what [_save] wrote *)

Lemma MoveOperation_round_trip op :
  MoveOperation_from_dict (MoveOperation_to_dict op) = Ok op.
Proof. by destruct op. Qed.

Lemma mapM_MoveOperation_round_trip ops :
  mapM MoveOperation_from_dict (MoveOperation_to_dict <$> ops) = Ok ops.
Proof.
  induction ops as [|op ops IH]; [done|].
  cbn [fmap list_fmap mapM]. rewrite MoveOperation_round_trip.
  cbn [mbind result_bind]. rewrite IH. done.
Qed.

Lemma OrganizationSession_round_trip session :
  OrganizationSession_from_dict (OrganizationSession_to_dict session)
    = Ok session.
Proof.
  destruct session as [sid ts src out ops done].
  unfold OrganizationSession_from_dict, OrganizationSession_to_dict.
  cbn -[mapM MoveOperation_from_dict MoveOperation_to_dict].
  by rewrite mapM_MoveOperation_round_trip.
Qed.

Lemma decode_sessions_round_trip (l : list (nat * OrganizationSession)) :
  decode_sessions (ledger_props.log_document l) = Ok (snd <$> l).
Proof.
  unfold decode_sessions, ledger_props.log_document.
  cbn -[mapM OrganizationSession_from_dict OrganizationSession_to_dict].
  induction l as [|[r session] l IH]; [done|].
  cbn [fmap list_fmap mapM snd]. rewrite OrganizationSession_round_trip.
  cbn [mbind result_bind]. rewrite IH. done.
Qed.

End plan_props.

(** ** Organize, then undo *)

Module round_trip_props.
Import Py run_props str_props tree_props cleanup_props ledger_props.
Import unique_props dry_run_props undo_props plan_props.
Import config (Config, DEFAULT_CONFIG).
Import analyzer (AnalysisResult).
Import mover.

(** The content of the regular file at a path, if there is one. *)
Definition file_at (t : FS) (p : Path) : option content :=
  match t !! p with
  | Some (File c) => Some c
  | _ => None
  end.

Lemma file_at_Some t p c : file_at t p = Some c <-> t !! p = Some (File c).
Proof. unfold file_at. destruct (t !! p) as [[]|]; naive_solver. Qed.

Lemma file_at_insert_dir t p q :
  t !! q = None -> file_at (<[q := Dir]> t) p = file_at t p.
Proof.
  intros Hq. unfold file_at. destruct (decide (q = p)) as [->|Hne].
  - by rewrite lookup_insert_eq, Hq.
  - by rewrite lookup_insert_ne.
Qed.

(** *** Closed trees under the three updates *)

Lemma closed_no_child_of_file t p n :
  closed t -> t !! p <> Some Dir -> t !! (n :: p) = None.
Proof.
  intros Hc Hp. destruct (t !! (n :: p)) eqn:E; [|done].
  apply Hc in E. done.
Qed.

Lemma closed_delete t p :
  closed t -> t !! p <> Some Dir -> closed (delete p t).
Proof.
  intros Hc Hp n q x. destruct (decide (n :: q = p)) as [<-|Hne].
  { by rewrite lookup_delete_eq. }
  rewrite lookup_delete_ne by done. intros Hx.
  rewrite lookup_delete_ne; [by eapply Hc|].
  intros <-. apply Hc in Hx. done.
Qed.

Lemma closed_insert_file t p c :
  closed t -> t !! p <> Some Dir -> t !! Path_parent p = Some Dir ->
  p <> [] -> closed (<[p := File c]> t).
Proof.
  intros Hc Hp Hup Hne n q x. destruct (decide (n :: q = p)) as [<-|Hne'].
  - intros _. rewrite lookup_insert_ne; [done|].
    intros E. apply (f_equal length) in E. simpl in E. lia.
  - rewrite lookup_insert_ne by done. intros Hx.
    rewrite lookup_insert_ne; [by eapply Hc|].
    intros <-. apply Hc in Hx. done.
Qed.

(** In a closed tree a successful [mkdir_parents] finds no regular file at
    or above the path. *)
Lemma mkdir_parents_above t p t' q :
  closed t -> mkdir_parents t p = Ok t' -> q `suffix_of` p ->
  t' !! q = Some Dir /\ (t !! q = None \/ t !! q = Some Dir).
Proof.
  intros Hc Hmk Hs.
  pose proof (mkdir_parents_closed _ _ _ Hc Hmk) as Hc'.
  destruct (mkdir_parents_Ok _ _ _ Hmk) as [Hp Hch].
  assert (t' !! q = Some Dir) as Hq.
  { destruct (decide (q = p)) as [->|Hne]; [done|]. by eapply closed_above. }
  split; [done|]. destruct (Hch q) as [E|(? & _)]; [|by left].
  right. congruence.
Qed.

Section session.

Variable clock : nat -> datetime.
Variable out : Path.            (* the output root *)
Variable lname : string.        (* the file name of the log *)
Variable t0 : FS.               (* the tree before the run *)

Abbreviation log := (lname :: out).

(** Where a directory may turn up during the run and its undo: where one
    was before, or on the line through the output root. *)
Definition may_be_dir (p : Path) : Prop :=
  t0 !! p = Some Dir \/ p `suffix_of` out \/ out `suffix_of` p.

(** A file the run may move: a regular file of the initial tree that is
    neither in the output root nor on the way to it. *)
Definition movable (src : Path) : Prop :=
  is_file t0 src = true /\ ~ out `suffix_of` src /\ ~ src `suffix_of` out.

Lemma movable_not_dir src : movable src -> ~ may_be_dir src.
Proof.
  intros (Hfile & Hin & Hup) [Hd|[?|?]]; [|done..].
  unfold is_file in Hfile. by rewrite Hd in Hfile.
Qed.

Lemma movable_not_log src : movable src -> src <> log.
Proof. intros (_ & Hin & _) ->. apply Hin. by apply suffix_cons_r. Qed.

(** [F'] has the regular files of [F], the log apart, and at least its
    directories. *)
Definition ext (F F' : FS) : Prop :=
  (forall p, p <> log -> file_at F' p = file_at F p) /\
  (forall p, F !! p = Some Dir -> F' !! p = Some Dir).

(** The tree [X] met by the undo matches the tree [F] of the run: the same
    regular files, the log apart, and the directories of [F] among its
    own. *)
Definition sim (X F : FS) : Prop :=
  closed X /\
  (forall p, p <> log -> file_at X p = file_at F p) /\
  (forall p, F !! p = Some Dir -> X !! p = Some Dir) /\
  (forall p, X !! p = Some Dir -> may_be_dir p) /\
  is_file X log = true.

Lemma sim_ext X F F' : sim X F' -> ext F F' -> sim X F.
Proof.
  intros (Hc & Hf & Hd & Hm & Hl) [Hf' Hd'].
  split; [done|]. split; [|split; [|done]].
  - intros p Hp. by rewrite Hf, Hf'.
  - intros p Hp. by apply Hd, Hd'.
Qed.

Lemma ext_refl F : ext F F.
Proof. by split. Qed.

Lemma ext_trans F1 F2 F3 : ext F1 F2 -> ext F2 F3 -> ext F1 F3.
Proof.
  intros [Hf1 Hd1] [Hf2 Hd2]. split.
  - intros p Hp. by rewrite Hf2, Hf1.
  - intros p Hp. by apply Hd2, Hd1.
Qed.

(** Undoing [ops], last first, from any tree that matches [F'] restores
    every operation and ends on a tree that matches [F]. *)
Definition replay (ops : list MoveOperation) (F' F : FS) : Prop :=
  forall X, sim X F' ->
    exists X' outcomes,
      undo_trace (reverse ops) X outcomes X' /\
      failures outcomes = [] /\
      length (restored outcomes) = length ops /\
      sim X' F.

Lemma undo_trace_app ops1 ops2 t o1 t1 o2 t2 :
  undo_trace ops1 t o1 t1 -> undo_trace ops2 t1 o2 t2 ->
  undo_trace (ops1 ++ ops2) t (o1 ++ o2) t2.
Proof.
  induction 1; intros Hrest; simpl; [done|..].
  - apply undo_missing; auto.
  - eapply undo_restored; eauto.
  - eapply undo_no_parent; eauto.
  - eapply undo_not_moved; eauto.
Qed.

Lemma failures_app o1 o2 : failures (o1 ++ o2) = failures o1 ++ failures o2.
Proof. unfold failures. apply omap_app. Qed.

Lemma restored_app o1 o2 : restored (o1 ++ o2) = restored o1 ++ restored o2.
Proof. unfold restored. apply omap_app. Qed.

Lemma replay_nil F F' : ext F F' -> replay [] F' F.
Proof.
  intros Hext X HX. exists X, []. split; [constructor|].
  split; [done|]. split; [done|]. by eapply sim_ext.
Qed.

Lemma replay_app ops1 ops2 F0 F1 F2 :
  replay ops1 F1 F0 -> replay ops2 F2 F1 -> replay (ops1 ++ ops2) F2 F0.
Proof.
  intros H1 H2 X HX.
  destruct (H2 X HX) as (X1 & o2 & Htr2 & Hf2 & Hl2 & HX1).
  destruct (H1 X1 HX1) as (X0 & o1 & Htr1 & Hf1 & Hl1 & HX0).
  exists X0, (o2 ++ o1). rewrite reverse_app. split; [|split; [|split]].
  - by eapply undo_trace_app.
  - by rewrite failures_app, Hf2, Hf1.
  - rewrite restored_app, !length_app. lia.
  - done.
Qed.

Lemma replay_ext ops F0 F1 F2 :
  ext F0 F1 -> replay ops F2 F1 -> replay ops F2 F0.
Proof.
  intros Hext H X HX. destruct (H X HX) as (X' & o & ? & ? & ? & HX').
  exists X', o. split; [done|]. split; [done|]. split; [done|].
  by eapply sim_ext.
Qed.

(** *** [shutil.move] on a regular file *)

Lemma shutil_move_file t src dst c :
  t !! src = Some (File c) -> t !! dst <> Some Dir ->
  t !! Path_parent dst = Some Dir ->
  shutil_move t src dst = Ok (<[dst := File c]> (delete src t)).
Proof.
  intros Hsrc Hdst Hup. unfold shutil_move, is_dir, rename_or_copy.
  rewrite Hsrc, Hup. by destruct (t !! dst) as [[]|].
Qed.

Lemma shutil_move_missing t src dst :
  t !! src = None -> t !! dst <> Some Dir ->
  shutil_move t src dst = Raise FileNotFoundError.
Proof.
  intros Hsrc Hdst. unfold shutil_move, is_dir, rename_or_copy.
  rewrite Hsrc. by destruct (t !! dst) as [[]|].
Qed.

(** *** The state of a real run *)

Hypothesis wf0 : wf t0.
Hypothesis out_valid : Forall (fun n => valid_name n = true) out.
Hypothesis lname_valid : valid_name lname = true.

Definition with_operation (session : OrganizationSession)
    (operation : MoveOperation) : OrganizationSession :=
  {| session_id := session_id session;
     session_timestamp := session_timestamp session;
     source_directory := source_directory session;
     output_directory := output_directory session;
     operations := operations session ++ [operation];
     completed := completed session |}.

Definition with_completed (session : OrganizationSession)
    : OrganizationSession :=
  {| session_id := session_id session;
     session_timestamp := session_timestamp session;
     source_directory := source_directory session;
     output_directory := output_directory session;
     operations := operations session;
     completed := true |}.

(** What holds of the state between the calls of a real session: [r] is
    the session object of the run, last in the log after the sessions [L]
    found at the start, and the document on disk is the log in memory. *)
Definition running (r : nat) (L : list (nat * OrganizationSession))
    (session : OrganizationSession) (s : state) : Prop :=
  closed (fs s) /\
  (forall p, fs s !! p = Some Dir -> may_be_dir p) /\
  fs s !! out = Some Dir /\
  dry_run (self s) = false /\
  output_dir (self s) = out /\
  log_path (undo_log (self s)) = log /\
  _current_session (self s) = Some r /\
  sessions_of s = L ++ [(r, session)] /\
  (r ∉ L.*1) /\
  fs s !! log = Some (File (Document (log_document (sessions_of s)))).

(** Saving goes through whenever the log file and its directory are in
    place. *)
Lemma _save_in_place s c :
  log_path (undo_log (self s)) = log ->
  fs s !! out = Some Dir -> fs s !! log = Some (File c) ->
  _save s =
    (Ok tt,
     set_fs (<[log := File (Document (log_document (sessions_of s)))]> (fs s))
            s).
Proof.
  intros Hlog Hout Hfile. rewrite _save_run. cbv zeta. rewrite Hlog.
  cbn [Path_parent tail]. rewrite (mkdir_parents_dir _ _ Hout).
  unfold write_file. cbn [Path_parent tail]. by rewrite Hfile, Hout.
Qed.

Lemma update_last (r : nat) (L : list (nat * OrganizationSession))
    (session : OrganizationSession) f :
  r ∉ L.*1 ->
  (fun rs : nat * OrganizationSession =>
     if bool_decide (rs.1 = r) then (rs.1, f rs.2) else rs)
    <$> (L ++ [(r, session)]) = L ++ [(r, f session)].
Proof.
  intros Hr. rewrite fmap_app. f_equal.
  - induction L as [|[r' x] L IH]; [done|].
    apply not_elem_of_cons in Hr as [Hne Hr]. cbn [fmap list_fmap fst].
    rewrite bool_decide_eq_false_2 by done. by rewrite IH.
  - cbn [fmap list_fmap fst snd]. by rewrite bool_decide_eq_true_2.
Qed.

(** The log after the session object has been changed by [f] and
    saved. *)
Lemma update_and_save r L session f s :
  running r L session s ->
  (update_session r f ≫= fun _ => _save) s =
    (Ok tt,
     set_fs (<[log := File (Document (log_document (L ++ [(r, f session)])))]>
               (fs s))
            (set_sessions (L ++ [(r, f session)]) s)).
Proof.
  intros (Hc & Hd & Hout & Hdry & Hod & Hlog & Hcur & Hs & Hr & Hdoc).
  rewrite run_bind. unfold update_session. rewrite run_modify.
  cbv beta iota. unfold sessions_of in Hs. rewrite Hs, (update_last _ _ _ _ Hr).
  erewrite _save_in_place; [done|done|done|exact Hdoc].
Qed.

Lemma running_update r L session f s :
  running r L session s ->
  running r L (f session)
    (set_fs (<[log := File (Document (log_document (L ++ [(r, f session)])))]>
               (fs s))
            (set_sessions (L ++ [(r, f session)]) s)).
Proof.
  intros (Hc & Hd & Hout & Hdry & Hod & Hlog & Hcur & Hs & Hr & Hdoc).
  assert (log <> out) as Hne.
  { intros E. apply (f_equal length) in E. simpl in E. lia. }
  split; [|split; [|split; [|repeat split; try done]]]; cbn [fs set_fs].
  - apply closed_insert_file; [done|by rewrite Hdoc|done|done].
  - intros p. destruct (decide (p = log)) as [->|Hp].
    + by rewrite lookup_insert_eq.
    + rewrite lookup_insert_ne by done. apply Hd.
  - by rewrite lookup_insert_ne.
  - apply lookup_insert_eq.
Qed.

Lemma ext_update_log F c c' :
  F !! log = Some (File c) -> ext F (<[log := File c']> F).
Proof.
  intros Hl. split.
  - intros p Hp. unfold file_at. by rewrite lookup_insert_ne.
  - intros p Hp. rewrite lookup_insert_ne; [done|]. intros <-. congruence.
Qed.

(** *** One move and its reversal *)

Lemma suffix_app_cases (l k o : Path) :
  l `suffix_of` k ++ o -> l `suffix_of` o \/ o `suffix_of` l.
Proof.
  intros [x E]. symmetry in E.
  apply app_eq_inv in E as [(k' & -> & ->)|(k' & -> & ->)].
  - left. by exists k'.
  - right. by exists k'.
Qed.

Lemma movable_names src :
  movable src ->
  exists n up, src = n :: up /\ Forall (fun n => valid_name n = true) src.
Proof.
  intros (Hfile & _). destruct wf0 as (Hroot & _ & Hnames).
  unfold is_file in Hfile. destruct (t0 !! src) as [[c|]|] eqn:E; [|done..].
  destruct src as [|n up]; [congruence|].
  exists n, up. split; [done|]. by eapply Hnames.
Qed.

(** The destination of a move: a valid name in the directory of the
    category, which lies strictly under the output root. *)
Lemma destination_shape (t : FS) (result : AnalysisResult) :
  In (analyzer.category result) categories.CATEGORIES_values ->
  movable (scanner.path (analyzer.file_info result)) ->
  exists parts m,
    truediv out (categories.path (analyzer.category result)) = parts ++ out /\
    Forall (fun n => valid_name n = true) parts /\ parts <> [] /\
    valid_name m = true /\
    _get_unique_path t (planned out result) = Ok (m :: parts ++ out) /\
    t !! (m :: parts ++ out) = None.
Proof.
  intros Hcat Hmov.
  destruct (registry_dest_dir _ out Hcat) as (parts & Hdir & Hparts & Hne).
  destruct (movable_names _ Hmov) as (n & up & Hsrc & Hnames).
  assert (valid_name n = true) as Hn.
  { rewrite Hsrc in Hnames. by apply Forall_cons in Hnames as [? _]. }
  assert (planned out result = n :: parts ++ out) as Hplan.
  { unfold planned. rewrite Hdir, Hsrc. cbn [Path_name head default].
    by apply joinname_valid. }
  exists parts. rewrite Hplan.
  destruct (t !! (n :: parts ++ out)) as [x|] eqn:Hpath.
  - destruct (first_free_candidate t (n :: parts ++ out))
      as (k & Hk & Hfree & Hleast).
    eexists. split; [done|]. split; [done|]. split; [done|].
    split; [|split].
    2:{ apply _get_unique_path_taken with (k := k);
          [by rewrite Hpath|lia|done|done]. }
    + by apply candidate_name_valid.
    + exact Hfree.
  - exists n. split; [done|]. split; [done|]. split; [done|].
    split; [done|]. split; [by apply _get_unique_path_free|done].
Qed.

Lemma longer_ne (m : string) (parts : Path) (p : Path) :
  p `suffix_of` parts ++ out -> m :: parts ++ out <> p.
Proof.
  intros [k E] <-. apply (f_equal length) in E.
  rewrite !length_app in E. simpl in E. rewrite length_app in E. lia.
Qed.

Lemma under_category_not_log (m : string) (parts : Path) :
  parts <> [] -> m :: parts ++ out <> log.
Proof.
  intros Hne [= _ E]. apply (f_equal length) in E.
  rewrite length_app in E. destruct parts; [done|simpl in E; lia].
Qed.

Lemma replay_move F t1 src q c op doc :
  closed F -> movable src ->
  Forall (fun n => valid_name n = true) q -> q <> log ->
  F !! src = Some (File c) ->
  (forall p, t1 !! p = F !! p \/ (F !! p = None /\ t1 !! p = Some Dir)) ->
  t1 !! q = None ->
  is_file F log = true ->
  source op = str_of_path src -> destination op = str_of_path q ->
  replay [op] (<[log := File doc]> (<[q := File c]> (delete src t1))) F.
Proof.
  intros Hc Hmov Hq Hql Hsrc Hmk Hfree Hlog Hs Hd X (HXc & HXf & HXd & HXm & HXl).
  destruct (movable_names _ Hmov) as (n & up & Hsh & Hnames).
  pose proof (movable_not_dir _ Hmov) as Hnd.
  pose proof (movable_not_log _ Hmov) as Hnl.
  assert (src <> q) as Hsq.
  { intros ->. destruct (Hmk q) as [E|[E _]]; congruence. }
  assert (X !! q = Some (File c)) as HXq.
  { apply file_at_Some. rewrite HXf by done. apply file_at_Some.
    rewrite lookup_insert_ne by done. apply lookup_insert_eq. }
  assert (X !! Path_parent src = Some Dir) as HXup.
  { apply HXd. rewrite Hsh in Hsrc |- *. cbn [Path_parent tail].
    pose proof (Hc _ _ _ Hsrc) as Hup.
    assert (up <> log) as Hul.
    { intros ->. unfold is_file in Hlog. by rewrite Hup in Hlog. }
    rewrite lookup_insert_ne by done.
    rewrite lookup_insert_ne.
    2:{ intros <-. destruct (Hmk q) as [E|[E _]]; congruence. }
    rewrite lookup_delete_ne.
    2:{ intros E. apply (f_equal length) in E. simpl in E. lia. }
    destruct (Hmk up) as [E|[E _]]; congruence. }
  assert (X !! src <> Some Dir) as HXs.
  { intros E. by apply Hnd, HXm. }
  exists (<[src := File c]> (delete q X)),
         [inl (str_of_path q, str_of_path src)].
  split; [|split; [done|split; [done|]]].
  - change (reverse [op]) with [op].
    pose proof (undo_restored op [] X X
                  (<[src := File c]> (delete q X)) []
                  (<[src := File c]> (delete q X))) as Hstep.
    cbv zeta in Hstep. rewrite Hs, Hd in Hstep.
    rewrite !Path_of_str_of_path in Hstep by done.
    apply Hstep.
    + by rewrite HXq.
    + by apply mkdir_parents_dir.
    + by apply shutil_move_file.
    + constructor.
  - split; [|split; [|split; [|split]]].
    + apply closed_insert_file.
      * apply closed_delete; [done|by rewrite HXq].
      * rewrite lookup_delete_ne by done. done.
      * rewrite lookup_delete_ne; [done|]. intros E. rewrite <- E in HXup.
        congruence.
      * by rewrite Hsh.
    + intros p Hp. unfold file_at.
      destruct (decide (p = src)) as [->|Hps].
      { by rewrite lookup_insert_eq, Hsrc. }
      rewrite lookup_insert_ne by done.
      destruct (decide (p = q)) as [->|Hpq].
      { rewrite lookup_delete_eq.
        destruct (Hmk q) as [E|[E _]]; rewrite <- ?E, ?Hfree; [done|].
        by rewrite E. }
      rewrite lookup_delete_ne by done.
      specialize (HXf p Hp). unfold file_at in HXf. rewrite HXf.
      rewrite !lookup_insert_ne, lookup_delete_ne by done.
      destruct (Hmk p) as [E|[E1 E2]]; [by rewrite E|by rewrite E1, E2].
    + intros p Hp.
      assert (p <> src) as Hps by congruence.
      assert (t1 !! p = Some Dir) as Hp1.
      { destruct (Hmk p) as [E|[E _]]; congruence. }
      assert (p <> q) as Hpq by congruence.
      rewrite lookup_insert_ne, lookup_delete_ne by done.
      apply HXd. rewrite lookup_insert_ne.
      2:{ intros <-. unfold is_file in Hlog. by rewrite Hp in Hlog. }
      by rewrite lookup_insert_ne, lookup_delete_ne.
    + intros p Hp. destruct (decide (p = src)) as [->|Hps].
      { by rewrite lookup_insert_eq in Hp. }
      rewrite lookup_insert_ne in Hp by done.
      destruct (decide (p = q)) as [->|Hpq].
      { by rewrite lookup_delete_eq in Hp. }
      rewrite lookup_delete_ne in Hp by done. by apply HXm.
    + unfold is_file in *.
      by rewrite lookup_insert_ne, lookup_delete_ne.
Qed.

(** *** The forward run *)

Lemma running_tree r L session s t :
  running r L session s -> closed t ->
  (forall p, t !! p = Some Dir -> may_be_dir p) ->
  t !! out = Some Dir -> t !! log = fs s !! log ->
  running r L session (set_fs t (tick s)).
Proof.
  intros (Hc & Hd & Hout & Hdry & Hod & Hlog & Hcur & Hs & Hr & Hdoc)
         Hct Hdt Hot Hlt.
  repeat split; try done. cbn [fs set_fs]. by rewrite Hlt.
Qed.

Lemma mkdir_under_out F parts t1 :
  closed F -> (forall p, F !! p = Some Dir -> may_be_dir p) ->
  mkdir_parents F (parts ++ out) = Ok t1 ->
  closed t1 /\ (forall p, t1 !! p = Some Dir -> may_be_dir p) /\
  (forall p, t1 !! p = F !! p \/ (F !! p = None /\ t1 !! p = Some Dir)) /\
  t1 !! (parts ++ out) = Some Dir.
Proof.
  intros Hc Hd Hmk. destruct (mkdir_parents_Ok _ _ _ Hmk) as [Hp Hch].
  split; [by eapply mkdir_parents_closed|]. split; [|split; [|done]].
  - intros p Hp1. destruct (Hch p) as [E|(_ & _ & Hs)].
    + apply Hd. congruence.
    + right. by apply suffix_app_cases in Hs.
  - intros p. destruct (Hch p) as [E|(? & ? & _)]; auto.
Qed.

Lemma add_operation_run r L session op s :
  running r L session s ->
  add_operation r op s =
    (Ok tt,
     set_fs (<[log := File (Document
                 (log_document (L ++ [(r, with_operation session op)])))]>
               (fs s))
            (set_sessions (L ++ [(r, with_operation session op)]) s)).
Proof.
  intros H.
  exact (update_and_save r L session (fun x => with_operation x op) s H).
Qed.

Lemma complete_session_run r L session s :
  running r L session s ->
  complete_session r s =
    (Ok tt,
     set_fs (<[log := File (Document
                 (log_document (L ++ [(r, with_completed session)])))]>
               (fs s))
            (set_sessions (L ++ [(r, with_completed session)]) s)).
Proof.
  intros H. exact (update_and_save r L session with_completed s H).
Qed.

(** A classification result the run may be given. *)
Definition listed (result : AnalysisResult) : Prop :=
  In (analyzer.category result) categories.CATEGORIES_values /\
  movable (scanner.path (analyzer.file_info result)).

(** One call of [move_file] in a running session returns: either nothing
    was moved, and the tree has at most gained directories, or the move is
    in the log and on disk, and undoing it leads back. *)
Lemma move_file_step r L session s result :
  running r L session s -> listed result ->
  exists o s' session',
    move_file clock result s = (Ok o, s') /\
    running r L session' s' /\
    output_directory session' = output_directory session /\
    match o with
    | Some op => operations session' = operations session ++ [op] /\
                 replay [op] (fs s') (fs s)
    | None => session' = session /\ ext (fs s) (fs s')
    end.
Proof.
  intros Hrun [Hcat Hmov].
  pose proof Hrun as
    (Hc & Hd & Hout & Hdry & Hod & Hlog & Hcur & Hs & Hr & Hdoc).
  destruct (destination_shape (fs s) result Hcat Hmov)
    as (parts & m & Hdir & Hparts & Hne & Hm & Hq & Hfree).
  destruct (movable_names _ Hmov) as (n & up & Hsh & Hnames).
  set (src := scanner.path (analyzer.file_info result)) in *.
  set (q := m :: parts ++ out) in *.
  unfold move_file. run_step. run_step. unfold on_fs at 1, os_query.
  fold src. rewrite Hod. unfold planned in Hq. fold src in Hq.
  rewrite Hq, set_fs_same. cbv beta iota. run_step. unfold now at 1.
  cbv beta iota. rewrite Hdry. unfold negb. cbv beta iota.
  fold (tick s). rewrite Hdir.
  unfold try_catch. run_step. unfold on_fs at 1, os_call. cbn [fs tick].
  destruct (mkdir_parents_outcome (fs s) (parts ++ out))
    as [[t1 Emk]|(e & Emk & He)]; rewrite Emk; cbv beta iota.
  2:{ rewrite He. exists None, (tick s), session.
      split; [by rewrite <- (set_fs_same (tick s))|].
      split; [|split; [done|split; [done|apply ext_refl]]].
      rewrite <- (set_fs_same (tick s)). by apply running_tree. }
  destruct (mkdir_under_out _ _ _ Hc Hd Emk) as (Hc1 & Hd1 & Hch1 & Hdd).
  assert (t1 !! out = Some Dir) as Hout1.
  { destruct (Hch1 out) as [E|[E _]]; congruence. }
  assert (t1 !! log = fs s !! log) as Hlog1.
  { destruct (Hch1 log) as [E|[E _]]; congruence. }
  assert (t1 !! q = None) as Hfree1.
  { destruct (mkdir_parents_Ok _ _ _ Emk) as [_ Hch].
    destruct (Hch q) as [E|(_ & _ & Hsuf)]; [congruence|].
    by destruct (longer_ne m parts q). }
  assert (ext (fs s) t1) as Hext1.
  { split.
    - intros p _. unfold file_at.
      destruct (Hch1 p) as [E|[E1 E2]]; [by rewrite E|by rewrite E1, E2].
    - intros p Hp. destruct (Hch1 p) as [E|[E _]]; congruence. }
  run_step. unfold on_fs at 1, os_call. cbn [fs set_fs].
  destruct (t1 !! src) as [[c|]|] eqn:Esrc.
  - (* the file is there: it is moved and logged *)
    rewrite (shutil_move_file t1 src q c) by (by rewrite ?Hfree1).
    cbv beta iota. run_step. cbn [self set_fs tick]. rewrite Hcur.
    set (t2 := <[q := File c]> (delete src t1)).
    set (op := {| source := str_of_path src |}).
    assert (q <> log) as Hql by (by apply under_category_not_log).
    assert (src <> log) as Hsl by (by apply movable_not_log).
    assert (src <> q) as Hsq by congruence.
    assert (running r L session (set_fs t2 (tick s))) as Hrun2.
    { apply running_tree; [done|..].
      - apply closed_insert_file; [|by rewrite lookup_delete_ne, Hfree1| |done].
        + apply closed_delete; [done|by rewrite Esrc].
        + change (Path_parent q) with (parts ++ out).
          rewrite lookup_delete_ne; [done|]. intros E. rewrite E in Esrc.
          congruence.
      - intros p. unfold t2. destruct (decide (p = q)) as [->|Hpq].
        { by rewrite lookup_insert_eq. }
        rewrite lookup_insert_ne by done.
        destruct (decide (p = src)) as [->|Hps].
        { by rewrite lookup_delete_eq. }
        rewrite lookup_delete_ne by done. apply Hd1.
      - unfold t2. rewrite lookup_insert_ne, lookup_delete_ne; [done|..];
          congruence.
      - unfold t2. by rewrite lookup_insert_ne, lookup_delete_ne. }
    change (set_fs t2 (set_fs t1 (tick s))) with (set_fs t2 (tick s)).
    rewrite (add_operation_run _ _ _ op _ Hrun2). cbv beta iota.
    rewrite run_ret.
    eexists (Some op), _, (with_operation session op). split; [done|].
    split.
    { exact (running_update r L session (fun x => with_operation x op)
               _ Hrun2). }
    split; [done|]. split; [done|].
    cbn [fs set_fs set_sessions].
    assert (fs s !! src = Some (File c)) as Esrc0.
    { destruct (Hch1 src) as [E|[_ E]]; congruence. }
    apply replay_move; try done.
    + constructor; [done|]. apply Forall_app. split; [done|].
      exact out_valid.
    + unfold is_file. by rewrite Hdoc.
  - (* a directory cannot be in its place *)
    destruct (movable_not_dir _ Hmov). by apply Hd1.
  - (* the file is gone: nothing is moved *)
    rewrite (shutil_move_missing t1 src q) by (by rewrite ?Hfree1).
    cbv beta iota. change (is_OSError FileNotFoundError) with true.
    cbv beta iota. rewrite run_ret.
    exists None, (set_fs t1 (tick s)), session. split; [done|].
    split; [by apply running_tree|]. split; [done|]. split; [done|].
    exact Hext1.
Qed.

(** The loop of the run: every call returns, the operations it reports
    are those appended to the session, and undoing them leads back to the
    tree the loop started from. *)
Lemma move_all_spec r L session s results :
  running r L session s -> Forall listed results ->
  exists ops k s' session',
    organizer.move_all clock results s = (Ok (ops, k), s') /\
    running r L session' s' /\
    output_directory session' = output_directory session /\
    operations session' = operations session ++ ops /\
    replay ops (fs s') (fs s).
Proof.
  intros Hrun Hall. revert session s Hrun.
  induction Hall as [|result results Hres _ IH]; intros session s Hrun.
  - exists [], 0, s, session. split; [done|]. split; [done|].
    split; [done|]. split; [by rewrite app_nil_r|].
    apply replay_nil, ext_refl.
  - destruct (move_file_step _ _ _ _ _ Hrun Hres)
      as (o & s1 & session1 & Hmv & Hrun1 & Hout1 & Ho).
    destruct (IH _ _ Hrun1) as (ops & k & s2 & session2 & Hrest & Hrun2 &
                                Hout2 & Hops2 & Hrep2).
    cbn [organizer.move_all]. rewrite run_bind, Hmv. cbv beta iota.
    rewrite run_bind, Hrest. cbv beta iota.
    destruct o as [op|].
    + destruct Ho as [Hops1 Hrep1].
      exists (op :: ops), k, s2, session2. split; [done|]. split; [done|].
      split; [congruence|]. split.
      * rewrite Hops2, Hops1, <- app_assoc. done.
      * change (op :: ops) with ([op] ++ ops). by eapply replay_app.
    + destruct Ho as [-> Hext].
      exists ops, (S k), s2, session2. split; [done|]. split; [done|].
      split; [done|]. split; [done|]. by eapply replay_ext.
Qed.

(** *** The start of the session *)

Variable cfg : Config.
Hypothesis cfg_log : config.undo_log_file cfg = lname.

Lemma mover_loaded dry t mover :
  FileMover__init__ out (Some cfg) dry t = Ok mover ->
  exists sessions,
    _load log t = Ok sessions /\
    output_dir mover = out /\ dry_run mover = dry /\
    _current_session mover = None /\
    log_path (undo_log mover) = log /\
    _sessions (undo_log mover) = zip (seq 0 (length sessions)) sessions /\
    next_ref (undo_log mover) = length sessions.
Proof.
  unfold FileMover__init__, UndoLog__init__. cbv zeta.
  change (default DEFAULT_CONFIG (Some cfg)) with cfg.
  rewrite cfg_log, truediv_name by done.
  destruct (_load log t) as [sessions| |]; cbn; intros [= <-].
  exists sessions. by repeat split.
Qed.

Lemma fst_zip_seq {A} (l : list A) :
  (zip (seq 0 (length l)) l).*1 = seq 0 (length l).
Proof. apply fst_zip. by rewrite length_seq. Qed.

Lemma start_session_spec mover src_dir n0 s1 :
  FileMover__init__ out (Some cfg) false t0 = Ok mover ->
  start_session clock src_dir {| fs := t0; ticks := n0; self := mover |} =
    (Ok tt, s1) ->
  exists r L session,
    running r L session s1 /\ operations session = [] /\
    output_directory session = str_of_path out /\
    (forall p, p <> log -> file_at (fs s1) p = file_at t0 p) /\
    (forall src, is_file t0 src = true -> ~ src `suffix_of` out).
Proof.
  intros (sessions & Hload & Hod & Hdry & Hcur & Hlog & Hs & Hnext)%mover_loaded.
  unfold start_session. run_step. cbn [self]. rewrite Hdry.
  unfold negb. cbv beta iota. rewrite run_bind. unfold create_session.
  rewrite run_bind. unfold now at 1. cbv beta iota.
  rewrite run_bind. unfold now at 1. cbv beta iota.
  run_step. run_step. run_step. rewrite run_bind, _save_run. cbv zeta.
  cbn [fs self set_sessions set_next_ref undo_log log_path ticks].
  rewrite Hlog, Hod, Hs, Hnext. cbn [Path_parent tail].
  unfold sessions_of.
  cbn [fs self set_sessions set_next_ref undo_log _sessions].
  destruct (mkdir_parents t0 out) as [t1|e|] eqn:Emk; [|intros [=]..].
  match goal with |- context [write_file t1 log ?d] =>
    destruct (write_file t1 log d) as [t2|e|] eqn:Ew end;
    cbv beta iota; [|intros [=]..].
  rewrite run_ret, run_modify. intros [= <-].
  apply write_file_Ok in Ew as (-> & Hnd & Hup). cbn [Path_parent tail] in Hup.
  pose proof (mkdir_parents_closed _ _ _ (wf_closed _ wf0) Emk) as Hc1.
  destruct (mkdir_parents_Ok _ _ _ Emk) as [_ Hch].
  assert (log <> out) as Hne.
  { intros E. apply (f_equal length) in E. simpl in E. lia. }
  eexists (length sessions), (zip (seq 0 (length sessions)) sessions), _.
  split; [|split; [|split; [|split]]].
  - split; [|split; [|split; [|repeat split; try done]]];
      cbn [fs set_fs set_sessions set_next_ref set_current_session].
    + by apply closed_insert_file.
    + intros p. destruct (decide (p = log)) as [->|Hp].
      { by rewrite lookup_insert_eq. }
      rewrite lookup_insert_ne by done. intros Hd.
      destruct (Hch p) as [E|(_ & _ & Hsuf)]; [left; congruence|by right; left].
    + by rewrite lookup_insert_ne.
    + rewrite fst_zip_seq, elem_of_seq. lia.
    + apply lookup_insert_eq.
  - done.
  - done.
  - intros p Hp. cbn [fs set_fs set_sessions set_next_ref set_current_session].
    unfold file_at. rewrite lookup_insert_ne by done.
    destruct (Hch p) as [E|(E1 & E2 & _)]; [by rewrite E|by rewrite E1, E2].
  - intros src Hfile Hsuf.
    destruct (mkdir_parents_above _ _ _ _ (wf_closed _ wf0) Emk Hsuf)
      as [_ [E|E]]; unfold is_file in Hfile; by rewrite E in Hfile.
Qed.


(** *** The whole run *)

(** What [organize_files] leaves behind when it returns: the completed
    session, last in the log document, lists the operations reported,
    and undoing them from the tree it leaves leads to a tree [X'] that
    matches a tree [F1] with the regular files of the initial one. *)
Lemma organize_spec results n0 ops k w1 :
  Forall (fun result =>
            In (analyzer.category result) categories.CATEGORIES_values /\
            is_file t0 (scanner.path (analyzer.file_info result)) = true /\
            ~ out `suffix_of` scanner.path (analyzer.file_info result))
         results ->
  organizer.organize_files clock results out cfg false (t0, n0) =
    (Ok (ops, k), w1) ->
  exists L r sc F1 X' outcomes,
    w1.1 !! log = Some (File (Document (log_document (L ++ [(r, sc)])))) /\
    completed sc = true /\ output_directory sc = str_of_path out /\
    operations sc = ops /\
    F1 !! out = Some Dir /\
    (forall p, p <> log -> file_at F1 p = file_at t0 p) /\
    undo_trace (reverse ops) w1.1 outcomes X' /\
    failures outcomes = [] /\ length (restored outcomes) = length ops /\
    sim X' F1.
Proof.
  intros Hall. unfold organizer.organize_files, organizer.with_mover.
  cbn [fst snd].
  destruct (FileMover__init__ out (Some cfg) false t0) as [mover|e|] eqn:Einit;
    [|intros [=]..].
  unfold organizer.run_session. rewrite run_bind.
  match goal with |- context [start_session clock ?d ?s] =>
    destruct (start_session clock d s) as [[[]|e|] s1] eqn:Est end;
    [|intros [=]..].
  destruct (start_session_spec _ _ _ _ Einit Est)
    as (r & L & session & Hrun1 & Hops1 & Hout1 & Hfiles1 & Hup).
  assert (Forall listed results) as Hlisted.
  { eapply Forall_impl; [exact Hall|]. intros result (Hcat & Hfile & Hin).
    split; [done|]. split; [done|]. split; [done|]. by apply Hup. }
  destruct (move_all_spec _ _ _ _ _ Hrun1 Hlisted)
    as (ops' & k' & s2 & session2 & Hmv & Hrun2 & Hout2 & Hops2 & Hrep).
  rewrite run_bind, Hmv. cbv beta iota.
  pose proof Hrun2 as
    (Hc & Hd & Hout & Hdry & Hod & Hlog & Hcur & Hs & Hr & Hdoc).
  rewrite run_bind. unfold end_session. run_step. rewrite Hcur, Hdry.
  unfold negb. cbv beta iota.
  rewrite (complete_session_run _ _ _ _ Hrun2). cbv beta iota.
  rewrite run_ret. cbn [fs set_fs set_sessions ticks].
  intros [= <- <- <-]. cbn [fst].
  pose proof (running_update r L session2 with_completed _ Hrun2) as Hrun3.
  cbn [fs set_fs set_sessions] in Hrun3.
  set (F3 := <[log := _]> (fs s2)) in *.
  assert (sim F3 (fs s2)) as Hsim.
  { destruct Hrun3 as (Hc3 & Hd3 & Hout3 & _ & _ & _ & _ & _ & _ & Hdoc3).
    cbn [fs set_fs] in *.
    split; [done|]. split; [|split; [|split; [done|]]].
    - intros p Hp. unfold F3, file_at. by rewrite lookup_insert_ne.
    - intros p Hp. unfold F3. rewrite lookup_insert_ne; [done|].
      intros <-. congruence.
    - unfold is_file. by rewrite Hdoc3. }
  destruct (Hrep F3 Hsim) as (X' & outcomes & Htr & Hfail & Hlen & HX').
  exists L, r, (with_completed session2), (fs s1), X', outcomes.
  split; [apply lookup_insert_eq|]. split; [done|].
  split; [cbn; congruence|]. cbn [with_completed operations].
  rewrite Hops2, Hops1. cbn [app].
  destruct Hrun1 as (_ & _ & Hout1' & _). done.
Qed.

(** *** The undo *)

Lemma undo_trace_det ops t o1 t1 o2 t2 :
  undo_trace ops t o1 t1 -> undo_trace ops t o2 t2 -> o1 = o2 /\ t1 = t2.
Proof.
  clear. intros HA. revert o2 t2.
  induction HA; intros oB tB HB; inversion HB; subst;
    repeat match goal with x := _ |- _ => subst x end;
    try congruence;
    repeat match goal with
           | H1 : ?x = Ok _, H2 : ?x = Ok _ |- _ =>
               rewrite H1 in H2; injection H2 as <-
           | H1 : ?x = Raise _, H2 : ?x = Raise _ |- _ =>
               rewrite H1 in H2; injection H2 as <-
           end;
    try match goal with
        | IH : forall o t, undo_trace ?ops ?t0 o t -> _,
          H : undo_trace ?ops ?t0 _ _ |- _ =>
            destruct (IH _ _ H) as [-> ->]
        end;
    done.
Qed.

Lemma zip_seq_snoc {A} (l : list A) (x : A) :
  zip (seq 0 (length (l ++ [x]))) (l ++ [x]) =
  zip (seq 0 (length l)) l ++ [(length l, x)].
Proof.
  rewrite length_app. cbn [length]. rewrite seq_app. cbn [seq].
  rewrite zip_with_app by (by rewrite length_seq). done.
Qed.

(** A mover built on a tree whose log document lists [l] holds these
    sessions, numbered anew. *)
Lemma mover_reload dry t (l : list (nat * OrganizationSession)) :
  t !! log = Some (File (Document (log_document l))) ->
  FileMover__init__ out (Some cfg) dry t =
    Ok {| output_dir := out; config := cfg; dry_run := dry;
          undo_log := {| log_path := log;
                         _sessions := zip (seq 0 (length l.*2)) l.*2;
                         next_ref := length l.*2 |};
          _current_session := None |}.
Proof.
  intros Hdoc. unfold FileMover__init__, UndoLog__init__. cbv zeta.
  change (default DEFAULT_CONFIG (Some cfg)) with cfg.
  rewrite cfg_log, truediv_name by done.
  unfold _load, exists_, decode_log, read_json. rewrite Hdoc.
  cbn [mbind result_bind]. rewrite decode_sessions_round_trip.
  reflexivity.
Qed.

Lemma children_insert t p x d :
  children t d <> [] -> children (<[p := x]> t) d <> [].
Proof.
  intros Hne. destruct (children t d) as [|c kids] eqn:E; [done|].
  assert (c ∈ children t d) as Hc by (rewrite E; left).
  apply elem_of_children in Hc as (n & -> & Hin).
  assert (n :: d ∈ children (<[p := x]> t) d) as Hc'.
  { apply elem_of_children. exists n. split; [done|].
    destruct (decide (p = n :: d)) as [->|Hp].
    - rewrite lookup_insert_eq. eauto.
    - by rewrite lookup_insert_ne. }
  intros E'. rewrite E' in Hc'. by apply elem_of_nil in Hc'.
Qed.

Lemma last_completed_reload (L : list (nat * OrganizationSession)) r sc :
  completed sc = true ->
  List.find (fun rs : nat * OrganizationSession => completed rs.2)
    (reverse (zip (seq 0 (length (L ++ [(r, sc)]).*2)) (L ++ [(r, sc)]).*2))
  = Some (length L.*2, sc).
Proof.
  intros Hsc. rewrite fmap_app. cbn [fmap list_fmap snd].
  rewrite zip_seq_snoc, reverse_app. cbn [reverse rev_append app List.find snd].
  by rewrite Hsc.
Qed.

(** Undoing a completed session whose operations can all be restored. *)
Lemma undo_spec w L r sc F1 X' outcomes :
  w.1 !! log = Some (File (Document (log_document (L ++ [(r, sc)])))) ->
  completed sc = true -> output_directory sc = str_of_path out ->
  undo_trace (reverse (operations sc)) w.1 outcomes X' ->
  failures outcomes = [] -> sim X' F1 -> F1 !! out = Some Dir ->
  exists msg w2,
    organizer.undo_organization out cfg w =
      (Ok (true, msg, restored outcomes), w2) /\
    (forall p, p <> log -> file_at w2.1 p = file_at F1 p) /\
    (forall d, out `suffix_of` d -> d <> out -> w2.1 !! d = Some Dir ->
               children w2.1 d <> []).
Proof.
  intros Hdoc Hsc Hod Htr Hfail (HXc & HXf & HXd & HXm & HXl) Hout.
  unfold organizer.undo_organization, organizer.with_mover.
  rewrite (mover_reload false _ _ Hdoc).
  set (su := {| fs := w.1 |}).
  unfold undo_last_session. rewrite run_bind, get_last_session_run.
  unfold last_completed, sessions_of. cbn [self su undo_log _sessions].
  rewrite last_completed_reload by done. cbv beta iota.
  rewrite run_bind.
  destruct (undo_operations_trace (reverse (operations sc)) [] [] su)
    as (o2 & t2 & Htr2 & ->).
  destruct (undo_trace_det _ _ _ _ _ _ Htr Htr2) as [<- <-].
  cbv beta iota. cbn [app]. rewrite Hfail.
  run_step. rewrite run_bind. unfold on_fs at 1. cbn [fs set_fs self su output_dir].
  rewrite Hod, Path_of_str_of_path by exact out_valid.
  destruct (cleanup_spec (cleanup_fuel X') out out X' HXc
              (cleanup_fuel_enough _ _) (HXd _ Hout))
    as (t' & -> & Hc' & Hch' & Hfull').
  cbv beta iota. rewrite run_bind. unfold remove_session.
  rewrite run_bind, run_modify. cbv beta iota.
  assert (t' !! out = Some Dir) as Hout'.
  { destruct (Hch' out) as [E|(_ & _ & _ & ? & _)]; [|done].
    rewrite E. by apply HXd. }
  assert (exists c, X' !! log = Some (File c)) as [c Hlog].
  { unfold is_file in HXl. destruct (X' !! log) as [[c|]|]; eauto; done. }
  assert (t' !! log = Some (File c)) as Hlog'.
  { destruct (Hch' log) as [E|(_ & E & _)]; congruence. }
  erewrite _save_in_place; [|done|exact Hout'|exact Hlog'].
  cbv beta iota. rewrite run_ret.
  eexists _, _. split; [done|]. cbn [fst fs set_fs set_sessions].
  split.
  - intros p Hp. unfold file_at. rewrite lookup_insert_ne by done.
    specialize (HXf p Hp). unfold file_at in HXf. rewrite <- HXf.
    destruct (Hch' p) as [E|(_ & E1 & E2 & _)]; [by rewrite E|].
    by rewrite E1, E2.
  - intros d Hsuf Hne Hd. apply children_insert.
    assert (d <> log) as Hdl.
    { intros ->. by rewrite lookup_insert_eq in Hd. }
    rewrite lookup_insert_ne in Hd by done.
    destruct (Hfull' d Hsuf Hd) as [?|[->|?]]; [done| |done].
    destruct Hsuf as [k E]. destruct k, out; done.
Qed.

End session.

(** [C1], amended.  Organize-then-undo round trip: for every list of
    classification results whose files are regular files of the initial
    tree lying outside the output root and whose categories are those of
    the registry, if organizing them in one session returns, then the
    undo that follows succeeds, restores as many files as were moved,
    and leaves every regular file other than the session log document
    where it was before the run, with its content: the tree after the
    undo has, at every path but that of the log, the same file content or
    absence of a file as the initial tree.  No directory under the output
    root, the root apart, is left empty.  The log document itself stays
    in the output root. *)
Theorem organize_then_undo_restores_files (clock : nat -> datetime)
    (t0 : FS) (out : Path) (cfg : Config) (results : list AnalysisResult) (n0 : nat)
    (ops : list MoveOperation) (skipped : nat) (w1 : FS * nat) :
  wf t0 ->
  Forall (fun n => valid_name n = true) out ->
  valid_name (config.undo_log_file cfg) = true ->
  Forall (fun result =>
            In (analyzer.category result) categories.CATEGORIES_values /\
            is_file t0 (scanner.path (analyzer.file_info result)) = true /\
            ~ out `suffix_of` scanner.path (analyzer.file_info result))
         results ->
  organizer.organize_files clock results out cfg false (t0, n0) =
    (Ok (ops, skipped), w1) ->
  exists msg moves w2,
    organizer.undo_organization out cfg w1 = (Ok (true, msg, moves), w2) /\
    length moves = length ops /\
    (forall p, p <> config.undo_log_file cfg :: out ->
               file_at w2.1 p = file_at t0 p) /\
    (forall d, out `suffix_of` d -> d <> out -> w2.1 !! d = Some Dir ->
               children w2.1 d <> []).
Proof.
  intros Hwf Hout Hlname Hall Hrun.
  destruct (organize_spec clock out _ t0 Hwf Hout Hlname cfg eq_refl
              results n0 ops skipped w1 Hall Hrun)
    as (L & r & sc & F1 & X' & outcomes & Hdoc & Hsc & Hod & Hops & HF1 &
        Hfiles & Htr & Hfail & Hlen & Hsim).
  rewrite <- Hops in Htr.
  destruct (undo_spec out _ t0 Hout Hlname cfg eq_refl
              w1 L r sc F1 X' outcomes Hdoc Hsc Hod Htr Hfail Hsim HF1)
    as (msg & w2 & Hundo & Hback & Hfull).
  exists msg, (restored outcomes), w2. split; [done|]. split; [done|].
  split; [|done]. intros p Hp. by rewrite Hback, Hfiles.
Qed.

(** *** A run on two files *)

(** An executable check of [wf], for trees given in full. *)
Definition wf_check (t : FS) : bool :=
  is_dir t [] &&
  forallb (fun kv : Path * node =>
             match kv.1 with
             | [] => true
             | _ :: up => is_dir t up
             end && forallb valid_name kv.1)
          (map_to_list t).

Lemma wf_check_sound t : wf_check t = true -> wf t.
Proof.
  unfold wf_check. intros [Hroot Hall]%andb_true_iff.
  rewrite forallb_forall in Hall.
  assert (forall p x, t !! p = Some x ->
            match p with [] => true | _ :: up => is_dir t up end = true /\
            forallb valid_name p = true) as Hall'.
  { intros p x Hp. apply andb_true_iff.
    apply (Hall (p, x)), list_elem_of_In, elem_of_map_to_list. done. }
  split; [|split].
  - unfold is_dir in Hroot. by destruct (t !! []) as [[]|].
  - intros n p x Hp. destruct (Hall' _ _ Hp) as [Hup _].
    unfold is_dir in Hup. by destruct (t !! p) as [[]|].
  - intros p x Hp. destruct (Hall' _ _ Hp) as [_ Hnames].
    rewrite forallb_forall in Hnames. apply Forall_forall.
    intros n Hn. by apply Hnames, list_elem_of_In.
Qed.

(** The two namesakes of [dry_run_props], organized for real into the
    default output root of the first one's directory. *)
Definition organized_root : Path := abs_path ["a"; "Organized"].

Definition organized : result (list MoveOperation * nat) * (FS * nat) :=
  organizer.organize_files clock_within_a_second two_namesakes organized_root
    DEFAULT_CONFIG false (namesakes_tree, 0).

Definition moved {S} (r : result (list MoveOperation * nat) * S)
    : list MoveOperation * nat :=
  match r.1 with
  | Ok x => x
  | _ => ([], 0)
  end.

(** [C1], as stated, fails: with the output root inside the source
    directory, which is where the default layout puts it, the session log
    document is still in the source directory after a successful undo,
    and it was not there before the run. *)
Lemma undo_leaves_the_log_in_the_source_directory :
  let logp := abs_path ["a"; "Organized"; "undo_log.json"] in
  let undone :=
    organizer.undo_organization organized_root DEFAULT_CONFIG organized.2 in
  destination <$> (moved organized).1 =
    ["/a/Organized/Misc/x.xyz"; "/a/Organized/Misc/x_1.xyz"] /\
  undone.1 = Ok (true, "Successfully undid 2 file moves",
                 [("/a/Organized/Misc/x_1.xyz", "/b/x.xyz");
                  ("/a/Organized/Misc/x.xyz", "/a/x.xyz")]) /\
  abs_path ["a"] `suffix_of` logp /\
  file_at namesakes_tree logp = None /\
  file_at undone.2.1 logp = Some (Document (JObj [("sessions", JArr [])])).
Proof.
  cbv zeta. split; [vm_compute; reflexivity|].
  split; [vm_compute; reflexivity|].
  split; [by exists ["undo_log.json"; "Organized"]|].
  split; vm_compute; reflexivity.
Qed.

Lemma organize_then_undo_restores_files_witness :
  exists msg moves w2,
    organizer.undo_organization organized_root DEFAULT_CONFIG organized.2 =
      (Ok (true, msg, moves), w2) /\
    length moves = length (moved organized).1 /\
    (forall p, p <> config.undo_log_file DEFAULT_CONFIG :: organized_root ->
               file_at w2.1 p = file_at namesakes_tree p) /\
    (forall d, organized_root `suffix_of` d -> d <> organized_root ->
               w2.1 !! d = Some Dir -> children w2.1 d <> []).
Proof.
  apply (organize_then_undo_restores_files clock_within_a_second
           namesakes_tree organized_root DEFAULT_CONFIG two_namesakes 0
           (moved organized).1 (moved organized).2 organized.2).
  - apply wf_check_sound. vm_compute. reflexivity.
  - repeat constructor.
  - vm_compute. reflexivity.
  - apply List.Forall_cons; [|apply List.Forall_cons; [|apply List.Forall_nil]];
      (split;
       [do 18 right; left; reflexivity
       |split; [vm_compute; reflexivity
               |apply (bool_decide_eq_false_1 _); vm_compute; reflexivity]]).
  - apply run_fst. vm_compute. reflexivity.
Defined.

End round_trip_props.

(* ===================================================================== *)
(** * Part III: further behaviour of the code                             *)
(* ===================================================================== *)

(** ** The registry lookups of [categories.py] *)

Module registry_props.
Import Py.
Import categories.

(** [List.find] returns the first element that passes the test. *)
Lemma find_first {A} (f : A -> bool) (l : list A) (x : A) :
  List.find f l = Some x ->
  exists before after,
    l = before ++ x :: after /\ f x = true /\
    Forall (fun y => f y = false) before.
Proof.
  induction l as [|y l IH]; [done|]. cbn [List.find].
  destruct (f y) eqn:Ey.
  - intros [= ->]. by exists [], l.
  - intros (before & after & -> & Hx & Hall)%IH.
    exists (y :: before), after. by repeat constructor.
Qed.

Lemma find_nothing {A} (f : A -> bool) (l : list A) :
  List.find f l = None -> Forall (fun y => f y = false) l.
Proof.
  intros H. apply Forall_forall. intros y Hy.
  eapply find_none; [exact H|]. by apply list_elem_of_In.
Qed.

Lemma lower_ascii_idemp c : lower_ascii (lower_ascii c) = lower_ascii c.
Proof.
  unfold lower_ascii.
  destruct ((65 <=? nat_of_ascii c) && (nat_of_ascii c <=? 90)) eqn:E;
    [|by rewrite E].
  apply andb_true_iff in E as [H1%Nat.leb_le H2%Nat.leb_le].
  rewrite nat_ascii_embedding by lia.
  destruct (65 <=? _) eqn:E1; [|done]. destruct (_ <=? 90) eqn:E2; [|done].
  apply Nat.leb_le in E2. lia.
Qed.

Lemma lower_idemp s : lower (lower s) = lower s.
Proof.
  induction s as [|c s IH]; [done|]. cbn [lower].
  by rewrite lower_ascii_idemp, IH.
Qed.

(** [X1] [get_category_by_extension] looks the extension up in lower
    case: it returns the first category of the registry, in declaration
    order, whose extension set holds the lower-cased extension, and
    [None] exactly when no category holds it.  The case of the argument
    does not matter. *)
Theorem get_category_by_extension_first_match (extension : string) :
  match get_category_by_extension extension with
  | Some c =>
      exists before after,
        CATEGORIES_values = before ++ c :: after /\
        lower extension ∈ extensions c /\
        Forall (fun c' => lower extension ∉ extensions c') before
  | None =>
      Forall (fun c => lower extension ∉ extensions c) CATEGORIES_values
  end /\
  get_category_by_extension (lower extension) =
    get_category_by_extension extension.
Proof.
  split.
  - unfold get_category_by_extension. cbv zeta.
    destruct (List.find _ CATEGORIES_values) as [c|] eqn:E.
    + apply find_first in E as (before & after & Hl & Hc & Hall).
      exists before, after. split; [done|].
      split; [by apply bool_decide_eq_true in Hc|].
      eapply Forall_impl; [exact Hall|]. intros c' Hc'.
      by apply bool_decide_eq_false in Hc'.
    + apply find_nothing in E. eapply Forall_impl; [exact E|].
      intros c Hc. by apply bool_decide_eq_false in Hc.
  - unfold get_category_by_extension. by rewrite lower_idemp.
Qed.

(** [X2] [get_category_by_keywords] returns the first category of the
    registry one of whose keywords occurs in the lower-cased file name,
    whatever the order in which the keywords of a category are tried, and
    [None] exactly when no keyword of any category occurs in it. *)
Theorem get_category_by_keywords_first_match (filename : string) :
  match get_category_by_keywords filename with
  | Some c =>
      exists before after,
        CATEGORIES_values = before ++ c :: after /\
        (exists k, k ∈ keywords c /\ str_in k (lower filename) = true) /\
        Forall (fun c' => forall k, k ∈ keywords c' ->
                            str_in k (lower filename) = false) before
  | None =>
      Forall (fun c => forall k, k ∈ keywords c ->
                         str_in k (lower filename) = false)
             CATEGORIES_values
  end.
Proof.
  assert (forall c : Category,
            existsb (fun keyword => str_in keyword (lower filename))
                    (elements (keywords c)) = false ->
            forall k, k ∈ keywords c -> str_in k (lower filename) = false)
    as Hnone.
  { intros c Hc k Hk. destruct (str_in k (lower filename)) eqn:E; [|done].
    rewrite <- Hc. symmetry. apply existsb_exists. exists k.
    split; [|done]. by apply list_elem_of_In, elem_of_elements. }
  unfold get_category_by_keywords. cbv zeta.
  destruct (List.find _ CATEGORIES_values) as [c|] eqn:E.
  - apply find_first in E as (before & after & Hl & Hc & Hall).
    exists before, after. split; [done|]. split.
    + apply existsb_exists in Hc as (k & Hk & Hin). exists k.
      split; [|done]. by apply elem_of_elements, list_elem_of_In.
    + eapply Forall_impl; [exact Hall|]. intros c'. apply Hnone.
  - apply find_nothing in E. eapply Forall_impl; [exact E|].
    intros c. apply Hnone.
Qed.

End registry_props.

(** ** The tiers of [analyze_file] *)

Module tier_props.
Import Py.
Import categories (Category, CATEGORIES, CATEGORIES_get, CATEGORIES_values,
                   get_category_by_extension, get_category_by_keywords,
                   get_fallback_category).
Import scanner (FileInfo).
Import analyzer analyzer_props registry_props.

Section backend.

Variable probe : bool.
Variable chat : string -> option string.
Variable json_loads : string -> option json.
Variable float_of_str : string -> option Q.
Variable format_size_mb : N -> string.

(** The rule-based tiers of [analyze_file], which it reaches when the
    model tier gave no result. *)
Definition rule_tiers (self : FileAnalyzer) (file_info : FileInfo)
    : result (FileAnalyzer * AnalysisResult) :=
  match get_category_by_extension (scanner.extension file_info) with
  | Some category =>
      Ok (self, {| file_info := file_info;
                   category := category;
                   confidence := 9 # 10;
                   reasoning :=
                     JStr ("Matched by file extension: " +:+
                           scanner.extension file_info);
                   method := "extension" |})
  | None =>
      match get_category_by_keywords (scanner.name file_info) with
      | Some category =>
          Ok (self, {| file_info := file_info;
                       category := category;
                       confidence := 7 # 10;
                       reasoning := JStr "Matched by filename keywords";
                       method := "keyword" |})
      | None =>
          category ← get_fallback_category;
          Ok (self, {| file_info := file_info;
                       category := category;
                       confidence := 3 # 10;
                       reasoning :=
                         JStr "No matching category found, using fallback";
                       method := "fallback" |})
      end
  end.

Lemma analyze_file_silent self file_info :
  model_tier_silent probe chat json_loads float_of_str format_size_mb
    self file_info ->
  exists self',
    analyze_file probe chat json_loads float_of_str format_size_mb
      self file_info = rule_tiers self' file_info.
Proof.
  intros Hsilent. unfold analyze_file.
  destruct Hsilent as [-> | [Hoff | [self' Hnone]]]; [by exists self| |].
  - destruct (has_content file_info); [|by exists self].
    destruct (ollama_available probe self) as [self1 available].
    simpl in Hoff. rewrite Hoff. by exists self1.
  - destruct (has_content file_info); [|by exists self].
    destruct (ollama_available probe self) as [self1 available].
    simpl in Hnone.
    destruct (default false available); [|by exists self1].
    rewrite Hnone. by exists self'.
Qed.

Lemma no_extension_registered extension :
  Forall (fun c => lower extension ∉ categories.extensions c)
         CATEGORIES_values ->
  get_category_by_extension extension = None.
Proof.
  intros Hall. unfold get_category_by_extension. cbv zeta.
  destruct (List.find _ CATEGORIES_values) as [c|] eqn:E; [|done].
  apply find_some in E as [Hin Hc%bool_decide_eq_true].
  rewrite Forall_forall in Hall. destruct (Hall c); [|done].
  by apply list_elem_of_In.
Qed.

Lemma keywords_found filename c :
  get_category_by_keywords filename = Some c ->
  In c CATEGORIES_values /\
  exists k, k ∈ categories.keywords c /\ str_in k (lower filename) = true.
Proof.
  unfold get_category_by_keywords. cbv zeta.
  intros [Hin (k & Hk & Hocc)%existsb_exists]%find_some.
  split; [exact Hin|].
  exists k. split; [|exact Hocc]. by apply elem_of_elements, list_elem_of_In.
Qed.

Lemma keywords_not_found filename c k :
  get_category_by_keywords filename = None ->
  In c CATEGORIES_values -> k ∈ categories.keywords c ->
  str_in k (lower filename) = false.
Proof.
  unfold get_category_by_keywords. cbv zeta. intros Hnone Hc Hk.
  pose proof (find_none _ _ Hnone c Hc) as Hno. cbv beta in Hno.
  destruct (str_in k (lower filename)) eqn:E; [|reflexivity].
  rewrite <- Hno. symmetry. apply existsb_exists. exists k.
  split; [|exact E]. by apply list_elem_of_In, elem_of_elements.
Qed.

Lemma no_keyword_occurs filename :
  Forall (fun c => forall k, k ∈ categories.keywords c ->
                     str_in k (lower filename) = false)
         CATEGORIES_values ->
  get_category_by_keywords filename = None.
Proof.
  intros Hall. unfold get_category_by_keywords. cbv zeta.
  destruct (List.find _ CATEGORIES_values) as [c|] eqn:E; [|done].
  apply find_some in E as [Hin (k & Hk & Hocc)%existsb_exists].
  rewrite Forall_forall in Hall.
  rewrite (Hall c) in Hocc; [done|by apply list_elem_of_In|].
  by apply elem_of_elements, list_elem_of_In.
Qed.

(** [X3] The keyword tier.  When the model tier gives no answer for a
    file, no category of the registry holds its lower-cased extension,
    and a keyword of some category occurs in its lower-cased name, then
    [analyze_file] returns a result with method keyword and confidence
    0.7, whose category is in the registry and has a keyword occurring in
    the lower-cased name. *)
Theorem analyze_file_keyword_tier self file_info :
  model_tier_silent probe chat json_loads float_of_str format_size_mb
    self file_info ->
  Forall (fun c => lower (scanner.extension file_info)
                     ∉ categories.extensions c) CATEGORIES_values ->
  (exists c k, In c CATEGORIES_values /\ k ∈ categories.keywords c /\
               str_in k (lower (scanner.name file_info)) = true) ->
  exists self' r,
    analyze_file probe chat json_loads float_of_str format_size_mb
      self file_info = Ok (self', r) /\
    method r = "keyword" /\ confidence r = (7 # 10)%Q /\
    reasoning r = JStr "Matched by filename keywords" /\
    In (category r) CATEGORIES_values /\
    exists k, k ∈ categories.keywords (category r) /\
              str_in k (lower (scanner.name file_info)) = true.
Proof.
  intros [self' ->]%analyze_file_silent Hext%no_extension_registered
         (c & k & Hc & Hk & Hocc).
  unfold rule_tiers. rewrite Hext.
  destruct (get_category_by_keywords _) as [c'|] eqn:Ekw.
  - apply keywords_found in Ekw as [Hin Hfound].
    eexists _, _. split; [reflexivity|].
    cbn [method confidence reasoning category].
    split; [reflexivity|]. split; [reflexivity|]. split; [reflexivity|].
    split; [exact Hin|exact Hfound].
  - rewrite (keywords_not_found _ c k Ekw Hc Hk) in Hocc. discriminate Hocc.
Qed.

(** [X4] The fallback tier.  When the model tier gives no answer, no
    category holds the lower-cased extension and no keyword of any
    category occurs in the lower-cased name, [analyze_file] returns the
    category Miscellaneous, whose path is Misc, with method fallback and
    confidence 0.3. *)
Theorem analyze_file_fallback_tier self file_info :
  model_tier_silent probe chat json_loads float_of_str format_size_mb
    self file_info ->
  Forall (fun c => lower (scanner.extension file_info)
                     ∉ categories.extensions c) CATEGORIES_values ->
  Forall (fun c => forall k, k ∈ categories.keywords c ->
                     str_in k (lower (scanner.name file_info)) = false)
         CATEGORIES_values ->
  exists self' r,
    analyze_file probe chat json_loads float_of_str format_size_mb
      self file_info = Ok (self', r) /\
    method r = "fallback" /\ confidence r = (3 # 10)%Q /\
    categories.name (category r) = "Miscellaneous" /\
    categories.path (category r) = "Misc" /\
    In (category r) CATEGORIES_values.
Proof.
  intros [self' ->]%analyze_file_silent Hext%no_extension_registered
         Hkw%no_keyword_occurs.
  unfold rule_tiers. rewrite Hext, Hkw.
  unfold get_fallback_category.
  assert (categories.name <$> CATEGORIES_get "misc" = Some "Miscellaneous")
    as Hname by (vm_compute; reflexivity).
  assert (categories.path <$> CATEGORIES_get "misc" = Some "Misc")
    as Hpath by (vm_compute; reflexivity).
  destruct (CATEGORIES_get "misc") as [c|] eqn:Ec; [|discriminate Hname].
  injection Hname as Hname. injection Hpath as Hpath.
  eexists _, _. split; [reflexivity|].
  cbn [method confidence category].
  split; [reflexivity|]. split; [reflexivity|].
  split; [exact Hname|]. split; [exact Hpath|].
  by eapply CATEGORIES_get_In.
Qed.

(** What the model tier returns when it returns a result. *)
Lemma _analyze_with_ai_Some self file_info self' x :
  _analyze_with_ai probe chat json_loads float_of_str format_size_mb
    self file_info = Ok (self', Some x) ->
  In (category x) CATEGORIES_values /\ (confidence x <= 1)%Q /\
  method x = "ai".
Proof.
  unfold _analyze_with_ai.
  destruct (_get_client probe self) as [self1 client].
  destruct client; cbn [negb]; [|by intros [= _ ?]].
  destruct (chat _) as [text|]; cbn [try_except mbind result_bind];
    [|by intros [= _ ?]].
  destruct (_parse_ai_response _ _ _ _) as [[y|]|e|] eqn:E;
    cbn [try_except mbind result_bind]; try (by intros [= _ ?]).
  intros [= _ ->].
  pose proof (_parse_ai_response_confidence_le_1 _ _ _ _ _ E) as Hle.
  apply _parse_ai_response_Some in E as (q & _ & Hm & _ & Hin). done.
Qed.

Lemma rule_tiers_in_range self file_info :
  exists r,
    rule_tiers self file_info = Ok (self, r) /\
    In (category r) CATEGORIES_values /\
    (confidence r = (9 # 10)%Q \/ confidence r = (7 # 10)%Q \/
     confidence r = (3 # 10)%Q) /\
    method r <> "ai".
Proof.
  unfold rule_tiers.
  destruct (get_category_by_extension _) as [c|] eqn:Eext.
  { eexists. split; [reflexivity|]. cbn [category confidence method].
    split; [|split; [by left|done]].
    unfold get_category_by_extension in Eext. by apply find_some in Eext as [? _]. }
  destruct (get_category_by_keywords _) as [c|] eqn:Ekw.
  { eexists. split; [reflexivity|]. cbn [category confidence method].
    split; [|split; [by right; left|done]].
    unfold get_category_by_keywords in Ekw. by apply find_some in Ekw as [? _]. }
  destruct get_fallback_category_Ok as [c Hc]. rewrite Hc.
  eexists. split; [reflexivity|]. cbn [category confidence method].
  split; [|split; [by right; right|done]].
  unfold get_fallback_category in Hc.
  destruct (CATEGORIES_get "misc") as [c'|] eqn:Ec; [|done].
  injection Hc as <-. by eapply CATEGORIES_get_In.
Qed.

(** [X5] Whatever the analyzer state, the backend and the file record,
    the category of the result of [analyze_file] is one of the registry,
    and the result either carries the method ai, or the method extension
    with confidence 0.9, or the method keyword with confidence 0.7, or
    the method fallback with confidence 0.3. *)
Theorem analyze_file_category_and_method self file_info :
  exists self' r,
    analyze_file probe chat json_loads float_of_str format_size_mb
      self file_info = Ok (self', r) /\
    In (category r) CATEGORIES_values /\
    (method r = "ai" \/
     (method r = "extension" /\ confidence r = (9 # 10)%Q) \/
     (method r = "keyword" /\ confidence r = (7 # 10)%Q) \/
     (method r = "fallback" /\ confidence r = (3 # 10)%Q)).
Proof.
  assert (forall self0, exists self' r,
            rule_tiers self0 file_info = Ok (self', r) /\
            In (category r) CATEGORIES_values /\
            (method r = "ai" \/
             (method r = "extension" /\ confidence r = (9 # 10)%Q) \/
             (method r = "keyword" /\ confidence r = (7 # 10)%Q) \/
             (method r = "fallback" /\ confidence r = (3 # 10)%Q)))
    as Hrules.
  { intros self0.
    destruct (rule_tiers_in_range self0 file_info)
      as (r & Hr & Hin & Hc & _).
    exists self0, r. split; [exact Hr|]. split; [exact Hin|]. right.
    revert Hr. unfold rule_tiers.
    destruct (get_category_by_extension _);
      [intros [= <-]; left; by split|].
    destruct (get_category_by_keywords _);
      [intros [= <-]; right; left; by split|].
    destruct get_fallback_category as [c| |]; cbn [mbind result_bind];
      [|discriminate..].
    intros [= <-]. right. right. by split. }
  unfold analyze_file. fold (rule_tiers).
  destruct (has_content file_info); [|apply Hrules].
  destruct (ollama_available probe self) as [self1 available].
  destruct (default false available); [|apply Hrules].
  destruct (_analyze_with_ai_Ok probe chat json_loads float_of_str
              format_size_mb self1 file_info) as (self2 & r & Hai & _).
  rewrite Hai. cbn [mbind result_bind]. destruct r as [x|]; [|apply Hrules].
  apply _analyze_with_ai_Some in Hai as (Hin & _ & Hm).
  exists self2, x. split; [reflexivity|]. split; [exact Hin|]. by left.
Qed.





End backend.

(** Executable forms of the two conditions on the registry. *)
Lemma no_extension_check (e : string) :
  forallb (fun c => negb (bool_decide (e ∈ categories.extensions c)))
          CATEGORIES_values = true ->
  Forall (fun c => e ∉ categories.extensions c) CATEGORIES_values.
Proof.
  rewrite forallb_forall. intros H. apply Forall_forall. intros c Hc.
  apply list_elem_of_In, H, negb_true_iff in Hc.
  by apply bool_decide_eq_false in Hc.
Qed.

Lemma no_keyword_check (n : string) :
  forallb (fun c => negb (existsb (fun k => str_in k n)
                            (elements (categories.keywords c))))
          CATEGORIES_values = true ->
  Forall (fun c => forall k, k ∈ categories.keywords c -> str_in k n = false)
         CATEGORIES_values.
Proof.
  rewrite forallb_forall. intros H. apply Forall_forall. intros c Hc k Hk.
  apply list_elem_of_In, H, negb_true_iff in Hc.
  destruct (str_in k n) eqn:E; [|done]. rewrite <- Hc. symmetry.
  apply existsb_exists. exists k. split; [|done].
  by apply list_elem_of_In, elem_of_elements.
Qed.


(** A file without content whose name carries a keyword of the registry
    and whose extension is not registered. *)
Definition meeting_notes : FileInfo :=
  {| scanner.path := abs_path ["src"; "Meeting_Notes.xyz"];
     scanner.name := "Meeting_Notes.xyz";
     scanner.extension := ".xyz";
     scanner.size_bytes := 1;
     scanner.content := None;
     scanner.mime_type := None |}.

Lemma analyze_file_keyword_tier_witness :
  exists self' r,
    analyze_file false (fun _ => None) (fun _ => None) (fun _ => None)
      (fun _ => "0.00") __init__ meeting_notes = Ok (self', r) /\
    method r = "keyword" /\ confidence r = (7 # 10)%Q /\
    reasoning r = JStr "Matched by filename keywords" /\
    In (category r) CATEGORIES_values /\
    exists k, k ∈ categories.keywords (category r) /\
              str_in k (lower (scanner.name meeting_notes)) = true.
Proof.
  apply (analyze_file_keyword_tier false (fun _ => None) (fun _ => None)
           (fun _ => None) (fun _ => "0.00") __init__ meeting_notes).
  - left. reflexivity.
  - apply no_extension_check. vm_compute. reflexivity.
  - eexists _, "meeting". split; [left; reflexivity|].
    split; vm_compute; reflexivity.
Defined.

Lemma analyze_file_fallback_tier_witness :
  exists self' r,
    analyze_file false (fun _ => None) (fun _ => None) (fun _ => None)
      (fun _ => "0.00") __init__ (dry_run_props.unknown_file "a") =
      Ok (self', r) /\
    method r = "fallback" /\ confidence r = (3 # 10)%Q /\
    categories.name (category r) = "Miscellaneous" /\
    categories.path (category r) = "Misc" /\
    In (category r) CATEGORIES_values.
Proof.
  apply (analyze_file_fallback_tier false (fun _ => None) (fun _ => None)
           (fun _ => None) (fun _ => "0.00") __init__
           (dry_run_props.unknown_file "a")).
  - left. reflexivity.
  - apply no_extension_check. vm_compute. reflexivity.
  - apply no_keyword_check. vm_compute. reflexivity.
Defined.





End tier_props.

(** ** Batches: [analyze_files]

    The loops that classify a list of files, in [analyzer.py] and in
    [organizer.py], without their progress reports. *)

Module analyzer_batch.
Import Py.
Import scanner (FileInfo).
Import analyzer.

Section backend.

Variable probe : bool.
Variable chat : string -> option string.
Variable json_loads : string -> option json.
Variable float_of_str : string -> option Q.
Variable format_size_mb : N -> string.

(** The loop both functions run on their analyzer. *)
Fixpoint analyze_each (self : FileAnalyzer) (files : list FileInfo)
    : result (FileAnalyzer * list AnalysisResult) :=
  match files with
  | [] => Ok (self, [])
  | file_info :: rest =>
      '(self, result) ← analyze_file probe chat json_loads float_of_str
                          format_size_mb self file_info;
      '(self, results) ← analyze_each self rest;
      Ok (self, result :: results)
  end.

(** [FileAnalyzer.analyze_files]. *)
Definition FileAnalyzer_analyze_files (self : FileAnalyzer)
    (files : list FileInfo) : result (FileAnalyzer * list AnalysisResult) :=
  analyze_each self files.

(** The module-level [analyze_files] of [analyzer.py]: a new analyzer. *)
Definition analyze_files (files : list FileInfo)
    : result (list AnalysisResult) :=
  '(_, results) ← FileAnalyzer_analyze_files __init__ files;
  Ok results.

(** [analyze_files] of [organizer.py]: in fast mode the availability flag
    is set to [False] before the loop; otherwise the property
    [ollama_available] is read, which probes the backend. *)
Definition organizer_analyze_files (files : list FileInfo)
    (fast_mode : bool) : result (list AnalysisResult) :=
  let analyzer := __init__ in
  let analyzer :=
    if fast_mode
    then {| _client := _client analyzer; _ollama_available := Some false |}
    else (ollama_available probe analyzer).1 in
  '(_, results) ← analyze_each analyzer files;
  Ok results.

End backend.

End analyzer_batch.

Module batch_props.
Import Py.
Import scanner (FileInfo).
Import analyzer analyzer_props tier_props analyzer_batch.

Section backend.

Variable probe : bool.
Variable chat : string -> option string.
Variable json_loads : string -> option json.
Variable float_of_str : string -> option Q.
Variable format_size_mb : N -> string.

Lemma analyze_file_returns self file_info :
  exists self' r,
    analyze_file probe chat json_loads float_of_str format_size_mb
      self file_info = Ok (self', r) /\
    analyzer.file_info r = file_info.
Proof.
  assert (forall self0, exists self' r,
            rule_tiers self0 file_info = Ok (self', r) /\
            analyzer.file_info r = file_info) as Hrules.
  { intros self0. unfold rule_tiers.
    destruct (categories.get_category_by_extension _); [by eexists _, _|].
    destruct (categories.get_category_by_keywords _); [by eexists _, _|].
    destruct get_fallback_category_Ok as [c ->]. by eexists _, _. }
  unfold analyze_file. fold rule_tiers.
  destruct (has_content file_info); [|apply Hrules].
  destruct (ollama_available probe self) as [self1 available].
  destruct (default false available); [|apply Hrules].
  destruct (_analyze_with_ai_Ok probe chat json_loads float_of_str
              format_size_mb self1 file_info) as (self2 & r & -> & Hr).
  cbn [mbind result_bind]. destruct r as [x|]; [|apply Hrules].
  destruct (Hr x eq_refl) as [Hx _]. by exists self2, x.
Qed.

(** With the availability flag down the backend is not consulted: the
    rule-based tiers decide, and the analyzer stays as it is. *)
Lemma analyze_file_off self file_info :
  _ollama_available self = Some false ->
  analyze_file probe chat json_loads float_of_str format_size_mb
    self file_info = rule_tiers self file_info.
Proof.
  intros Hoff. unfold analyze_file, ollama_available. rewrite Hoff.
  cbv zeta. rewrite Hoff. by destruct (has_content file_info).
Qed.

Lemma rule_tiers_returns self file_info :
  exists r, rule_tiers self file_info = Ok (self, r) /\
            analyzer.file_info r = file_info /\ method r <> "ai".
Proof.
  unfold rule_tiers.
  destruct (categories.get_category_by_extension _); [by eexists|].
  destruct (categories.get_category_by_keywords _); [by eexists|].
  destruct get_fallback_category_Ok as [c ->]. by eexists.
Qed.

(** [X8] [FileAnalyzer.analyze_files] returns, for every analyzer state
    and backend, one result per file, in the order of the files: the
    record of the i-th result is the i-th file.  No file is dropped and
    nothing is raised. *)
Theorem analyze_files_one_result_per_file self (files : list FileInfo) :
  exists self' results,
    FileAnalyzer_analyze_files probe chat json_loads float_of_str
      format_size_mb self files = Ok (self', results) /\
    analyzer.file_info <$> results = files.
Proof.
  unfold FileAnalyzer_analyze_files. revert self.
  induction files as [|file_info files IH]; intros self.
  - by exists self, [].
  - destruct (analyze_file_returns self file_info) as (self1 & r & Hr & Hinfo).
    destruct (IH self1) as (self2 & rs & Hrs & Hinfos).
    exists self2, (r :: rs). cbn [analyze_each]. rewrite Hr.
    cbn [mbind result_bind]. rewrite Hrs. cbn [mbind result_bind].
    split; [done|]. cbn [fmap list_fmap]. by rewrite Hinfo, Hinfos.
Qed.

Lemma analyze_each_off self files :
  _ollama_available self = Some false ->
  exists results,
    analyze_each probe chat json_loads float_of_str format_size_mb
      self files = Ok (self, results) /\
    analyzer.file_info <$> results = files /\
    Forall (fun r => method r <> "ai") results /\
    Forall2 (fun file_info r => rule_tiers self file_info = Ok (self, r))
            files results.
Proof.
  intros Hoff. induction files as [|file_info files IH].
  - exists []. by repeat constructor.
  - destruct (rule_tiers_returns self file_info) as (r & Hr & Hinfo & Hm).
    destruct IH as (rs & Hrs & Hinfos & Hms & Hall).
    exists (r :: rs). cbn [analyze_each]. rewrite analyze_file_off, Hr by done.
    cbn [mbind result_bind]. rewrite Hrs. cbn [mbind result_bind].
    split; [done|]. split; [cbn [fmap list_fmap]; by rewrite Hinfo, Hinfos|].
    split; by constructor.
Qed.

End backend.

(** [X9] Fast mode.  [analyze_files] of [organizer.py] in fast mode
    classifies every file by the rule-based tiers alone: it returns one
    result per file in order, none of them with the method ai, and the
    results are the same whatever the backend is or answers. *)
Theorem fast_mode_ignores_the_backend (files : list FileInfo) :
  exists results,
    analyzer.file_info <$> results = files /\
    Forall (fun r => method r <> "ai") results /\
    forall probe chat json_loads float_of_str format_size_mb,
      organizer_analyze_files probe chat json_loads float_of_str
        format_size_mb files true = Ok results.
Proof.
  set (off := {| _client := _client __init__;
                 _ollama_available := Some false |}).
  destruct (analyze_each_off false (fun _ => None) (fun _ => None)
              (fun _ => None) (fun _ => EmptyString) off files eq_refl)
    as (rs & _ & Hinfos & Hms & Hall).
  exists rs. split; [done|]. split; [done|].
  intros probe chat json_loads float_of_str format_size_mb.
  destruct (analyze_each_off probe chat json_loads float_of_str
              format_size_mb off files eq_refl) as (rs' & Hrs' & _ & _ & Hall').
  unfold organizer_analyze_files. cbv zeta. fold off. rewrite Hrs'.
  cbn [mbind result_bind]. f_equal.
  clear -Hall Hall'. revert rs' Hall'.
  induction Hall as [|f r fs rs Hr _ IH]; intros rs' Hall';
    inversion Hall' as [|? r' ? rs'' Hr' Hrest]; subst; [done|].
  rewrite Hr in Hr'. injection Hr' as <-. f_equal. by apply IH.
Qed.

End batch_props.

(** ** The move executor: what its calls return *)

Module executor_props.
Import Py run_props tree_props cleanup_props ledger_props.
Import unique_props dry_run_props undo_props plan_props.
Import analyzer (AnalysisResult).
Import mover.

Lemma rename_or_copy_OSError t src dst e :
  rename_or_copy t src dst = Raise e -> is_OSError e = true.
Proof.
  unfold rename_or_copy. destruct (t !! src) as [[c|]|]; [| |by intros [= <-]].
  - destruct (t !! dst) as [[]|]; destruct (t !! Path_parent dst) as [[]|];
      by intros [= <-].
  - destruct (bool_decide _); [by intros [= <-]|].
    destruct (t !! dst); [by intros [= <-]|].
    destruct (mkdir_parents_outcome t (Path_parent dst))
      as [[t' ->]|(e' & -> & He)]; cbn [mbind result_bind]; [done|].
    by intros [= <-].
Qed.

Lemma shutil_move_OSError t src dst e :
  shutil_move t src dst = Raise e -> is_OSError e = true.
Proof.
  unfold shutil_move. destruct (is_dir t dst); [|apply rename_or_copy_OSError].
  destruct (bool_decide _); [done|].
  destruct (exists_ t _); [by intros [= <-]|apply rename_or_copy_OSError].
Qed.

Section clock.

Variable clock : nat -> datetime.

(** Every exception a real move can meet is an [OSError], and
    [move_file] absorbs those. *)
Lemma move_file_returns s result :
  exists o s', move_file clock result s = (Ok o, s').
Proof.
  destruct (_get_unique_path_Ok (fs s) (planned (output_dir (self s)) result))
    as (q & Hq & _).
  unfold move_file. run_step. run_step. unfold on_fs at 1, os_query.
  fold (planned (output_dir (self s)) result). rewrite Hq, set_fs_same.
  cbv beta iota. run_step. unfold now at 1. cbv beta iota.
  destruct (dry_run (self s)); unfold negb; cbv beta iota; [by eexists _, _|].
  unfold try_catch. run_step. unfold on_fs at 1, os_call. cbn [fs].
  match goal with |- context [mkdir_parents (fs s) ?d] =>
    destruct (mkdir_parents_outcome (fs s) d) as [[t1 E]|(e & E & He)] end;
    rewrite E; cbv beta iota; [|rewrite He; by eexists _, _].
  run_step. unfold on_fs at 1, os_call. cbn [fs set_fs].
  match goal with |- context [shutil_move t1 ?a ?b] =>
    destruct (shutil_move_outcome t1 a b) as [[t2 E2]|[e E2]] end;
    rewrite E2; cbv beta iota.
  2:{ rewrite (shutil_move_OSError _ _ _ _ E2). by eexists _, _. }
  rewrite run_bind. cbn [self set_fs].
  destruct (_current_session (self s)) as [r|]; [|by eexists _, _].
  unfold add_operation. rewrite run_bind. unfold update_session.
  rewrite run_modify. cbv beta iota.
  match goal with |- context [_save ?x] =>
    destruct (_save_outcome x) as [(t3 & -> & _)|(e & s' & -> & He & _)] end;
    cbv beta iota; [by eexists _, _|].
  rewrite He. by eexists _, _.
Qed.

(** [X10] [move_file] returns in every state and for every result,
    in a dry run and in a real one: what can go wrong while the
    directory is created, the file is moved and the log is rewritten is
    an [OSError], and the call answers it with [None]. *)
Theorem move_file_never_raises (s : state) (result : AnalysisResult) :
  exists (o : option MoveOperation) (s' : state),
    move_file clock result s = (Ok o, s') /\
    (dry_run (self s) = true -> fs s' = fs s /\ is_Some o).
Proof.
  destruct (move_file_returns s result) as (o & s' & Hrun).
  exists o, s'. split; [done|]. intros Hdry.
  destruct (_get_unique_path_Ok (fs s) (planned (output_dir (self s)) result))
    as (q & Hq & _).
  rewrite (move_file_dry clock s result q Hdry Hq) in Hrun.
  injection Hrun as <- <-. split; [done|]. by eexists.
Qed.

(** [X11] [FileMover.organize_files] returns one entry per result, an
    operation or [None], in every state: the length of the list it
    returns is the number of results it was given. *)
Theorem organize_files_one_entry_per_result (results : list AnalysisResult)
    (s : state) :
  exists entries s',
    mover.organize_files clock results s = (Ok entries, s') /\
    length entries = length results.
Proof.
  revert s. induction results as [|result results IH]; intros s.
  - by exists [], s.
  - destruct (move_file_returns s result) as (o & s1 & Hmv).
    destruct (IH s1) as (entries & s2 & Hrest & Hlen).
    exists (o :: entries), s2. cbn [mover.organize_files].
    rewrite run_bind, Hmv. cbv beta iota. rewrite run_bind, Hrest.
    cbv beta iota. split; [done|]. cbn [length]. by rewrite Hlen.
Qed.

Lemma move_all_returns results s :
  exists ops skipped s',
    organizer.move_all clock results s = (Ok (ops, skipped), s') /\
    length ops + skipped = length results.
Proof.
  revert s. induction results as [|result results IH]; intros s.
  - by exists [], 0, s.
  - destruct (move_file_returns s result) as (o & s1 & Hmv).
    destruct (IH s1) as (ops & k & s2 & Hrest & Hlen).
    cbn [organizer.move_all]. rewrite run_bind, Hmv. cbv beta iota.
    rewrite run_bind, Hrest. cbv beta iota.
    destruct o as [op|].
    + exists (op :: ops), k, s2. split; [done|]. cbn [length]. lia.
    + exists ops, (S k), s2. split; [done|]. cbn [length]. lia.
Qed.

(** [X12] The counts of [organize_files] in [organizer.py]: when the
    run returns, the operations it lists and the files it counts as
    skipped add up to the results it was given, in a dry run and in a
    real one. *)
Theorem organize_files_accounts_for_every_result
    (results : list AnalysisResult) (output_dir : Path)
    (cfg : config.Config) (dry : bool) (w w' : FS * nat)
    (ops : list MoveOperation) (skipped : nat) :
  organizer.organize_files clock results output_dir cfg dry w =
    (Ok (ops, skipped), w') ->
  length ops + skipped = length results.
Proof.
  unfold organizer.organize_files, organizer.with_mover.
  destruct (FileMover__init__ output_dir (Some cfg) dry w.1) as [mover|e|];
    [|intros [=]..].
  unfold organizer.run_session. rewrite run_bind.
  match goal with |- context [start_session clock ?d ?s] =>
    destruct (start_session clock d s) as [[[]|e|] s1] end;
    [|intros [=]..].
  destruct (move_all_returns results s1) as (ops' & k & s2 & Hmv & Hlen).
  rewrite run_bind, Hmv. cbv beta iota. rewrite run_bind.
  destruct (end_session s2) as [[[]|e|] s3]; [|intros [=]..].
  rewrite run_ret. by intros [= <- <- _].
Qed.

End clock.

(** The two namesakes of [dry_run_props], organized for real. *)
Lemma organize_files_accounts_for_every_result_witness :
  length (round_trip_props.moved round_trip_props.organized).1 +
  (round_trip_props.moved round_trip_props.organized).2 =
  length two_namesakes.
Proof.
  apply (organize_files_accounts_for_every_result clock_within_a_second
           two_namesakes round_trip_props.organized_root
           config.DEFAULT_CONFIG false (namesakes_tree, 0)
           round_trip_props.organized.2).
  apply run_fst. vm_compute. reflexivity.
Defined.

End executor_props.

(** ** Cleaning up after an undo *)

Module housekeeping_props.
Import Py run_props tree_props cleanup_props ledger_props undo_props.
Import mover.

(** [X13] [_cleanup_empty_dirs] on a directory of a tree in which every
    entry sits in a directory: the call returns; it removes directories
    only, and only under the directory it is given, so every regular file
    stays where it is with its content; the output root of the mover is
    never removed; and afterwards no directory at or under the given one
    is empty, the output root (and the root of the tree) apart. *)
Theorem cleanup_empty_dirs_removes_empty_directories_only
    (out d : Path) (t : FS) :
  closed t -> t !! d = Some Dir ->
  exists t',
    _cleanup_empty_dirs (cleanup_fuel t) out d t = (Ok tt, t') /\
    (forall p c, t' !! p = Some (File c) <-> t !! p = Some (File c)) /\
    (forall p, t' !! p = Some Dir -> t !! p = Some Dir) /\
    (forall p, ~ d `suffix_of` p -> t' !! p = t !! p) /\
    t' !! out = t !! out /\
    (forall p, d `suffix_of` p -> t' !! p = Some Dir ->
               p <> out -> p <> [] -> children t' p <> []).
Proof.
  intros Hc Hd. pose proof (cleanup_total out d t Hc) as Htot.
  rewrite Hd in Htot. destruct Htot as (t' & Hrun & _ & Hch & Hfull).
  exists t'. split; [done|]. split; [|split; [|split; [|split]]].
  - intros p c. destruct (Hch p) as [->|(_ & E1 & E2 & _)]; [done|].
    rewrite E1, E2. split; discriminate.
  - intros p Hp. destruct (Hch p) as [<-|(_ & _ & E2 & _)]; [done|].
    congruence.
  - intros p Hp. by destruct (Hch p) as [?|(? & _)].
  - by destruct (Hch out) as [?|(_ & _ & _ & ? & _)].
  - intros p Hsuf Hp Hout Hroot. by destruct (Hfull p Hsuf Hp) as [?|[?|?]].
Qed.

(** An output root with an empty category directory and one that still
    holds a file. *)
Definition half_restored : FS :=
  list_to_map [([], Dir);
               (abs_path ["out"], Dir);
               (abs_path ["out"; "Images"], Dir);
               (abs_path ["out"; "Documents"], Dir);
               (abs_path ["out"; "Documents"; "Work"], Dir);
               (abs_path ["out"; "Misc"], Dir);
               (abs_path ["out"; "Misc"; "x.xyz"], File (Bytes "from a"))].

Lemma cleanup_empty_dirs_removes_empty_directories_only_witness :
  exists t',
    _cleanup_empty_dirs (cleanup_fuel half_restored) (abs_path ["out"])
      (abs_path ["out"]) half_restored = (Ok tt, t') /\
    (forall p c, t' !! p = Some (File c) <->
                 half_restored !! p = Some (File c)) /\
    (forall p, t' !! p = Some Dir -> half_restored !! p = Some Dir) /\
    (forall p, ~ abs_path ["out"] `suffix_of` p ->
               t' !! p = half_restored !! p) /\
    t' !! abs_path ["out"] = half_restored !! abs_path ["out"] /\
    (forall p, abs_path ["out"] `suffix_of` p -> t' !! p = Some Dir ->
               p <> abs_path ["out"] -> p <> [] -> children t' p <> []).
Proof.
  apply (cleanup_empty_dirs_removes_empty_directories_only
           (abs_path ["out"]) (abs_path ["out"]) half_restored).
  - apply wf_closed, round_trip_props.wf_check_sound. vm_compute. reflexivity.
  - vm_compute. reflexivity.
Defined.

(** On that tree the three empty directories go and the rest stays. *)
Example cleanup_half_restored :
  (map_to_list
     (_cleanup_empty_dirs (cleanup_fuel half_restored) (abs_path ["out"])
        (abs_path ["out"]) half_restored).2).*1 =
  (map_to_list
     (list_to_map [([], Dir);
                   (abs_path ["out"], Dir);
                   (abs_path ["out"; "Misc"], Dir);
                   (abs_path ["out"; "Misc"; "x.xyz"], File (Bytes "from a"))]
      : FS)).*1.
Proof. vm_compute. reflexivity. Qed.

(** [X14] The cleanup is not guarded against an output root that is no
    directory.  When, after the loop over the operations, the recorded
    output directory of the undone session is a regular file, listing it
    raises [NotADirectoryError]: [undo_last_session] raises it in turn,
    after having restored what it could, and the session is still in the
    log. *)
Theorem undo_raises_when_the_output_root_is_a_file
    (s : state) ref session :
  last_completed s = Some (ref, session) ->
  exists outcomes t1,
    undo_trace (reverse (operations session)) (fs s) outcomes t1 /\
    (is_file t1 (Path_of_str (output_directory session)) = true ->
     undo_last_session s = (Raise NotADirectoryError, set_fs t1 s)).
Proof.
  intros Hlast.
  destruct (undo_operations_trace (reverse (operations session)) [] [] s)
    as (outcomes & t1 & Htrace & Hloop).
  exists outcomes, t1. split; [done|]. intros Hroot.
  unfold undo_last_session.
  rewrite run_bind, get_last_session_run, Hlast. cbv beta iota.
  rewrite run_bind, Hloop. cbv beta iota.
  run_step. run_step. cbn [fs set_fs self].
  unfold on_fs at 1. cbn [fs set_fs]. unfold cleanup_fuel.
  rewrite cleanup_run. unfold is_file in Hroot.
  destruct (t1 !! Path_of_str (output_directory session)) as [[c|]|];
    [|done..].
  cbv beta iota. by destruct s.
Qed.

(** A mover whose log holds a completed session, on a tree where the
    output root has been replaced by a regular file. *)
Definition root_replaced : state :=
  set_fs (list_to_map [([], Dir);
                       (abs_path ["a"], Dir); (abs_path ["b"], Dir);
                       (abs_path ["out"], File (Bytes "not a directory"))])
         after_organize.

Lemma undo_raises_when_the_output_root_is_a_file_witness :
  exists outcomes t1,
    undo_trace
      (reverse (operations (default (0, no_session)
                              (last_completed root_replaced)).2))
      (fs root_replaced) outcomes t1 /\
    (is_file t1 (Path_of_str
                   (output_directory
                      (default (0, no_session)
                         (last_completed root_replaced)).2)) = true ->
     undo_last_session root_replaced =
       (Raise NotADirectoryError, set_fs t1 root_replaced)).
Proof.
  apply (undo_raises_when_the_output_root_is_a_file root_replaced
           (default (0, no_session) (last_completed root_replaced)).1
           (default (0, no_session) (last_completed root_replaced)).2).
  vm_compute. reflexivity.
Defined.

(** A mover whose log holds a completed session, on a tree where the log
    document has been replaced by a directory that is not empty. *)
Definition log_replaced : state :=
  set_fs (list_to_map
            [([], Dir);
             (abs_path ["a"], Dir); (abs_path ["b"], Dir);
             (abs_path ["out"], Dir);
             (abs_path ["out"; "undo_log.json"], Dir);
             (abs_path ["out"; "undo_log.json"; "keep"], File (Bytes "x"))])
         after_organize.

(** [C2], as stated, fails: a completed session with two operations is
    selected for undo, and the call raises instead of returning a flag.
    With the recorded output directory replaced by a regular file,
    listing it raises [NotADirectoryError] before the session is removed:
    the session stays in the log.  With the log document replaced by a
    directory, rewriting it raises [IsADirectoryError] once the session
    has been dropped from the list in memory. *)
Lemma undo_raises_without_a_flag :
  (fun rs : nat * OrganizationSession =>
     (completed rs.2, length (operations rs.2)))
    <$> last_completed root_replaced = Some (true, 2) /\
  (fun rs : nat * OrganizationSession =>
     (completed rs.2, length (operations rs.2)))
    <$> last_completed log_replaced = Some (true, 2) /\
  (undo_last_session root_replaced).1 = Raise NotADirectoryError /\
  sessions_of (undo_last_session root_replaced).2 =
    sessions_of root_replaced /\
  length (sessions_of root_replaced) = 1 /\
  (undo_last_session log_replaced).1 = Raise IsADirectoryError /\
  sessions_of (undo_last_session log_replaced).2 = [].
Proof.
  split; [|split; [|split; [|split; [|split; [|split]]]]];
    vm_compute; reflexivity.
Qed.

Example undo_on_root_replaced :
  (undo_last_session root_replaced).1 = Raise NotADirectoryError /\
  length (sessions_of (undo_last_session root_replaced).2) = 1.
Proof. split; vm_compute; reflexivity. Qed.

End housekeeping_props.

(** ** The session log: what is kept and what is read back *)

Module persistence_props.
Import Py run_props tree_props ledger_props undo_props plan_props.
Import dry_run_props.
Import analyzer (AnalysisResult).
Import mover.

(** [X15] The JSON form of the records loses nothing: decoding the
    dictionary of a move operation gives the operation back, and decoding
    the dictionary of a session gives the session back, with its
    operations in order and its completion flag. *)
Theorem to_dict_from_dict_round_trip :
  (forall op : MoveOperation,
     MoveOperation_from_dict (MoveOperation_to_dict op) = Ok op) /\
  (forall session : OrganizationSession,
     OrganizationSession_from_dict (OrganizationSession_to_dict session)
       = Ok session).
Proof.
  split; [apply MoveOperation_round_trip|apply OrganizationSession_round_trip].
Qed.

(** [X16] What [_save] writes, a new [UndoLog] reads: after a save that
    returns, constructing a log on the same path yields the sessions that
    were in memory, in the same order, as new objects. *)
Theorem saved_log_is_read_back (s s' : state) :
  _save s = (Ok tt, s') ->
  UndoLog__init__ (log_path (undo_log (self s))) (fs s') =
    Ok {| log_path := log_path (undo_log (self s));
          _sessions := zip (seq 0 (length (sessions_of s)))
                           (sessions_of s).*2;
          next_ref := length (sessions_of s) |}.
Proof.
  rewrite _save_run. cbv zeta.
  destruct (mkdir_parents _ _) as [t1|e|]; [|intros [=]..].
  destruct (write_file _ _ _) as [t2|e|] eqn:Ew; [|intros [=]..].
  intros [= <-]. apply write_file_Ok in Ew as (-> & _ & _).
  unfold UndoLog__init__, _load, exists_, decode_log, read_json.
  cbn [fs set_fs]. rewrite lookup_insert_eq.
  cbn [mbind result_bind]. rewrite decode_sessions_round_trip.
  cbn [try_except mbind result_bind]. by rewrite length_fmap.
Qed.

Lemma saved_log_is_read_back_witness :
  UndoLog__init__ (log_path (undo_log (self after_organize)))
                  (fs (_save after_organize).2) =
    Ok {| log_path := log_path (undo_log (self after_organize));
          _sessions := zip (seq 0 (length (sessions_of after_organize)))
                           (sessions_of after_organize).*2;
          next_ref := length (sessions_of after_organize) |}.
Proof.
  apply (saved_log_is_read_back after_organize (_save after_organize).2).
  apply run_fst. vm_compute. reflexivity.
Defined.

(** [X17] [get_last_session] returns the most recent completed session
    and changes nothing: the session it returns is completed and every
    session logged after it is not, so a session that was never completed
    is passed over; it returns [None] exactly when no session of the log
    is completed. *)
Theorem get_last_session_most_recent_completed (s : state) :
  exists found,
    get_last_session s = (Ok found, s) /\
    match found with
    | Some (r, session) =>
        exists before after,
          sessions_of s = before ++ (r, session) :: after /\
          completed session = true /\
          Forall (fun rs => completed rs.2 = false) after
    | None => Forall (fun rs => completed rs.2 = false) (sessions_of s)
    end.
Proof.
  exists (last_completed s). split; [apply get_last_session_run|].
  unfold last_completed.
  destruct (List.find _ (reverse (sessions_of s))) as [[r session]|] eqn:E.
  - apply registry_props.find_first in E as (b & a & Hl & Hc & Hall).
    exists (reverse a), (reverse b). split; [|split; [done|]].
    + rewrite <- (reverse_involutive (sessions_of s)), Hl.
      rewrite reverse_app, reverse_cons, <- app_assoc. done.
    + by apply Forall_reverse.
  - apply registry_props.find_nothing in E. by apply (Forall_reverse _ _).
Qed.

Section clock.

Variable clock : nat -> datetime.

(** [X18] The log lists what the run reports.  When a real run of
    [organize_files] of [organizer.py] returns, on a well-formed tree and
    files outside the output root, the log document in the output root
    decodes to a list of sessions the last of which is completed, carries
    the output root, and has as its operations exactly the operations the
    run returned, in order. *)
Theorem organize_files_logs_what_it_reports (t0 : FS) (out : Path)
    (cfg : config.Config) (results : list AnalysisResult) (n0 : nat)
    (ops : list MoveOperation) (skipped : nat) (w1 : FS * nat) :
  wf t0 ->
  Forall (fun n => valid_name n = true) out ->
  valid_name (config.undo_log_file cfg) = true ->
  Forall (fun result =>
            In (analyzer.category result) categories.CATEGORIES_values /\
            is_file t0 (scanner.path (analyzer.file_info result)) = true /\
            ~ out `suffix_of` scanner.path (analyzer.file_info result))
         results ->
  organizer.organize_files clock results out cfg false (t0, n0) =
    (Ok (ops, skipped), w1) ->
  exists earlier session,
    _load (config.undo_log_file cfg :: out) w1.1 = Ok (earlier ++ [session]) /\
    completed session = true /\
    operations session = ops /\
    output_directory session = str_of_path out.
Proof.
  intros Hwf Hout Hlname Hall Hrun.
  destruct (round_trip_props.organize_spec clock out _ t0 Hwf Hout Hlname
              cfg eq_refl results n0 ops skipped w1 Hall Hrun)
    as (L & r & sc & _ & _ & _ & Hdoc & Hsc & Hod & Hops & _).
  exists L.*2, sc. split; [|done].
  unfold _load, exists_, decode_log, read_json. rewrite Hdoc.
  cbn [mbind result_bind]. rewrite decode_sessions_round_trip.
  cbn [try_except]. by rewrite fmap_app.
Qed.

End clock.

Lemma organize_files_logs_what_it_reports_witness :
  exists earlier session,
    _load (config.undo_log_file config.DEFAULT_CONFIG
             :: round_trip_props.organized_root)
          round_trip_props.organized.2.1 = Ok (earlier ++ [session]) /\
    completed session = true /\
    operations session =
      (round_trip_props.moved round_trip_props.organized).1 /\
    output_directory session = str_of_path round_trip_props.organized_root.
Proof.
  apply (organize_files_logs_what_it_reports clock_within_a_second
           namesakes_tree round_trip_props.organized_root
           config.DEFAULT_CONFIG two_namesakes 0
           (round_trip_props.moved round_trip_props.organized).1
           (round_trip_props.moved round_trip_props.organized).2
           round_trip_props.organized.2).
  - apply round_trip_props.wf_check_sound. vm_compute. reflexivity.
  - repeat constructor.
  - vm_compute. reflexivity.
  - apply List.Forall_cons; [|apply List.Forall_cons; [|apply List.Forall_nil]];
      (split;
       [do 18 right; left; reflexivity
       |split; [vm_compute; reflexivity
               |apply (bool_decide_eq_false_1 _); vm_compute; reflexivity]]).
  - apply run_fst. vm_compute. reflexivity.
Defined.

End persistence_props.

(** ** [scanner.py]: discovering the files

    The scanner over the directory tree of [Py].  What the operating
    system and the optional libraries contribute is taken as given: the
    size [stat] reports, the text a read returns, the MIME type
    [python-magic] finds, the text [PyPDF2] extracts.  The three settings
    of [Config] that the record [config.Config] leaves out are taken as
    given too. *)

Module scanner_scan.
Import Py.
Import scanner (FileInfo).

Section scanner.

(** [Config.max_file_size_mb], [skip_extensions], [text_extensions]. *)
Variable max_file_size_mb : N.
Variable skip_extensions : gset string.
Variable text_extensions : gset string.
Variable config : config.Config.

(** [stat().st_size] of an entry. *)
Variable st_size : node -> N.
(** [f.read(n)] on a file opened as text, errors ignored; [None] when
    opening or reading raises. *)
Variable read_text : content -> nat -> option string.
(** [_read_pdf_content], which defers to [PyPDF2]. *)
Variable read_pdf : content -> nat -> option string.
(** [_get_magic()]: [None] when [python-magic] cannot be imported;
    otherwise [from_file], with [None] where it raises. *)
Variable magic : option (Path -> option string).

(** [_read_text_content]: an empty read gives [None], any other is
    stripped. *)
Definition _read_text_content (c : content) : option string :=
  match read_text c (config.max_content_chars config) with
  | Some text => if String.eqb text "" then None else Some (strip text)
  | None => None                   (* except Exception *)
  end.

(** [_get_file_info].  The comparison of [size_mb] with the limit is
    made on the byte counts, which is the same as long as the division by
    [1024 * 1024] is exact. *)
Definition _get_file_info (t : FS) (file_path : Path) : option FileInfo :=
  match t !! file_path with
  | None => None                   (* [stat] raises an [OSError] *)
  | Some entry =>
      let extension := lower (Path_suffix file_path) in
      (* Skip files that are too large *)
      if (max_file_size_mb * 1048576 <? st_size entry)%N then None
      (* Skip certain extensions *)
      else if bool_decide (extension ∈ skip_extensions) then None
      else
        let mime_type :=
          match magic with
          | Some from_file => from_file file_path
          | None => None
          end in
        let content :=
          match entry with
          | File c =>
              if bool_decide (extension ∈ text_extensions)
              then _read_text_content c
              else if String.eqb extension ".pdf"
              then read_pdf c (config.max_content_chars config)
              else None
          | Dir => None              (* [open] raises on a directory *)
          end in
        Some {| scanner.path := file_path;
                scanner.name := Path_name file_path;
                scanner.extension := extension;
                scanner.size_bytes := st_size entry;
                scanner.content := content;
                scanner.mime_type := mime_type |}
  end.

(** [directory.glob("**/*")] and [directory.glob("*")]: everything
    below the directory, or its entries.  The order in which a glob
    yields is that of the directory listings; here it is the order of the
    keys of the tree. *)
Definition glob (t : FS) (directory : Path) (recursive : bool) : list Path :=
  if recursive
  then List.filter (fun p => bool_decide (directory `suffix_of` p /\
                                          p <> directory))
                   (elements (dom t))
  else children t directory.

(** What the loop of [scan_directory] does with one path of the glob. *)
Definition scan_entry (t : FS) (file_path : Path) : option FileInfo :=
  if is_file t file_path then
    (* Skip hidden files *)
    if String.prefix "." (Path_name file_path) then None
    (* Skip files in hidden directories *)
    else if existsb (String.prefix ".") file_path then None
    else _get_file_info t file_path
  else None.

(** [scan_directory], with the generator run to its end. *)
Definition scan_directory (t : FS) (directory : Path) (recursive : bool)
    : result (list FileInfo) :=
  if negb (exists_ t directory) then Raise FileNotFoundError
  else if negb (is_dir t directory) then Raise ValueError
  else Ok (omap (scan_entry t) (glob t directory recursive)).

Definition get_file_count (t : FS) (directory : Path) (recursive : bool)
    : result nat :=
  infos ← scan_directory t directory recursive;
  Ok (length infos).

(** The module-level [scan_files]. *)
Definition scan_files (t : FS) (directory : Path) : result (list FileInfo) :=
  scan_directory t directory true.

End scanner.

End scanner_scan.

Module scan_props.
Import Py tree_props.
Import scanner (FileInfo).
Import scanner_scan.

Section scanner.

Variable max_file_size_mb : N.
Variable skip_extensions : gset string.
Variable text_extensions : gset string.
Variable config : config.Config.
Variable st_size : node -> N.
Variable read_text : content -> nat -> option string.
Variable read_pdf : content -> nat -> option string.
Variable magic : option (Path -> option string).

Abbreviation get_info := (_get_file_info max_file_size_mb skip_extensions
                        text_extensions config st_size read_text read_pdf
                        magic).
Abbreviation entry_of := (scan_entry max_file_size_mb skip_extensions
                        text_extensions config st_size read_text read_pdf
                        magic).
Abbreviation scan := (scan_directory max_file_size_mb skip_extensions
                    text_extensions config st_size read_text read_pdf magic).

Lemma elem_of_glob t directory recursive p :
  p ∈ glob t directory recursive ->
  is_Some (t !! p) /\ directory `suffix_of` p /\ p <> directory /\
  (recursive = false -> Path_parent p = directory).
Proof.
  unfold glob. destruct recursive.
  - rewrite list_elem_of_In, filter_In, <- list_elem_of_In.
    rewrite elem_of_elements, elem_of_dom.
    intros [Hin [Hsuf Hne]%bool_decide_eq_true]. done.
  - intros (n & -> & Hin)%elem_of_children.
    split; [done|]. split; [by apply suffix_cons_r|]. split; [|done].
    intros E. apply (f_equal length) in E. simpl in E. lia.
Qed.

Lemma glob_complete t directory recursive p :
  is_Some (t !! p) -> directory `suffix_of` p -> p <> directory ->
  (recursive = false -> Path_parent p = directory) ->
  p ∈ glob t directory recursive.
Proof.
  intros Hin Hsuf Hne Hup. unfold glob. destruct recursive.
  - rewrite list_elem_of_In, filter_In, <- list_elem_of_In.
    rewrite elem_of_elements, elem_of_dom. split; [done|].
    by apply bool_decide_eq_true.
  - apply elem_of_children. destruct p as [|n up].
    + destruct Hsuf as [k E]. symmetry in E.
      apply app_eq_nil in E as [_ ->]. done.
    + exists n. split; [|done]. f_equal. by apply Hup.
Qed.

Lemma NoDup_glob t directory recursive : NoDup (glob t directory recursive).
Proof.
  unfold glob. destruct recursive; [|apply NoDup_children].
  apply NoDup_ListNoDup, List.NoDup_filter, NoDup_ListNoDup, NoDup_elements.
Qed.

Lemma get_info_Some t p info :
  get_info t p = Some info ->
  exists entry,
    t !! p = Some entry /\
    scanner.path info = p /\
    scanner.name info = Path_name p /\
    scanner.extension info = lower (Path_suffix p) /\
    scanner.size_bytes info = st_size entry /\
    (st_size entry <= max_file_size_mb * 1048576)%N /\
    scanner.extension info ∉ skip_extensions.
Proof.
  unfold _get_file_info. destruct (t !! p) as [entry|]; [|done]. cbv zeta.
  destruct (_ <? _)%N eqn:Esize; [done|].
  destruct (bool_decide _) eqn:Eskip; [done|].
  intros [= <-]. exists entry. cbn.
  apply N.ltb_ge in Esize. apply bool_decide_eq_false in Eskip. done.
Qed.

Lemma entry_of_Some t p info :
  entry_of t p = Some info ->
  is_file t p = true /\
  existsb (String.prefix ".") p = false /\
  get_info t p = Some info.
Proof.
  unfold scan_entry. destruct (is_file t p); [|done].
  destruct (String.prefix "." (Path_name p)); [done|].
  by destruct (existsb _ p).
Qed.

(** [X19] What [scan_directory] reports.  When the scan of a directory
    returns, every record it yields is that of a regular file strictly
    below the directory (directly in it when the scan is not recursive);
    no component of the file's path begins with a dot; the record carries
    the path, its last component as name, the lower-cased suffix as
    extension and the size [stat] reports; the extension is not one of
    the skipped ones and the size does not exceed the limit. *)
Theorem scan_directory_reports_visible_files t directory recursive infos :
  scan t directory recursive = Ok infos ->
  Forall (fun info =>
            let p := scanner.path info in
            (exists c, t !! p = Some (File c) /\
                       scanner.size_bytes info = st_size (File c) /\
                       (st_size (File c) <= max_file_size_mb * 1048576)%N) /\
            directory `suffix_of` p /\ p <> directory /\
            (recursive = false -> Path_parent p = directory) /\
            Forall (fun part => String.prefix "." part = false) p /\
            scanner.name info = Path_name p /\
            scanner.extension info = lower (Path_suffix p) /\
            scanner.extension info ∉ skip_extensions)
         infos.
Proof.
  unfold scan_directory. destruct (exists_ t directory); [|done].
  destruct (is_dir t directory); [|done]. cbn [negb]. intros [= <-].
  apply Forall_forall. intros info (p & Hp & Hinfo)%list_elem_of_omap.
  apply elem_of_glob in Hp as (_ & Hsuf & Hne & Hup).
  apply entry_of_Some in Hinfo as (Hfile & Hdots & Hinfo).
  apply get_info_Some in Hinfo
    as (entry & Hentry & Hpath & Hname & Hext & Hsize & Hmax & Hskip).
  cbv zeta. rewrite Hpath. unfold is_file in Hfile. rewrite Hentry in Hfile.
  destruct entry as [c|]; [|done].
  split; [by exists c|]. split; [done|]. split; [done|]. split; [done|].
  split; [|done]. apply Forall_forall. intros part Hpart.
  destruct (String.prefix "." part) eqn:E; [|done].
  rewrite <- Hdots. symmetry. apply existsb_exists. exists part.
  split; [by apply list_elem_of_In|done].
Qed.

(** [X20] No file is missed and none is reported twice.  When the scan
    returns, every regular file strictly below the directory (directly in
    it when the scan is not recursive) with no component beginning with
    a dot, an extension that is not skipped and a size within the limit
    has a record in the result, and no two records of the result have the
    same path. *)
Theorem scan_directory_reports_every_visible_file
    t directory recursive infos :
  scan t directory recursive = Ok infos ->
  NoDup (scanner.path <$> infos) /\
  forall p c,
    t !! p = Some (File c) ->
    directory `suffix_of` p -> p <> directory ->
    (recursive = false -> Path_parent p = directory) ->
    Forall (fun part => String.prefix "." part = false) p ->
    (st_size (File c) <= max_file_size_mb * 1048576)%N ->
    lower (Path_suffix p) ∉ skip_extensions ->
    exists info, info ∈ infos /\ scanner.path info = p.
Proof.
  unfold scan_directory. destruct (exists_ t directory); [|done].
  destruct (is_dir t directory); [|done]. cbn [negb]. intros [= <-]. split.
  - pose proof (NoDup_glob t directory recursive) as Hnd.
    induction Hnd as [|p l Hp Hnd IH]; [constructor|].
    cbn [omap list_omap]. destruct (entry_of t p) as [info|] eqn:E; [|done].
    cbn [fmap list_fmap]. constructor; [|done].
    apply entry_of_Some in E as (_ & _ & E).
    apply get_info_Some in E as (_ & _ & -> & _).
    intros (info' & Hpath & (q & Hq & E')%list_elem_of_omap)%list_elem_of_fmap.
    apply entry_of_Some in E' as (_ & _ & E').
    apply get_info_Some in E' as (_ & _ & Hq' & _). congruence.
  - intros p c Hp Hsuf Hne Hup Hdots Hsize Hskip.
    assert (exists info, entry_of t p = Some info /\ scanner.path info = p)
      as (info & Hinfo & Hpath).
    { unfold scan_entry, is_file, _get_file_info. rewrite Hp. cbv zeta.
      assert (existsb (String.prefix ".") p = false) as Hnone.
      { destruct (existsb _ p) eqn:E; [|done].
        apply existsb_exists in E as (part & Hpart & E).
        rewrite Forall_forall in Hdots.
        rewrite Hdots in E; [done|by apply list_elem_of_In]. }
      assert (String.prefix "." (Path_name p) = false) as ->.
      { destruct p as [|n up]; [done|]. by apply Forall_cons in Hdots as [? _]. }
      rewrite Hnone. apply N.ltb_ge in Hsize. rewrite Hsize.
      rewrite bool_decide_eq_false_2 by done. by eexists. }
    exists info. split; [|done]. apply list_elem_of_omap. exists p.
    split; [|done]. apply glob_complete; by eauto.
Qed.

(** [X21] The dot test looks at the whole path, the scanned directory
    included.  So the scan of an existing directory that itself lies
    under a component beginning with a dot returns no file at all,
    whatever the directory holds. *)
Theorem scan_directory_below_a_hidden_component t directory recursive :
  is_dir t directory = true ->
  Exists (fun part => String.prefix "." part = true) directory ->
  scan t directory recursive = Ok [].
Proof.
  intros Hdir Hhidden. unfold scan_directory, exists_.
  unfold is_dir in Hdir. destruct (t !! directory) as [[]|] eqn:Ed; [done| |done].
  unfold is_dir. rewrite Ed. cbn [negb]. f_equal.
  assert (forall l, Forall (fun p => directory `suffix_of` p) l ->
                    omap (entry_of t) l = []) as Hall.
  { induction 1 as [|p l [k ->] _ IH]; [done|]. cbn [omap list_omap].
    rewrite IH. unfold scan_entry.
    destruct (is_file t _); [|done].
    destruct (String.prefix "." _); [done|].
    rewrite existsb_app. apply Exists_exists in Hhidden as (part & Hin & Hp).
    assert (existsb (String.prefix ".") directory = true) as ->.
    { apply existsb_exists. exists part. split; [by apply list_elem_of_In|done]. }
    by rewrite orb_true_r. }
  apply Hall, Forall_forall. intros p Hp.
  by apply elem_of_glob in Hp as (_ & ? & _).
Qed.

End scanner.

(** *** A scan of a small home directory *)

Definition home_tree : FS :=
  list_to_map
    [([], Dir);
     (abs_path ["home"], Dir);
     (abs_path ["home"; "report.docx"], File (Bytes "quarterly figures"));
     (abs_path ["home"; "setup.exe"], File (Bytes "MZ"));
     (abs_path ["home"; ".bashrc"], File (Bytes "alias ll=ls"));
     (abs_path ["home"; ".cache"], Dir);
     (abs_path ["home"; ".cache"; "page.html"], File (Bytes "<html>"));
     (abs_path ["home"; "notes"], Dir);
     (abs_path ["home"; "notes"; "Todo.TXT"], File (Bytes "  buy milk "))].

Definition byte_size (entry : node) : N :=
  match entry with
  | File (Bytes b) => N.of_nat (String.length b)
  | _ => 0
  end.

Definition read_bytes (c : content) (n : nat) : option string :=
  match c with
  | Bytes b => Some (String.substring 0 n b)
  | Document _ => None
  end.

Definition scan_home (directory : Path) (recursive : bool)
    : result (list FileInfo) :=
  scan_directory 50 (list_to_set [".exe"; ".log"])
    (list_to_set [".txt"; ".md"]) config.DEFAULT_CONFIG byte_size
    read_bytes (fun _ _ => None) None home_tree directory recursive.

Definition records (r : result (list FileInfo)) : list FileInfo :=
  match r with
  | Ok infos => infos
  | _ => []
  end.

Example scan_home_finds :
  (fun info => (scanner.name info, scanner.extension info,
                scanner.content info))
    <$> records (scan_home (abs_path ["home"]) true) =
    [("report.docx", ".docx", None);
     ("Todo.TXT", ".txt", Some "buy milk")] \/
  (fun info => (scanner.name info, scanner.extension info,
                scanner.content info))
    <$> records (scan_home (abs_path ["home"]) true) =
    [("Todo.TXT", ".txt", Some "buy milk");
     ("report.docx", ".docx", None)].
Proof. vm_compute. tauto. Qed.

Lemma scan_directory_reports_visible_files_witness :
  Forall (fun info =>
            let p := scanner.path info in
            (exists c, home_tree !! p = Some (File c) /\
                       scanner.size_bytes info = byte_size (File c) /\
                       (byte_size (File c) <= 50 * 1048576)%N) /\
            abs_path ["home"] `suffix_of` p /\ p <> abs_path ["home"] /\
            (true = false -> Path_parent p = abs_path ["home"]) /\
            Forall (fun part => String.prefix "." part = false) p /\
            scanner.name info = Path_name p /\
            scanner.extension info = lower (Path_suffix p) /\
            scanner.extension info ∉
              (list_to_set [".exe"; ".log"] : gset string))
         (records (scan_home (abs_path ["home"]) true)).
Proof.
  apply (scan_directory_reports_visible_files 50
           (list_to_set [".exe"; ".log"]) (list_to_set [".txt"; ".md"])
           config.DEFAULT_CONFIG byte_size read_bytes (fun _ _ => None) None
           home_tree (abs_path ["home"]) true).
  vm_compute. reflexivity.
Defined.

Lemma scan_directory_reports_every_visible_file_witness :
  NoDup (scanner.path <$> records (scan_home (abs_path ["home"]) false)) /\
  forall p c,
    home_tree !! p = Some (File c) ->
    abs_path ["home"] `suffix_of` p -> p <> abs_path ["home"] ->
    (false = false -> Path_parent p = abs_path ["home"]) ->
    Forall (fun part => String.prefix "." part = false) p ->
    (byte_size (File c) <= 50 * 1048576)%N ->
    lower (Path_suffix p) ∉ (list_to_set [".exe"; ".log"] : gset string) ->
    exists info, info ∈ records (scan_home (abs_path ["home"]) false) /\
                 scanner.path info = p.
Proof.
  apply (scan_directory_reports_every_visible_file 50
           (list_to_set [".exe"; ".log"]) (list_to_set [".txt"; ".md"])
           config.DEFAULT_CONFIG byte_size read_bytes (fun _ _ => None) None
           home_tree (abs_path ["home"]) false).
  vm_compute. reflexivity.
Defined.

Lemma scan_directory_below_a_hidden_component_witness :
  scan_home (abs_path ["home"; ".cache"]) true = Ok [].
Proof.
  apply (scan_directory_below_a_hidden_component 50
           (list_to_set [".exe"; ".log"]) (list_to_set [".txt"; ".md"])
           config.DEFAULT_CONFIG byte_size read_bytes (fun _ _ => None) None
           home_tree (abs_path ["home"; ".cache"]) true).
  - vm_compute. reflexivity.
  - apply Exists_cons_hd. reflexivity.
Defined.

End scan_props.

(** ** The cached probe of the backend *)

Module probe_props.
Import Py.
Import scanner (FileInfo).
Import analyzer.

(** [X23] The analyzer asks once whether the backend is there.  After a
    first call of [_get_client], with whatever outcome, a later call
    returns the same answer and leaves the analyzer as it is, even if the
    backend would now answer differently; the same holds of the property
    [ollama_available].  So an analyzer built while the backend was down
    never reaches it later. *)
Theorem backend_probe_is_cached (probe probe' : bool) (self : FileAnalyzer) :
  _get_client probe' (_get_client probe self).1 =
    ((_get_client probe self).1, (_get_client probe self).2) /\
  ollama_available probe' (ollama_available probe self).1 =
    ((ollama_available probe self).1, (ollama_available probe self).2) /\
  (_get_client probe __init__).2 = probe /\
  (ollama_available probe __init__).2 = Some probe.
Proof.
  split; [|split; [|split]].
  - unfold _get_client. destruct self as [[] available], probe; reflexivity.
  - unfold ollama_available, _get_client.
    destruct self as [[] [b|]], probe; reflexivity.
  - by destruct probe.
  - by destruct probe.
Qed.

End probe_props.

(** ** Undo and files that have appeared since *)

Module overwrite_props.
Import Py run_props tree_props ledger_props undo_props.
Import mover.

(** [X24] Undo does not look at what is at the original path.  When the
    recorded destination of an operation is a regular file and a regular
    file has appeared at the original path since the move, in a directory
    that is still there, one round of the undo loop moves the file back
    over it: the round reports a restored move, the original path holds
    the content that was at the destination, and the content that had
    appeared there is gone. *)
Theorem undo_operation_overwrites (op : MoveOperation) (s : state)
    (c c' : content) :
  let source := Path_of_str (source op) in
  let dest := Path_of_str (destination op) in
  fs s !! dest = Some (File c) ->
  fs s !! source = Some (File c') ->
  fs s !! Path_parent source = Some Dir ->
  undo_operation op s =
    (Ok (inl (str_of_path dest, str_of_path source)),
     set_fs (<[source := File c]> (delete dest (fs s))) s).
Proof.
  intros source dest Hdest Hsource Hup. unfold undo_operation.
  run_step. unfold exists_. fold dest source. rewrite Hdest. cbv beta iota.
  unfold try_catch. run_step. unfold on_fs at 1, os_call.
  rewrite (mkdir_parents_dir _ _ Hup). cbv beta iota.
  run_step. unfold on_fs at 1, os_call. cbn [fs set_fs].
  rewrite (round_trip_props.shutil_move_file (fs s) dest source c)
    by (by rewrite ?Hsource).
  cbv beta iota. rewrite run_ret. by destruct s.
Qed.

(** After the real run on the two namesakes, a new file is put where the
    first of them was. *)
Definition reappeared : state :=
  set_fs (<[abs_path ["a"; "x.xyz"] := File (Bytes "written later")]>
            (fs after_organize))
         after_organize.

Definition first_move : MoveOperation :=
  {| source := "/a/x.xyz"; destination := "/out/Misc/x.xyz";
     category := "Miscellaneous";
     reasoning := JStr "No matching category found, using fallback";
     timestamp := "2024-03-09T01:02:03.000002" |}.

Lemma undo_operation_overwrites_witness :
  undo_operation first_move reappeared =
    (Ok (inl (str_of_path (Path_of_str "/out/Misc/x.xyz"),
              str_of_path (Path_of_str "/a/x.xyz"))),
     set_fs (<[Path_of_str "/a/x.xyz" := File (Bytes "from a")]>
               (delete (Path_of_str "/out/Misc/x.xyz") (fs reappeared)))
            reappeared).
Proof.
  apply (undo_operation_overwrites first_move reappeared
           (Bytes "from a") (Bytes "written later"));
    vm_compute; reflexivity.
Defined.

Example first_move_is_logged :
  In first_move (operations tampered_session.2).
Proof. vm_compute. tauto. Qed.

End overwrite_props.
